(** * Moltworker gateway lifecycle: a shallow embedding and its properties

    The development follows the sources of the repository:
    - the TypeScript side: [gateway/process.ts] (discovery, reconciliation,
      launch and readiness wait), [gateway/env.ts] (the environment
      reconciler [buildEnvVars]) and the access middleware;
    - [start-moltbot.sh], the launch script: the restore decision, the
      embedded node program that rewrites [clawdbot.json], and the crash
      supervisor.

    Definitions come first, one module per source unit; then the vocabulary
    of the statements with sample inputs; then the theorems. *)

From Stdlib Require Import String Ascii List ZArith Bool Lia.
From stdpp Require Import base option list strings pretty gmap fin_maps.
Import ListNotations.
Local Open Scope string_scope.
Local Open Scope list_scope.

(* ===================================================================== *)
(** * Part I. Definitions                                                  *)
(* ===================================================================== *)

(** ** JavaScript string primitives used by the sources *)
Module Str.

(** [s.startsWith(p)] *)
Fixpoint startsWith (s p : string) : bool :=
  match p with
  | EmptyString => true
  | String a p' =>
      match s with
      | EmptyString => false
      | String b s' => if Ascii.eqb a b then startsWith s' p' else false
      end
  end.

(** [s.includes(sub)]: [sub] starts at some position of [s]. *)
Fixpoint includes (s sub : string) : bool :=
  if startsWith s sub then true
  else match s with
       | EmptyString => false
       | String _ s' => includes s' sub
       end.

(** [s.endsWith(suf)]: [suf] is one of the tails of [s]. *)
Fixpoint endsWith (s suf : string) : bool :=
  if String.eqb s suf then true
  else match s with
       | EmptyString => false
       | String _ s' => endsWith s' suf
       end.

(** [s.replace(/\/+$/, '')]: drop the maximal run of slashes at the end. *)
Fixpoint stripTrailingSlashes (s : string) : string :=
  match s with
  | EmptyString => EmptyString
  | String c r =>
      match stripTrailingSlashes r with
      | EmptyString => if Ascii.eqb c "/" then EmptyString else String c EmptyString
      | r' => String c r'
      end
  end.

(** [s.split(sep)] for a one-character separator. *)
Fixpoint split (sep : ascii) (s : string) : list string :=
  match s with
  | EmptyString => [EmptyString]
  | String c r =>
      if Ascii.eqb c sep then EmptyString :: split sep r
      else match split sep r with
           | h :: t => String c h :: t
           | [] => [String c EmptyString]
           end
  end.

(** White space as [String.prototype.trim] sees it on a header value,
    whose characters are code points below 256: TAB, LF, VT, FF, CR,
    SPACE and NBSP. *)
Definition isSpace (c : ascii) : bool :=
  let n := nat_of_ascii c in
  (Nat.leb 9 n && Nat.leb n 13) || Nat.eqb n 32 || Nat.eqb n 160.

Fixpoint trimStart (s : string) : string :=
  match s with
  | EmptyString => EmptyString
  | String c r => if isSpace c then trimStart r else s
  end.

Fixpoint trimEnd (s : string) : string :=
  match s with
  | EmptyString => EmptyString
  | String c r =>
      match trimEnd r with
      | EmptyString => if isSpace c then EmptyString else String c EmptyString
      | r' => String c r'
      end
  end.

(** [s.trim()] *)
Definition trim (s : string) : string := trimEnd (trimStart s).

End Str.

(** ** JavaScript truthiness of an optional string ([string | undefined]) *)
Definition truthyS (o : option string) : bool :=
  match o with
  | Some s => negb (String.eqb s EmptyString)
  | None => false
  end.

(** [a || b] on optional strings. *)
Definition orS (a b : option string) : option string :=
  if truthyS a then a else b.

(** ** Exceptions and effectful programs *)

(** A thrown JavaScript value: an [Error] object with its message, the
    [TypeError] the engine raises on a property access through
    [undefined]/[null] or on a call of a non-function, or a value that is
    not an [Error] at all. *)
Inductive exn : Type :=
| Error (message : string)
| TypeError (message : string)
| Thrown (value : string).

Inductive result (A : Type) : Type :=
| Ok (a : A)
| Throw (e : exn).
Arguments Ok {A} a.
Arguments Throw {A} e.

(** Programs that talk to the platform: the trace of platform calls and
    console lines is threaded through, and survives a thrown exception. *)
Module Prog.
Section WithEvents.
Context {E : Type}.

Definition t (A : Type) : Type := list E -> result A * list E.

Definition ret {A} (a : A) : t A := fun tr => (Ok a, tr).

Definition bind {A B} (m : t A) (k : A -> t B) : t B :=
  fun tr =>
    match m tr with
    | (Ok a, tr') => k a tr'
    | (Throw e, tr') => (Throw e, tr')
    end.

Definition throw {A} (e : exn) : t A := fun tr => (Throw e, tr).

(** One observable step without a result. *)
Definition emit (ev : E) : t unit := fun tr => (Ok tt, tr ++ [ev]).

(** A platform call: it is recorded, and it returns or throws as the
    platform decides. *)
Definition call {A} (ev : E) (r : result A) : t A := fun tr => (r, tr ++ [ev]).

(** [try { m } catch (e) { h e }] *)
Definition try_catch {A} (m : t A) (h : exn -> t A) : t A :=
  fun tr =>
    match m tr with
    | (Ok a, tr') => (Ok a, tr')
    | (Throw e, tr') => h e tr'
    end.

(** [for (const x of xs) { body x }] *)
Fixpoint forEach {A} (xs : list A) (body : A -> t unit) : t unit :=
  match xs with
  | [] => ret tt
  | x :: rest => bind (body x) (fun _ => forEach rest body)
  end.

(** [if (b) { m }] *)
Definition when (b : bool) (m : t unit) : t unit := if b then m else ret tt.

(** A run from the empty trace. *)
Definition run {A} (m : t A) : result A * list E := m [].
End WithEvents.
Arguments t : clear implicits.
End Prog.

Declare Scope prog_scope.
Delimit Scope prog_scope with prog.
Notation "x <- m ;; k" := (Prog.bind m (fun x => k))
  (at level 100, m at next level, right associativity) : prog_scope.
Notation "m ;; k" := (Prog.bind m (fun _ => k))
  (at level 100, right associativity) : prog_scope.

(** ** [gateway/env.ts]: the environment reconciler *)
Module Env.

(** Modelled from the spec: [MoltbotEnv] is declared in [types.ts], which
    is not part of the sources; the bindings are the ones the sources read,
    and by the spec every one of them is optional (a string that may be
    missing). *)
Record MoltbotEnv : Type := {
  AI_GATEWAY_BASE_URL : option string;
  AI_GATEWAY_API_KEY : option string;
  CLOUDFLARE_AI_GATEWAY_API_KEY : option string;
  CLOUDFLARE_AI_GATEWAY_ID : option string;
  CF_ACCOUNT_ID : option string;
  CF_AI_GATEWAY_MODEL : option string;
  ANTHROPIC_API_KEY : option string;
  OPENAI_API_KEY : option string;
  ANTHROPIC_BASE_URL : option string;
  MOLTBOT_GATEWAY_TOKEN : option string;
  DEV_MODE : option string;
  E2E_TEST_MODE : option string;
  CLAWDBOT_BIND_MODE : option string;
  TELEGRAM_BOT_TOKEN : option string;
  TELEGRAM_DM_POLICY : option string;
  DISCORD_BOT_TOKEN : option string;
  DISCORD_DM_POLICY : option string;
  SLACK_BOT_TOKEN : option string;
  SLACK_APP_TOKEN : option string;
  CDP_SECRET : option string;
  WORKER_URL : option string;
  CF_ACCESS_TEAM_DOMAIN : option string;
  CF_ACCESS_AUD : option string
}.

(** The environment with no binding at all. *)
Definition noEnv : MoltbotEnv :=
  {| AI_GATEWAY_BASE_URL := None; AI_GATEWAY_API_KEY := None;
     CLOUDFLARE_AI_GATEWAY_API_KEY := None; CLOUDFLARE_AI_GATEWAY_ID := None;
     CF_ACCOUNT_ID := None; CF_AI_GATEWAY_MODEL := None;
     ANTHROPIC_API_KEY := None; OPENAI_API_KEY := None;
     ANTHROPIC_BASE_URL := None; MOLTBOT_GATEWAY_TOKEN := None;
     DEV_MODE := None; E2E_TEST_MODE := None; CLAWDBOT_BIND_MODE := None;
     TELEGRAM_BOT_TOKEN := None; TELEGRAM_DM_POLICY := None;
     DISCORD_BOT_TOKEN := None; DISCORD_DM_POLICY := None;
     SLACK_BOT_TOKEN := None; SLACK_APP_TOKEN := None; CDP_SECRET := None;
     WORKER_URL := None; CF_ACCESS_TEAM_DOMAIN := None; CF_ACCESS_AUD := None |}.

(** [env.CF_AI_GATEWAY_MODEL?.startsWith('google/') ||
     env.CF_AI_GATEWAY_MODEL?.includes('gemini')] *)
Definition modelIsGoogle (env : MoltbotEnv) : bool :=
  match CF_AI_GATEWAY_MODEL env with
  | Some m => Str.startsWith m "google/" || Str.includes m "gemini"
  | None => false
  end.

(** The base URL after the "construct from gateway id and account id"
    step: the explicit one when it is truthy, else the synthesized one
    when both identifiers are truthy, else the explicit one as it is. *)
Definition resolvedBaseUrl (env : MoltbotEnv) : option string :=
  let baseUrl := AI_GATEWAY_BASE_URL env in
  if negb (truthyS baseUrl) && truthyS (CLOUDFLARE_AI_GATEWAY_ID env)
     && truthyS (CF_ACCOUNT_ID env)
  then
    let provider := if modelIsGoogle env then "openai" else "anthropic" in
    Some ("https://gateway.ai.cloudflare.com/v1/"
            +:+ default EmptyString (CF_ACCOUNT_ID env) +:+ "/"
            +:+ default EmptyString (CLOUDFLARE_AI_GATEWAY_ID env) +:+ "/" +:+ provider)
  else baseUrl.

(** [baseUrl?.replace(/\/+$/, '')] *)
Definition normalizedBaseUrl (env : MoltbotEnv) : option string :=
  Str.stripTrailingSlashes <$> resolvedBaseUrl env.

(** [normalizedBaseUrl?.endsWith('/openai')] *)
Definition isOpenAIGateway (env : MoltbotEnv) : bool :=
  match normalizedBaseUrl env with
  | Some u => Str.endsWith u "/openai"
  | None => false
  end.

(** [env.AI_GATEWAY_API_KEY || env.CLOUDFLARE_AI_GATEWAY_API_KEY] *)
Definition gatewayApiKey (env : MoltbotEnv) : option string :=
  orS (AI_GATEWAY_API_KEY env) (CLOUDFLARE_AI_GATEWAY_API_KEY env).

(** [if (v) envVars.name = v] *)
Definition setIf (name : string) (v : option string)
    (envVars : gmap string string) : gmap string string :=
  match v with
  | Some s => if truthyS v then <[name := s]> envVars else envVars
  | None => envVars
  end.

(** [if (!envVars.name && v) envVars.name = v] *)
Definition setIfUnset (name : string) (v : option string)
    (envVars : gmap string string) : gmap string string :=
  if negb (truthyS (envVars !! name)) then setIf name v envVars else envVars.

(** The gateway-scoped key goes to the variable of the gateway's shape. *)
Definition routeApiKey (env : MoltbotEnv)
    (envVars : gmap string string) : gmap string string :=
  let apiKey := gatewayApiKey env in
  if truthyS apiKey then
    if isOpenAIGateway env then setIf "OPENAI_API_KEY" apiKey envVars
    else setIf "ANTHROPIC_API_KEY" apiKey envVars
  else envVars.

(** Fall back to direct provider keys. *)
Definition fallbackKeys (env : MoltbotEnv)
    (envVars : gmap string string) : gmap string string :=
  let envVars := setIfUnset "ANTHROPIC_API_KEY" (ANTHROPIC_API_KEY env) envVars in
  setIfUnset "OPENAI_API_KEY" (OPENAI_API_KEY env) envVars.

(** Pass the base URL under the generic and the provider-specific name. *)
Definition passBaseUrl (env : MoltbotEnv)
    (envVars : gmap string string) : gmap string string :=
  let n := normalizedBaseUrl env in
  if truthyS n then
    let envVars := setIf "AI_GATEWAY_BASE_URL" n envVars in
    if isOpenAIGateway env then setIf "OPENAI_BASE_URL" n envVars
    else setIf "ANTHROPIC_BASE_URL" n envVars
  else if truthyS (ANTHROPIC_BASE_URL env) then
    setIf "ANTHROPIC_BASE_URL" (ANTHROPIC_BASE_URL env) envVars
  else envVars.

(** The bindings copied through when present. *)
Definition passThrough (env : MoltbotEnv)
    (envVars : gmap string string) : gmap string string :=
  let envVars := setIf "CLAWDBOT_GATEWAY_TOKEN" (MOLTBOT_GATEWAY_TOKEN env) envVars in
  let envVars := setIf "CLAWDBOT_DEV_MODE" (DEV_MODE env) envVars in
  let envVars := setIf "CLAWDBOT_BIND_MODE" (CLAWDBOT_BIND_MODE env) envVars in
  let envVars := setIf "TELEGRAM_BOT_TOKEN" (TELEGRAM_BOT_TOKEN env) envVars in
  let envVars := setIf "TELEGRAM_DM_POLICY" (TELEGRAM_DM_POLICY env) envVars in
  let envVars := setIf "DISCORD_BOT_TOKEN" (DISCORD_BOT_TOKEN env) envVars in
  let envVars := setIf "DISCORD_DM_POLICY" (DISCORD_DM_POLICY env) envVars in
  let envVars := setIf "SLACK_BOT_TOKEN" (SLACK_BOT_TOKEN env) envVars in
  let envVars := setIf "SLACK_APP_TOKEN" (SLACK_APP_TOKEN env) envVars in
  let envVars := setIf "CDP_SECRET" (CDP_SECRET env) envVars in
  let envVars := setIf "WORKER_URL" (WORKER_URL env) envVars in
  let envVars := setIf "WORKER_URL" (WORKER_URL env) envVars in
  let envVars := setIf "CF_ACCOUNT_ID" (CF_ACCOUNT_ID env) envVars in
  setIf "CF_AI_GATEWAY_MODEL" (CF_AI_GATEWAY_MODEL env) envVars.

(** [buildEnvVars(env)] *)
Definition buildEnvVars (env : MoltbotEnv) : gmap string string :=
  let envVars : gmap string string := ∅ in
  let envVars := routeApiKey env envVars in
  let envVars := fallbackKeys env envVars in
  let envVars := passBaseUrl env envVars in
  passThrough env envVars.

End Env.

(** ** [gateway/process.ts]: discovery, reconciliation and launch *)
Module Gateway.
Import Env.
Local Open Scope prog_scope.

(** Modelled from the spec: the [Process] type of the sandbox SDK is not
    part of the sources; the spec's ProcessRecord is
    [{id, command, status ∈ {starting, running, exited, killed}}]. *)
Inductive Status : Type := starting | running | exited | killed.

Record Process : Type := {
  id : string;
  command : string;
  status : Status
}.

Definition statusName (s : Status) : string :=
  match s with
  | starting => "starting"
  | running => "running"
  | exited => "exited"
  | killed => "killed"
  end.

Record Logs : Type := { stdout : string; stderr : string }.

(** The two constants imported from [../config]. *)
Record Settings : Type := { MOLTBOT_PORT : Z; STARTUP_TIMEOUT_MS : Z }.

(** Modelled from the spec: the process platform API ([listProcesses],
    [startProcess], [kill], [waitForPort], [getLogs]) belongs to the sandbox
    SDK; a value of this record is what the platform answers to each call of
    one run. [getLogs] is asked at most twice in a run; its answer may differ
    from call to call, so it is indexed by the number of earlier calls.
    [mountR2Storage] lives in [./r2], outside the sources: only its outcome
    is an input here. *)
Record Sandbox : Type := {
  mountR2Storage : result unit;
  listProcesses : result (list Process);
  kill : Process -> result unit;
  startProcess : string -> option (gmap string string) -> result Process;
  waitForPort : Process -> Z -> Z -> result unit;
  getLogs : Process -> nat -> result Logs
}.

(** Platform calls and console lines, in the order they happen. A console
    line keeps its message text; object arguments printed after it (an
    exception, a key list) are left out. *)
Inductive event : Type :=
| EvMount
| EvListProcesses
| EvKill (pid : string)
| EvSleep (ms : Z)
| EvStartProcess (cmd : string) (env : option (gmap string string))
| EvWaitForPort (pid : string) (port timeout : Z)
| EvGetLogs (pid : string)
| EvLog (msg : string)
| EvLogError (msg : string).

Definition log (msg : string) : Prog.t event unit := Prog.emit (EvLog msg).
Definition logError (msg : string) : Prog.t event unit := Prog.emit (EvLogError msg).

(** [isGatewayProcess] of the discovery loop. *)
Definition isGatewayProcess (proc : Process) : bool :=
  Str.includes (command proc) "start-moltbot.sh"
  || Str.includes (command proc) "clawdbot gateway".

(** [isCliCommand] of the discovery loop. *)
Definition isCliCommand (proc : Process) : bool :=
  Str.includes (command proc) "clawdbot devices"
  || Str.includes (command proc) "clawdbot --version".

(** The body of the [for] loop: [found.push(proc)] when the test holds. *)
Definition scan (found : list Process) (proc : Process) : list Process :=
  if isGatewayProcess proc && negb (isCliCommand proc)
  then found ++ [proc]
  else found.

(** [findExistingMoltbotProcesses(sandbox)] *)
Definition findExistingMoltbotProcesses (sandbox : Sandbox)
  : Prog.t event (list Process) :=
  Prog.try_catch
    (processes <- Prog.call EvListProcesses (listProcesses sandbox) ;;
     Prog.ret (fold_left scan processes []))
    (fun e => log "Could not list processes:" ;; Prog.ret []).

(** [findExistingMoltbotProcess(sandbox)], the legacy wrapper. *)
Definition findExistingMoltbotProcess (sandbox : Sandbox)
  : Prog.t event (option Process) :=
  processes <- findExistingMoltbotProcesses sandbox ;;
  Prog.ret (find (fun p => match status p with
                           | running | starting => true
                           | _ => false
                           end) processes).

(** The number of [getLogs] calls made so far. *)
Definition logCalls (tr : list event) : nat :=
  length (List.filter (fun ev => match ev with EvGetLogs _ => true | _ => false end) tr).

Definition callGetLogs (sandbox : Sandbox) (process : Process)
  : Prog.t event Logs :=
  fun tr => Prog.call (EvGetLogs (id process))
              (getLogs sandbox process (logCalls tr)) tr.

(** [logs.stderr || '(empty)'] *)
Definition stderrOrEmpty (logs : Logs) : string :=
  if String.eqb (stderr logs) EmptyString then "(empty)" else stderr logs.

(** One iteration of the clean-up loop. *)
Definition killOne (sandbox : Sandbox) (proc : Process) : Prog.t event unit :=
  log ("Killing process " +:+ id proc +:+ " (status: "
         +:+ statusName (status proc) +:+ ")...") ;;
  Prog.try_catch
    (Prog.call (EvKill (id proc)) (kill sandbox proc))
    (fun e => log ("Failed to kill process " +:+ id proc +:+ ":")).

(** The clean-up block: kill every process found, then sleep. *)
Definition cleanUp (sandbox : Sandbox) (existingProcesses : list Process)
  : Prog.t event unit :=
  if Nat.ltb 0 (length existingProcesses) then
    log ("Found " +:+ pretty (length existingProcesses)
           +:+ " existing Moltbot processes. Cleaning up...") ;;
    Prog.forEach existingProcesses (killOne sandbox) ;;
    Prog.emit (EvSleep 2000)
  else Prog.ret tt.

(** The [try]/[catch] around [sandbox.startProcess]. *)
Definition launch (sandbox : Sandbox) (command : string)
    (envVars : gmap string string) : Prog.t event Process :=
  Prog.try_catch
    (let env := if Nat.ltb 0 (size envVars) then Some envVars else None in
     process <- Prog.call (EvStartProcess command env)
                  (startProcess sandbox command env) ;;
     log ("Process started with id: " +:+ id process +:+ " status: "
            +:+ statusName (status process)) ;;
     Prog.ret process)
    (fun startErr => logError "Failed to start process:" ;; Prog.throw startErr).

(** The [try]/[catch] around [process.waitForPort]. *)
Definition awaitReady (cfg : Settings) (sandbox : Sandbox) (process : Process)
  : Prog.t event unit :=
  Prog.try_catch
    (log "[Gateway] Waiting for Moltbot gateway to be ready on port" ;;
     Prog.call (EvWaitForPort (id process) (MOLTBOT_PORT cfg) (STARTUP_TIMEOUT_MS cfg))
       (waitForPort sandbox process (MOLTBOT_PORT cfg) (STARTUP_TIMEOUT_MS cfg)) ;;
     log "[Gateway] Moltbot gateway is ready!" ;;
     logs <- callGetLogs sandbox process ;;
     Prog.when (negb (String.eqb (stdout logs) EmptyString))
       (log ("[Gateway] stdout: " +:+ stdout logs)) ;;
     Prog.when (negb (String.eqb (stderr logs) EmptyString))
       (log ("[Gateway] stderr: " +:+ stderr logs)))
    (fun e =>
       logError "[Gateway] waitForPort failed:" ;;
       Prog.try_catch
         (logs <- callGetLogs sandbox process ;;
          logError ("[Gateway] startup failed. Stderr: " +:+ stderr logs) ;;
          logError ("[Gateway] startup failed. Stdout: " +:+ stdout logs) ;;
          Prog.throw (Error ("Moltbot gateway failed to start. Stderr: "
                               +:+ stderrOrEmpty logs)))
         (fun logErr =>
            logError "[Gateway] Failed to get logs:" ;;
            Prog.throw e)).

(** [ensureMoltbotGateway(sandbox, env)] *)
Definition ensureMoltbotGateway (cfg : Settings) (sandbox : Sandbox)
    (env : MoltbotEnv) : Prog.t event Process :=
  Prog.call EvMount (mountR2Storage sandbox) ;;
  existingProcesses <- findExistingMoltbotProcesses sandbox ;;
  cleanUp sandbox existingProcesses ;;
  log "Starting new Moltbot gateway..." ;;
  let envVars := buildEnvVars env in
  let command := "/usr/local/bin/start-moltbot.sh" in
  log ("Starting process with command: " +:+ command) ;;
  log "Environment vars being passed:" ;;
  process <- launch sandbox command envVars ;;
  awaitReady cfg sandbox process ;;
  log "[Gateway] Verifying gateway health..." ;;
  Prog.ret process.

End Gateway.

(** ** The access middleware ([createAccessMiddleware]) *)
Module Access.
Import Env.
Local Open Scope prog_scope.

(** Response type of the middleware options. *)
Inductive ResponseType : Type := json | html.

Record AccessMiddlewareOptions : Type := {
  type : ResponseType;
  redirectOnMissing : bool
}.

Record AccessUser : Type := { email : string; name : string }.

(** What the middleware reads from the request: the [token] query
    parameter of [c.req.url], the [Cookie] header and the
    [CF-Access-JWT-Assertion] header. *)
Record Request : Type := {
  queryToken : option string;
  cookieHeader : option string;
  jwtHeader : option string
}.

(** The Hono context of one request, with the answers of the two
    collaborators: [verifyAccessJWT] of [./jwt] and the downstream [next]. *)
Record Context : Type := {
  env : MoltbotEnv;
  req : Request;
  verifyAccessJWT : string -> string -> string -> result AccessUser;
  next : result unit
}.

Inductive Response : Type :=
| JsonResponse (body : list (string * string)) (status : Z)
| HtmlResponse (body : string) (status : Z)
| RedirectResponse (location : string) (status : Z).

Inductive event : Type :=
| EvSetAccessUser (user : AccessUser)
| EvNext
| EvCompareToken (gatewayToken : string)
| EvVerifyJWT (jwt teamDomain expectedAud : string)
| EvLogError (msg : string).

(** [isDevMode(env)] *)
Definition isDevMode (env : MoltbotEnv) : bool :=
  match DEV_MODE env with
  | Some v => String.eqb v "true"
  | None => false
  end.

(** [isE2ETestMode(env)] *)
Definition isE2ETestMode (env : MoltbotEnv) : bool :=
  match E2E_TEST_MODE env with
  | Some v => String.eqb v "true"
  | None => false
  end.

(** [cookie.split('=')[1]] *)
Definition cookieValue (cookie : string) : option string :=
  nth_error (Str.split "=" cookie) 1.

(** The [jwtCookie] of [extractJWT]. *)
Definition jwtCookie (c : Context) : option string :=
  match cookieHeader (req c) with
  | Some header =>
      match find (fun cookie => Str.startsWith (Str.trim cookie) "CF_Authorization=")
                 (Str.split ";" header) with
      | Some cookie => cookieValue cookie
      | None => None
      end
  | None => None
  end.

(** [extractJWT(c)]: [jwtHeader || jwtCookie || null]. *)
Definition extractJWT (c : Context) : option string :=
  orS (orS (jwtHeader (req c)) (jwtCookie c)) None.

(** The [cookieToken] of the gateway-token check. *)
Definition cookieToken (c : Context) : option string :=
  match cookieHeader (req c) with
  | Some header =>
      match find (fun cookie => Str.startsWith cookie "moltbot-token=")
                 (map Str.trim (Str.split ";" header)) with
      | Some cookie => cookieValue cookie
      | None => None
      end
  | None => None
  end.

(** [v === token] for an optional [v]. *)
Definition strictEq (v : option string) (token : string) : bool :=
  match v with
  | Some s => String.eqb s token
  | None => false
  end.

Definition devUser : AccessUser := {| email := "dev@localhost"; name := "Dev User" |}.
Definition tokenAdmin : AccessUser := {| email := "admin@token"; name := "Token Admin" |}.

(** [return next()] and [await next()]. *)
Definition callNext (c : Context) : Prog.t event unit := Prog.call EvNext (next c).

(** [err instanceof Error ? err.message : 'JWT verification failed'] *)
Definition errorDetails (err : exn) : string :=
  match err with
  | Error m | TypeError m => m
  | Thrown _ => "JWT verification failed"
  end.

(** The answer when Cloudflare Access is not configured. White space
    between the tags of the HTML bodies is left out. *)
Definition notConfigured (options : AccessMiddlewareOptions) (gatewayToken : option string)
  : Response :=
  if truthyS gatewayToken then
    match type options with
    | json => JsonResponse [("error", "Unauthorized");
                            ("hint", "Provide ?token=... or configured Cloudflare Access")] 401
    | html => HtmlResponse
                ("<html><body><h1>Unauthorized</h1>"
                 +:+ "<p>Invalid or missing gateway token.</p>"
                 +:+ "<p>Please use the link with ?token=... provided in your deployment output.</p>"
                 +:+ "</body></html>") 401
    end
  else
    match type options with
    | json => JsonResponse [("error", "Cloudflare Access not configured");
                            ("hint", "Set CF_ACCESS_TEAM_DOMAIN and CF_ACCESS_AUD environment variables")] 500
    | html => HtmlResponse
                ("<html><body><h1>Admin UI Not Configured</h1>"
                 +:+ "<p>Set CF_ACCESS_TEAM_DOMAIN and CF_ACCESS_AUD environment variables.</p>"
                 +:+ "</body></html>") 500
    end.

(** The double-quote character of the HTML attributes. *)
Definition QUOTE : string := String (ascii_of_nat 34) EmptyString.

(** The answer when no JWT comes with the request. *)
Definition missingJWT (options : AccessMiddlewareOptions) (teamDomain : string) : Response :=
  match type options with
  | html =>
      if redirectOnMissing options
      then RedirectResponse ("https://" +:+ teamDomain) 302
      else HtmlResponse
             ("<html><body><h1>Unauthorized</h1>"
              +:+ "<p>Missing Cloudflare Access token.</p>"
              +:+ "<a href=" +:+ QUOTE +:+ "https://" +:+ teamDomain +:+ QUOTE +:+ ">Login</a>"
              +:+ "</body></html>") 401
  | json => JsonResponse
              [("error", "Unauthorized");
               ("hint", "Missing Cloudflare Access JWT. Ensure this route is protected by Cloudflare Access.")] 401
  end.

(** The answer when the JWT is refused. *)
Definition invalidJWT (options : AccessMiddlewareOptions) (teamDomain : string) (err : exn)
  : Response :=
  match type options with
  | json => JsonResponse [("error", "Unauthorized"); ("details", errorDetails err)] 401
  | html => HtmlResponse
              ("<html><body><h1>Unauthorized</h1>"
               +:+ "<p>Your Cloudflare Access session is invalid or expired.</p>"
               +:+ "<a href=" +:+ QUOTE +:+ "https://" +:+ teamDomain +:+ QUOTE +:+ ">Login again</a>"
               +:+ "</body></html>") 401
  end.

(** The Cloudflare Access part: configuration check, JWT extraction and
    verification. *)
Definition checkAccess (options : AccessMiddlewareOptions) (c : Context)
  : Prog.t event (option Response) :=
  let gatewayToken := MOLTBOT_GATEWAY_TOKEN (env c) in
  let teamDomain := CF_ACCESS_TEAM_DOMAIN (env c) in
  let expectedAud := CF_ACCESS_AUD (env c) in
  if negb (truthyS teamDomain) || negb (truthyS expectedAud) then
    Prog.ret (Some (notConfigured options gatewayToken))
  else
    let teamDomain := default EmptyString teamDomain in
    let expectedAud := default EmptyString expectedAud in
    let jwt := extractJWT c in
    if negb (truthyS jwt) then
      Prog.ret (Some (missingJWT options teamDomain))
    else
      let jwt := default EmptyString jwt in
      Prog.try_catch
        (payload <- Prog.call (EvVerifyJWT jwt teamDomain expectedAud)
                      (verifyAccessJWT c jwt teamDomain expectedAud) ;;
         Prog.emit (EvSetAccessUser payload) ;;
         callNext c ;;
         Prog.ret None)
        (fun err =>
           Prog.emit (EvLogError "Access JWT verification failed:") ;;
           Prog.ret (Some (invalidJWT options teamDomain err))).

(** Everything after the dev-mode shortcut: the gateway-token check, then
    Cloudflare Access. *)
Definition authenticate (options : AccessMiddlewareOptions) (c : Context)
  : Prog.t event (option Response) :=
  match MOLTBOT_GATEWAY_TOKEN (env c) with
  | Some gatewayToken =>
      if truthyS (Some gatewayToken) then
        Prog.emit (EvCompareToken gatewayToken) ;;
        if strictEq (queryToken (req c)) gatewayToken
           || strictEq (cookieToken c) gatewayToken
        then
          Prog.emit (EvSetAccessUser tokenAdmin) ;;
          callNext c ;;
          Prog.ret None
        else checkAccess options c
      else checkAccess options c
  | None => checkAccess options c
  end.

(** The middleware returned by [createAccessMiddleware(options)], run on one
    request. [None] is the [undefined] a handler returns after [next()]. *)
Definition createAccessMiddleware (options : AccessMiddlewareOptions) (c : Context)
  : Prog.t event (option Response) :=
  if isDevMode (env c) || isE2ETestMode (env c) then
    Prog.emit (EvSetAccessUser devUser) ;;
    callNext c ;;
    Prog.ret None
  else authenticate options c.

End Access.

(** ** [start-moltbot.sh]: the embedded node program that rewrites the
    configuration *)
Module Node.

#[local] Set Warnings "-register-all".

(** A value of the program: what [JSON.parse] yields, where an array may
    also carry the named properties the program puts on it. Numbers are
    integers here; the program only tests them for truthiness and writes
    integers. The property lists are in insertion order, one entry per key.
    [undefined] is the absence of a value. *)
Inductive value : Type :=
| VNull
| VBool (b : bool)
| VNum (n : Z)
| VStr (s : string)
| VArr (elems : list value) (props : list (string * value))
| VObj (props : list (string * value)).

Definition path : Type := list string.

Fixpoint lookupKey (k : string) (props : list (string * value)) : option value :=
  match props with
  | [] => None
  | (k', v) :: rest => if String.eqb k k' then Some v else lookupKey k rest
  end.

Fixpoint setKey (k : string) (x : value) (props : list (string * value))
  : list (string * value) :=
  match props with
  | [] => [(k, x)]
  | (k', v) :: rest =>
      if String.eqb k k' then (k, x) :: rest else (k', v) :: setKey k x rest
  end.

Fixpoint removeKey (k : string) (props : list (string * value))
  : list (string * value) :=
  match props with
  | [] => []
  | (k', v) :: rest =>
      if String.eqb k k' then removeKey k rest else (k', v) :: removeKey k rest
  end.

(** [v.k] for a [v] that is neither [null] nor [undefined], and a key [k]
    that is no array index and no inherited member (all keys of the program
    are such). A primitive has no such property. *)
Definition getOwn (v : value) (k : string) : option value :=
  match v with
  | VObj props | VArr _ props => lookupKey k props
  | _ => None
  end.

(** [v.k = x] in sloppy mode: a primitive silently keeps nothing. *)
Definition setOwn (v : value) (k : string) (x : value) : value :=
  match v with
  | VObj props => VObj (setKey k x props)
  | VArr elems props => VArr elems (setKey k x props)
  | _ => v
  end.

(** [delete v.k] *)
Definition deleteOwn (v : value) (k : string) : value :=
  match v with
  | VObj props => VObj (removeKey k props)
  | VArr elems props => VArr elems (removeKey k props)
  | _ => v
  end.

(** Truthiness of a possibly missing value. *)
Definition truthy (o : option value) : bool :=
  match o with
  | None | Some VNull | Some (VBool false) | Some (VNum 0) | Some (VStr EmptyString) => false
  | Some _ => true
  end.

(** [o || {}] *)
Definition orEmpty (o : option value) : value :=
  match o with
  | Some v => if truthy o then v else VObj []
  | None => VObj []
  end.

Definition cannotRead (base k : string) : exn :=
  TypeError ("Cannot read properties of " +:+ base +:+ " (reading '" +:+ k +:+ "')").

Definition cannotSet (base k : string) : exn :=
  TypeError ("Cannot set properties of " +:+ base +:+ " (setting '" +:+ k +:+ "')").

(** [v.k1.k2...kn]: reading through [null] or a missing value throws. *)
Fixpoint read (v : value) (p : path) : result (option value) :=
  match p with
  | [] => Ok (Some v)
  | k :: rest =>
      match v with
      | VNull => Throw (cannotRead "null" k)
      | _ =>
          match getOwn v k with
          | Some c => read c rest
          | None =>
              match rest with
              | [] => Ok None
              | k' :: _ => Throw (cannotRead "undefined" k')
              end
          end
      end
  end.

(** [v?.k1?.k2...?.kn] *)
Fixpoint readOpt (o : option value) (p : path) : option value :=
  match p with
  | [] => o
  | k :: rest =>
      match o with
      | None | Some VNull => None
      | Some v => readOpt (getOwn v k) rest
      end
  end.

(** [v.k1...kn = x]: the value of [v] afterwards. *)
Fixpoint assign (v : value) (p : path) (x : value) : result value :=
  match p with
  | [] => Ok x
  | k :: rest =>
      match v with
      | VNull =>
          Throw (match rest with [] => cannotSet "null" k | _ => cannotRead "null" k end)
      | _ =>
          match rest with
          | [] => Ok (setOwn v k x)
          | k' :: rest' =>
              match getOwn v k with
              | Some c =>
                  match assign c rest x with
                  | Ok c' => Ok (setOwn v k c')
                  | Throw e => Throw e
                  end
              | None =>
                  Throw (match rest' with
                         | [] => cannotSet "undefined" k'
                         | _ => cannotRead "undefined" k'
                         end)
              end
          end
      end
  end.

(** [delete v.k1...kn]: the value of [v] afterwards. *)
Fixpoint remove (v : value) (p : path) : result value :=
  match p with
  | [] => Ok v
  | k :: rest =>
      match v with
      | VNull =>
          Throw (match rest with
                 | [] => TypeError "Cannot convert undefined or null to object"
                 | _ => cannotRead "null" k
                 end)
      | _ =>
          match rest with
          | [] => Ok (deleteOwn v k)
          | k' :: rest' =>
              match getOwn v k with
              | Some c =>
                  match remove c rest with
                  | Ok c' => Ok (setOwn v k c')
                  | Throw e => Throw e
                  end
              | None =>
                  Throw (match rest' with
                         | [] => TypeError "Cannot convert undefined or null to object"
                         | _ => cannotRead "undefined" k'
                         end)
              end
          end
      end
  end.

(** What [JSON.stringify] keeps of a value: the named properties of arrays
    are not written. *)
Fixpoint toJSON (v : value) : value :=
  match v with
  | VArr elems _ => VArr (List.map toJSON elems) []
  | VObj props => VObj (List.map (fun kv => let '(k, x) := kv in (k, toJSON x)) props)
  | _ => v
  end.

(** Statements of the program: the variable [config] is the state; an
    uncaught exception ends the program. *)
Definition t (A : Type) : Type := value -> result (A * value).

Definition ret {A} (a : A) : t A := fun config => Ok (a, config).

Definition bind {A B} (m : t A) (k : A -> t B) : t B :=
  fun config =>
    match m config with
    | Ok (a, config') => k a config'
    | Throw e => Throw e
    end.

Definition lift {A} (r : result A) : t A :=
  fun config => match r with Ok a => Ok (a, config) | Throw e => Throw e end.

Definition when (b : bool) (m : t unit) : t unit := if b then m else ret tt.

Fixpoint forEach {A} (xs : list A) (body : A -> t unit) : t unit :=
  match xs with
  | [] => ret tt
  | x :: rest => bind (body x) (fun _ => forEach rest body)
  end.

(** [config.k1...kn] as an expression. *)
Definition rd (p : path) : t (option value) := fun config => lift (read config p) config.

(** [config.k1...kn = x;] *)
Definition wr (p : path) (x : value) : t unit :=
  fun config => match assign config p x with
                | Ok config' => Ok (tt, config')
                | Throw e => Throw e
                end.

(** [delete config.k1...kn;] *)
Definition del (p : path) : t unit :=
  fun config => match remove config p with
                | Ok config' => Ok (tt, config')
                | Throw e => Throw e
                end.

End Node.

Declare Scope node_scope.
Delimit Scope node_scope with node.
Notation "x <- m ;; k" := (Node.bind m (fun x => k))
  (at level 100, m at next level, right associativity) : node_scope.
Notation "m ;; k" := (Node.bind m (fun _ => k))
  (at level 100, right associativity) : node_scope.

Module Synth.
Import Node.
Local Open Scope node_scope.

(** The variables of [process.env] the program reads. *)
Record ProcessEnv : Type := {
  CLAWDBOT_GATEWAY_TOKEN : option string;
  CLAWDBOT_DEV_MODE : option string;
  TELEGRAM_BOT_TOKEN : option string;
  TELEGRAM_DM_POLICY : option string;
  TELEGRAM_DM_ALLOW_FROM : option string;
  DISCORD_BOT_TOKEN : option string;
  DISCORD_DM_POLICY : option string;
  SLACK_BOT_TOKEN : option string;
  SLACK_APP_TOKEN : option string;
  AI_GATEWAY_BASE_URL : option string;
  ANTHROPIC_BASE_URL : option string;
  CF_AI_GATEWAY_MODEL : option string;
  OPENAI_API_KEY : option string;
  ANTHROPIC_API_KEY : option string
}.

(** [config.k1...kn = config.k1...kn || {};] *)
Definition ensure (p : path) : Node.t unit :=
  o <- rd p ;; wr p (orEmpty o).

(** [config = JSON.parse(fs.readFileSync(configPath))], or [{}] when the
    file cannot be read or parsed ([None]). *)
Definition loadConfig (file : option value) : value :=
  match file with
  | Some parsed => parsed
  | None => VObj []
  end.

(** "Ensure nested objects exist". *)
Definition ensureNested : Node.t unit :=
  ensure ["agents"] ;;
  ensure ["agents"; "defaults"] ;;
  ensure ["agents"; "defaults"; "model"] ;;
  ensure ["gateway"] ;;
  ensure ["channels"].

(** [models.some(m => !m.name)] on the elements of an array: it stops at
    the first element without a truthy [name]; reading [name] off [null]
    throws. *)
Fixpoint someMissingName (elems : list value) : result bool :=
  match elems with
  | [] => Ok false
  | m :: rest =>
      match m with
      | VNull => Throw (cannotRead "null" "name")
      | _ => if truthy (getOwn m "name") then someMissingName rest else Ok true
      end
  end.

(** [models.some(m => !m.name)]: only an array has [some]. *)
Definition hasInvalidModels (models : value) : result bool :=
  match models with
  | VArr elems props =>
      match lookupKey "some" props with
      | None => someMissingName elems
      | Some _ => Throw (TypeError "config.models.providers.anthropic.models.some is not a function")
      end
  | _ => Throw (TypeError "config.models.providers.anthropic.models.some is not a function")
  end.

(** "Clean up any broken anthropic provider config from previous runs". *)
Definition purgeBrokenAnthropic : Node.t unit :=
  models <- rd ["models"] ;;
  match readOpt models ["providers"; "anthropic"; "models"] with
  | Some anthropicModels =>
      if truthy (Some anthropicModels) then
        hasInvalid <- lift (hasInvalidModels anthropicModels) ;;
        if hasInvalid : bool then del ["models"; "providers"; "anthropic"] else ret tt
      else ret tt
  | None => ret tt
  end.

(** "Gateway configuration", the gateway token and the dev-mode flag. *)
Definition gatewaySection (env : ProcessEnv) : Node.t unit :=
  wr ["gateway"; "port"] (VNum 18789) ;;
  wr ["gateway"; "mode"] (VStr "local") ;;
  wr ["gateway"; "trustedProxies"] (VArr [VStr "10.1.0.0"] []) ;;
  when (truthyS (CLAWDBOT_GATEWAY_TOKEN env))
    (ensure ["gateway"; "auth"] ;;
     wr ["gateway"; "auth"; "token"] (VStr (default EmptyString (CLAWDBOT_GATEWAY_TOKEN env)))) ;;
  when (match CLAWDBOT_DEV_MODE env with Some v => String.eqb v "true" | None => false end)
    (ensure ["gateway"; "controlUi"] ;;
     wr ["gateway"; "controlUi"; "allowInsecureAuth"] (VBool true)).

(** [process.env.X || 'pairing'] *)
Definition dmPolicy (v : option string) : string :=
  if truthyS v then default EmptyString v else "pairing".

(** "Telegram configuration". *)
Definition telegramSection (env : ProcessEnv) : Node.t unit :=
  when (truthyS (TELEGRAM_BOT_TOKEN env))
    (ensure ["channels"; "telegram"] ;;
     wr ["channels"; "telegram"; "botToken"]
        (VStr (default EmptyString (TELEGRAM_BOT_TOKEN env))) ;;
     wr ["channels"; "telegram"; "enabled"] (VBool true) ;;
     let telegramDmPolicy := dmPolicy (TELEGRAM_DM_POLICY env) in
     wr ["channels"; "telegram"; "dmPolicy"] (VStr telegramDmPolicy) ;;
     if truthyS (TELEGRAM_DM_ALLOW_FROM env) then
       wr ["channels"; "telegram"; "allowFrom"]
          (VArr (List.map VStr (Str.split "," (default EmptyString (TELEGRAM_DM_ALLOW_FROM env)))) [])
     else if String.eqb telegramDmPolicy "open" then
       wr ["channels"; "telegram"; "allowFrom"] (VArr [VStr "*"] [])
     else ret tt).

(** "Discord configuration". *)
Definition discordSection (env : ProcessEnv) : Node.t unit :=
  when (truthyS (DISCORD_BOT_TOKEN env))
    (ensure ["channels"; "discord"] ;;
     wr ["channels"; "discord"; "token"]
        (VStr (default EmptyString (DISCORD_BOT_TOKEN env))) ;;
     wr ["channels"; "discord"; "enabled"] (VBool true) ;;
     let discordDmPolicy := dmPolicy (DISCORD_DM_POLICY env) in
     ensure ["channels"; "discord"; "dm"] ;;
     wr ["channels"; "discord"; "dm"; "policy"] (VStr discordDmPolicy) ;;
     when (String.eqb discordDmPolicy "open")
       (wr ["channels"; "discord"; "dm"; "allowFrom"] (VArr [VStr "*"] []))).

(** "Slack configuration". *)
Definition slackSection (env : ProcessEnv) : Node.t unit :=
  when (truthyS (SLACK_BOT_TOKEN env) && truthyS (SLACK_APP_TOKEN env))
    (ensure ["channels"; "slack"] ;;
     wr ["channels"; "slack"; "botToken"]
        (VStr (default EmptyString (SLACK_BOT_TOKEN env))) ;;
     wr ["channels"; "slack"; "appToken"]
        (VStr (default EmptyString (SLACK_APP_TOKEN env))) ;;
     wr ["channels"; "slack"; "enabled"] (VBool true)).

(** [(process.env.AI_GATEWAY_BASE_URL || process.env.ANTHROPIC_BASE_URL || '')
     .replace(/\/+$/, '')] *)
Definition baseUrl (env : ProcessEnv) : string :=
  Str.stripTrailingSlashes
    (default EmptyString (orS (AI_GATEWAY_BASE_URL env) (ANTHROPIC_BASE_URL env))).

(** [process.env.CF_AI_GATEWAY_MODEL && process.env.CF_AI_GATEWAY_MODEL.startsWith(prefix)] *)
Definition modelStartsWith (env : ProcessEnv) (prefix : string) : bool :=
  match CF_AI_GATEWAY_MODEL env with
  | Some m => truthyS (Some m) && Str.startsWith m prefix
  | None => false
  end.

Definition isGoogle (env : ProcessEnv) : bool :=
  Str.endsWith (baseUrl env) "/google" || Str.includes (baseUrl env) "gemini"
  || modelStartsWith env "google/".

Definition isOpenAI (env : ProcessEnv) : bool :=
  Str.endsWith (baseUrl env) "/openai" || modelStartsWith env "openai/".

(** An entry of the model catalogs. *)
Record Model : Type := { id : string; name : string; contextWindow : Z }.

Definition anthropicModels : list Model :=
  [ {| id := "claude-sonnet-4-5-20250929"; name := "Claude Sonnet 4.5"; contextWindow := 200000 |};
    {| id := "claude-haiku-4-5-20251001"; name := "Claude Haiku 4.5"; contextWindow := 200000 |};
    {| id := "claude-3-5-sonnet-latest"; name := "Claude 3.5 Sonnet"; contextWindow := 200000 |};
    {| id := "claude-3-opus-latest"; name := "Claude 3 Opus"; contextWindow := 200000 |} ].

Definition openaiModels : list Model :=
  [ {| id := "gpt-5.2"; name := "GPT-5.2"; contextWindow := 200000 |};
    {| id := "gpt-5"; name := "GPT-5"; contextWindow := 200000 |};
    {| id := "gpt-4.5-preview"; name := "GPT-4.5 Preview"; contextWindow := 128000 |} ].

Definition googleModels : list Model :=
  [ {| id := "gemini-3-flash"; name := "Gemini 3 Flash"; contextWindow := 1000000 |};
    {| id := "gemini-3-pro-preview"; name := "Gemini 3 Pro"; contextWindow := 2000000 |};
    {| id := "gemini-2.0-flash"; name := "Gemini 2.0 Flash"; contextWindow := 1000000 |} ].

Definition modelValue (m : Model) : value :=
  VObj [("id", VStr (id m)); ("name", VStr (name m)); ("contextWindow", VNum (contextWindow m))].

(** [{ baseUrl: ..., api: ..., models: ... }] *)
Definition providerBlock (url api : string) (models : list Model) : value :=
  VObj [("baseUrl", VStr url); ("api", VStr api);
        ("models", VArr (List.map modelValue models) [])].

(** [{ alias: m.name }] *)
Definition aliasValue (m : Model) : value := VObj [("alias", VStr (name m))].

(** [config.agents.defaults.models[key] = { alias: m.name };] *)
Definition allow (key : string) (m : Model) : Node.t unit :=
  wr ["agents"; "defaults"; "models"; key] (aliasValue m).

(** "Set primary model from env or default". *)
Definition setPrimary (env : ProcessEnv) (fallback : string) : Node.t unit :=
  let envModel := CF_AI_GATEWAY_MODEL env in
  if truthyS envModel
  then wr ["agents"; "defaults"; "model"; "primary"] (VStr (default EmptyString envModel))
  else wr ["agents"; "defaults"; "model"; "primary"] (VStr fallback).

(** [baseUrl || fallback] *)
Definition urlOr (url fallback : string) : string :=
  if String.eqb url EmptyString then fallback else url.

(** The [if (isGoogle)] branch. *)
Definition googleBranch (env : ProcessEnv) : Node.t unit :=
  ensure ["models"] ;;
  ensure ["models"; "providers"] ;;
  (if Str.endsWith (baseUrl env) "/openai" then
     wr ["models"; "providers"; "openai"]
        (providerBlock (baseUrl env) "openai-responses" googleModels) ;;
     ensure ["agents"; "defaults"; "models"] ;;
     forEach googleModels (fun m =>
       allow ("google/" +:+ id m) m ;;
       allow ("openai/google/" +:+ id m) m)
   else
     wr ["models"; "providers"; "google"]
        (providerBlock (urlOr (baseUrl env) "https://generativelanguage.googleapis.com")
           "google-generative-ai" googleModels) ;;
     when (truthyS (OPENAI_API_KEY env))
       (wr ["models"; "providers"; "google"; "apiKey"]
           (VStr (default EmptyString (OPENAI_API_KEY env)))) ;;
     ensure ["agents"; "defaults"; "models"] ;;
     forEach googleModels (fun m => allow ("google/" +:+ id m) m)) ;;
  setPrimary env "google/gemini-3-flash".

(** The [else if (isOpenAI)] branch. *)
Definition openaiBranch (env : ProcessEnv) : Node.t unit :=
  ensure ["models"] ;;
  ensure ["models"; "providers"] ;;
  wr ["models"; "providers"; "openai"]
     (providerBlock (baseUrl env) "openai-responses" openaiModels) ;;
  ensure ["agents"; "defaults"; "models"] ;;
  forEach openaiModels (fun m => allow ("openai/" +:+ id m) m) ;;
  setPrimary env "openai/gpt-5.2".

(** The [providerConfig] object of the last branch. *)
Definition anthropicBlock (env : ProcessEnv) : value :=
  let providerConfig :=
    providerBlock (urlOr (baseUrl env) "https://api.anthropic.com")
      "anthropic-messages" anthropicModels in
  if truthyS (ANTHROPIC_API_KEY env)
  then setOwn providerConfig "apiKey" (VStr (default EmptyString (ANTHROPIC_API_KEY env)))
  else providerConfig.

(** The [else] branch. *)
Definition anthropicBranch (env : ProcessEnv) : Node.t unit :=
  ensure ["models"] ;;
  ensure ["models"; "providers"] ;;
  wr ["models"; "providers"; "anthropic"] (anthropicBlock env) ;;
  ensure ["agents"; "defaults"; "models"] ;;
  forEach anthropicModels (fun m => allow ("anthropic/" +:+ id m) m) ;;
  setPrimary env "anthropic/claude-sonnet-4-5-20250929".

(** The provider cascade. *)
Definition providerSection (env : ProcessEnv) : Node.t unit :=
  if isGoogle env then googleBranch env
  else if isOpenAI env then openaiBranch env
  else anthropicBranch env.

(** The statements between the load and the write, in order. *)
Definition updateConfig (env : ProcessEnv) : Node.t unit :=
  ensureNested ;;
  purgeBrokenAnthropic ;;
  gatewaySection env ;;
  telegramSection env ;;
  discordSection env ;;
  slackSection env ;;
  providerSection env.

(** The whole program: the document [fs.writeFileSync] writes, or the
    exception that ends the program before anything is written. *)
Definition synthesize (env : ProcessEnv) (file : option value) : result value :=
  match updateConfig env (loadConfig file) with
  | Ok (_, config) => Ok (toJSON config)
  | Throw e => Throw e
  end.

End Synth.

(** ** [start-moltbot.sh]: the restore decision and the crash supervisor *)
Module Script.

(** The two [.last-sync] files as the function sees them: the text
    [$(cat file)] yields when the file exists. *)
Record Manifests : Type := {
  R2_SYNC_FILE : option string;
  LOCAL_SYNC_FILE : option string
}.

Section Restore.
(** [date -d "$T" +%s]: the epoch seconds it prints, or nothing when it
    fails on [T]. *)
Variable date : string -> option Z.

(** [$(date -d "$T" +%s 2>/dev/null || echo "0")] *)
Definition epoch (t : string) : Z :=
  match date t with
  | Some seconds => seconds
  | None => 0
  end.

(** [should_restore_from_r2]: the exit status, 0 meaning "restore". *)
Definition should_restore_from_r2 (fs : Manifests) : Z :=
  match R2_SYNC_FILE fs with
  | None => 1
  | Some R2_TIME =>
      match LOCAL_SYNC_FILE fs with
      | None => 0
      | Some LOCAL_TIME =>
          let R2_EPOCH := epoch R2_TIME in
          let LOCAL_EPOCH := epoch LOCAL_TIME in
          if Z.gtb R2_EPOCH LOCAL_EPOCH then 0 else 1
      end
  end.

(** The branch [if should_restore_from_r2; then ...] takes. *)
Definition restores (fs : Manifests) : bool :=
  Z.eqb (should_restore_from_r2 fs) 0.
End Restore.

Definition CR : string := String (ascii_of_nat 13) EmptyString.
Definition LF : string := String (ascii_of_nat 10) EmptyString.

(** The lines of a text file as [tail] counts them: each one with the line
    feed that ends it; the last one has none when the file does not end
    with a line feed. *)
Fixpoint linesOf (content : string) : list string :=
  match content with
  | EmptyString => []
  | String c rest =>
      if Ascii.eqb c (ascii_of_nat 10) then String c EmptyString :: linesOf rest
      else match linesOf rest with
           | line :: later => String c line :: later
           | [] => [String c EmptyString]
           end
  end.

(** [tail -n 50 "$LOG_FILE"]: the file from the start of its 50th line
    from the end, or the whole file when it has fewer lines. *)
Definition tail50 (content : string) : string :=
  let lines := linesOf content in
  String.concat EmptyString (skipn (length lines - 50) lines).

(** What [echo -e "HTTP/1.1 200 OK\r\n...LOG ---\n"] writes: the text with
    its escapes replaced, and the line feed [echo] adds. *)
Definition banner (exit_code : Z) : string :=
  "HTTP/1.1 200 OK" +:+ CR +:+ LF
  +:+ "Content-Type: text/plain; charset=utf-8" +:+ CR +:+ LF +:+ CR +:+ LF
  +:+ "CRASH DETECTED (Exit code: " +:+ pretty exit_code +:+ ")" +:+ LF +:+ LF
  +:+ "--- LAST 50 LINES OF LOG ---" +:+ LF +:+ LF.

(** What one turn of the loop meets on the platform. *)
Record Turn : Type := {
  (** [echo -e ... > /tmp/response.txt] succeeds *)
  banner_written : bool;
  (** what [$LOG_FILE] holds when [tail] reads it; nothing when [tail]
      fails *)
  log_file : option string;
  (** the exit status of [cat /tmp/response.txt | nc -l -p 18789 -q 1],
      which is the one of [nc]: 0 once a connection was answered *)
  nc_status : Z
}.

(** [keep_alive_on_crash]: the [while true] loop over the turns the
    platform grants it. The script runs under [set -e] and the function is
    called after the last [||] of its list, so the first command of a turn
    that fails ends the script with that command's status; [echo] and
    [tail] fail with 1. The result is what the connections were answered
    with, and the status the script ended with, if it did. The lines the
    function echoes to the log are left out. *)
Fixpoint keep_alive_on_crash (exit_code : Z) (turns : list Turn)
  : list string * option Z :=
  match turns with
  | [] => ([], None)
  | turn :: later =>
      if banner_written turn then
        match log_file turn with
        | Some log =>
            let response := banner exit_code +:+ tail50 log in
            if Z.eqb (nc_status turn) 0 then
              let '(answers, ended) := keep_alive_on_crash exit_code later in
              (response :: answers, ended)
            else ([], Some (nc_status turn))
        | None => ([], Some 1%Z)
        end
      else ([], Some 1%Z)
  end.

(** The port of [clawdbot gateway --port 18789]. *)
Definition gatewayPort : Z := 18789.

(** The port of [nc -l -p 18789]. *)
Definition listenerPort : Z := 18789.

(** How the script goes on once the gateway command has returned: it ends,
    or it answers on a port from inside [keep_alive_on_crash], until a
    command of the loop fails, if one does. *)
Inductive Supervision : Type :=
| ScriptEnds (status : Z)
| Degraded (exit_code : Z) (port : Z) (answers : list string) (ended : option Z).

(** [clawdbot gateway ... || keep_alive_on_crash $?]: the right-hand side
    runs only when the gateway's exit status is not zero. *)
Definition supervise (gateway_status : Z) (turns : list Turn) : Supervision :=
  if Z.eqb gateway_status 0 then ScriptEnds 0
  else
    let '(answers, ended) := keep_alive_on_crash gateway_status turns in
    Degraded gateway_status listenerPort answers ended.

End Script.

(** ** [start-moltbot.sh]: the restore block and the initial configuration *)
Module Boot.
Import Script.

(** What the block tests and reads on the file system when the script
    starts. *)
Record Volume : Type := {
  (** [-f "$BACKUP_DIR/clawdbot/clawdbot.json"] *)
  nestedBackup : bool;
  (** [-f "$BACKUP_DIR/clawdbot.json"] *)
  legacyBackup : bool;
  (** [-d "$BACKUP_DIR/skills"] and [ls -A] lists something there *)
  skillsBackup : bool;
  (** [$BACKUP_DIR/.last-sync] and [$CONFIG_DIR/.last-sync] *)
  manifests : Manifests;
  (** [$BACKUP_DIR/clawdbot/.last-sync], which [cp -a] of the nested backup
      brings along when it is there *)
  nestedManifest : option string;
  (** [-f "$CONFIG_FILE"] *)
  configFile : bool;
  (** [-f "$TEMPLATE_FILE"] *)
  templateFile : bool
}.

(** The commands of the block that change the file system. The lines it
    echoes are left out. *)
Inductive Action : Type :=
| CopyConfig (source : string)
| CopyManifest
| CopySkills
| CopyTemplate
| WriteMinimalConfig.

Section RestoreBlocks.
Variable date : string -> option Z.

(** [cp -a "$BACKUP_DIR/clawdbot/." "$CONFIG_DIR/"]: the local manifest
    becomes the one of the nested backup, if that has one. *)
Definition bringNested (nested : option string) (fs : Manifests) : Manifests :=
  match nested with
  | Some t => {| R2_SYNC_FILE := R2_SYNC_FILE fs; LOCAL_SYNC_FILE := Some t |}
  | None => fs
  end.

(** [cp -f "$BACKUP_DIR/.last-sync" "$CONFIG_DIR/.last-sync" 2>/dev/null || true]:
    a failure of the copy is ignored. *)
Definition copyManifest (copied : bool) (fs : Manifests) : Manifests :=
  if copied
  then {| R2_SYNC_FILE := R2_SYNC_FILE fs; LOCAL_SYNC_FILE := R2_SYNC_FILE fs |}
  else fs.

(** [cp -a "$BACKUP_DIR/." "$CONFIG_DIR/"]: the whole backup directory,
    its manifest included, lands in the configuration directory. *)
Definition bringAll (fs : Manifests) : Manifests :=
  {| R2_SYNC_FILE := R2_SYNC_FILE fs; LOCAL_SYNC_FILE := R2_SYNC_FILE fs |}.

(** The [if]/[elif] chain on the backup formats, in a run whose [cp -a]
    succeeds (under [set -e] a failing one ends the script): the commands
    run, the manifests afterwards, and whether [$CONFIG_FILE] is there. *)
Definition restoreConfig (vol : Volume) (copied : bool)
  : list Action * Manifests * bool :=
  let fs := manifests vol in
  if nestedBackup vol then
    if Z.eqb (should_restore_from_r2 date fs) 0 then
      ([CopyConfig "/data/moltbot/clawdbot/."; CopyManifest],
       copyManifest copied (bringNested (nestedManifest vol) fs), true)
    else ([], fs, configFile vol)
  else if legacyBackup vol then
    if Z.eqb (should_restore_from_r2 date fs) 0 then
      ([CopyConfig "/data/moltbot/."; CopyManifest],
       copyManifest copied (bringAll fs), true)
    else ([], fs, configFile vol)
  else ([], fs, configFile vol).

(** "Restore skills from R2 backup if available (only if R2 is newer)". *)
Definition restoreSkills (vol : Volume) (fs : Manifests) : list Action :=
  if skillsBackup vol then
    if Z.eqb (should_restore_from_r2 date fs) 0 then [CopySkills] else []
  else [].

(** "If config file still doesn't exist, create from template". *)
Definition initConfig (vol : Volume) (configExists : bool) : list Action :=
  if negb configExists then
    if templateFile vol then [CopyTemplate] else [WriteMinimalConfig]
  else [].

(** The three blocks in the order of the script. *)
Definition prepare (vol : Volume) (copied : bool) : list Action :=
  let '(restored, fs, configExists) := restoreConfig vol copied in
  restored ++ restoreSkills vol fs ++ initConfig vol configExists.

End RestoreBlocks.
End Boot.

(* ===================================================================== *)
(** * Part II. Vocabulary of the statements, and sample inputs             *)
(* ===================================================================== *)

Module GatewaySpec.
Import Gateway.

(** The test of the discovery loop. *)
Definition isGateway (p : Process) : bool :=
  isGatewayProcess p && negb (isCliCommand p).

(** What discovery returns, as a function of the platform's answer. *)
Definition discovered (sandbox : Sandbox) : list Process :=
  match listProcesses sandbox with
  | Ok procs => List.filter isGateway procs
  | Throw _ => []
  end.

(** The trace discovery leaves. *)
Definition discoveryTrace (sandbox : Sandbox) : list event :=
  match listProcesses sandbox with
  | Ok _ => [EvListProcesses]
  | Throw _ => [EvListProcesses; EvLog "Could not list processes:"]
  end.

Definition sampleProcesses : list Process :=
  [ {| id := "p1"; command := "/usr/local/bin/start-moltbot.sh"; status := starting |};
    {| id := "p2"; command := "clawdbot devices list --json"; status := running |};
    {| id := "p3"; command := "clawdbot gateway --port 18789"; status := running |};
    {| id := "p4"; command := "clawdbot --version"; status := exited |};
    {| id := "p5"; command := "sh -c 'clawdbot gateway; clawdbot --version'"; status := running |};
    {| id := "p6"; command := "sleep 10"; status := running |} ].

Definition sampleSandbox : Sandbox :=
  {| mountR2Storage := Ok tt;
     listProcesses := Ok sampleProcesses;
     kill := fun p => if String.eqb (id p) "p3" then Throw (Error "busy") else Ok tt;
     startProcess := fun cmd _ => Ok {| id := "new"; command := cmd; status := starting |};
     waitForPort := fun _ _ _ => Ok tt;
     getLogs := fun _ _ => Ok {| stdout := "up"; stderr := EmptyString |} |}.

(** The process identifiers killed along a trace, in order. *)
Definition killsOf (tr : list event) : list string :=
  flat_map (fun ev => match ev with EvKill pid => [pid] | _ => [] end) tr.

(** The commands started along a trace, in order. *)
Definition startsOf (tr : list event) : list string :=
  flat_map (fun ev => match ev with EvStartProcess cmd _ => [cmd] | _ => [] end) tr.

(** The console line of a failed kill. *)
Definition killFailureLine (p : Process) : event :=
  EvLog ("Failed to kill process " +:+ id p +:+ ":").

(** The trace one iteration of the clean-up loop leaves. *)
Definition killOneTrace (sandbox : Sandbox) (p : Process) : list event :=
  [EvLog ("Killing process " +:+ id p +:+ " (status: "
            +:+ statusName (status p) +:+ ")...");
   EvKill (id p)]
  ++ match kill sandbox p with
     | Ok _ => []
     | Throw _ => [killFailureLine p]
     end.

(** The trace the clean-up block leaves. *)
Definition cleanUpTrace (sandbox : Sandbox) (ps : list Process) : list event :=
  match ps with
  | [] => []
  | _ => EvLog ("Found " +:+ pretty (length ps)
                  +:+ " existing Moltbot processes. Cleaning up...")
         :: flat_map (killOneTrace sandbox) ps ++ [EvSleep 2000]
  end.

Definition sampleSettings : Settings :=
  {| MOLTBOT_PORT := 18789; STARTUP_TIMEOUT_MS := 180000 |}.

(** A platform on which the gateway never opens its port, and whose logs
    can be read. *)
Definition stuckSandbox : Sandbox :=
  {| mountR2Storage := Ok tt;
     listProcesses := Ok [];
     kill := fun _ => Ok tt;
     startProcess := fun cmd _ => Ok {| id := "gw"; command := cmd; status := starting |};
     waitForPort := fun _ _ _ => Throw (Error "waitForPort timed out");
     getLogs := fun _ _ => Ok {| stdout := EmptyString; stderr := "EADDRINUSE" |} |}.

End GatewaySpec.

Module EnvSpec.
(** The value a truthy optional string contributes, and nothing otherwise. *)
Definition present (v : option string) : option string :=
  if truthyS v then v else None.

Definition sampleGatewayEnv : Env.MoltbotEnv :=
  {| Env.AI_GATEWAY_BASE_URL := Some "https://gateway.ai.cloudflare.com/v1/acc/gw/openai/";
     Env.AI_GATEWAY_API_KEY := Some "gw-key";
     Env.CLOUDFLARE_AI_GATEWAY_API_KEY := None; Env.CLOUDFLARE_AI_GATEWAY_ID := None;
     Env.CF_ACCOUNT_ID := None; Env.CF_AI_GATEWAY_MODEL := None;
     Env.ANTHROPIC_API_KEY := Some "direct-anthropic";
     Env.OPENAI_API_KEY := Some "direct-openai";
     Env.ANTHROPIC_BASE_URL := None; Env.MOLTBOT_GATEWAY_TOKEN := None;
     Env.DEV_MODE := None; Env.E2E_TEST_MODE := None; Env.CLAWDBOT_BIND_MODE := None;
     Env.TELEGRAM_BOT_TOKEN := None; Env.TELEGRAM_DM_POLICY := None;
     Env.DISCORD_BOT_TOKEN := None; Env.DISCORD_DM_POLICY := None;
     Env.SLACK_BOT_TOKEN := None; Env.SLACK_APP_TOKEN := None; Env.CDP_SECRET := None;
     Env.WORKER_URL := None; Env.CF_ACCESS_TEAM_DOMAIN := None; Env.CF_ACCESS_AUD := None |}.
End EnvSpec.

Module ScriptSpec.
Import Script.

(** A [date] that knows the two timestamps of the decision table. *)
Definition sampleDate (t : string) : option Z :=
  if String.eqb t "2024-01-02T00:00:00Z" then Some 1704153600%Z
  else if String.eqb t "2024-01-01T00:00:00Z" then Some 1704067200%Z
  else None.

(** A line of text: no line feed in it. *)
Fixpoint oneLine (s : string) : bool :=
  match s with
  | EmptyString => true
  | String c rest => negb (Ascii.eqb c (ascii_of_nat 10)) && oneLine rest
  end.

(** The file made of the given lines, each ended by a line feed. *)
Definition text (lines : list string) : string :=
  String.concat EmptyString (List.map (fun line => line +:+ LF) lines).

(** The diagnostic payload of the specification: the status line and the
    headers of an HTTP 200 response, the exit code, and the tail of the
    log. *)
Definition diagnostic (exit_code : string) (tail : string) : string :=
  "HTTP/1.1 200 OK" +:+ CR +:+ LF
  +:+ "Content-Type: text/plain; charset=utf-8" +:+ CR +:+ LF
  +:+ CR +:+ LF
  +:+ "CRASH DETECTED (Exit code: " +:+ exit_code +:+ ")" +:+ LF
  +:+ LF
  +:+ "--- LAST 50 LINES OF LOG ---" +:+ LF
  +:+ LF
  +:+ tail.

(** A turn in which the three commands of the loop succeed. *)
Definition healthy (turn : Turn) : bool :=
  banner_written turn
  && match log_file turn with Some _ => true | None => false end
  && Z.eqb (nc_status turn) 0.

(** The status of the first command that fails in a turn that is not
    healthy. *)
Definition failure (turn : Turn) : Z :=
  if banner_written turn
  then match log_file turn with Some _ => nc_status turn | None => 1%Z end
  else 1%Z.

(** The answer of a healthy turn. *)
Definition answer (exit_code : string) (turn : Turn) : string :=
  diagnostic exit_code (tail50 (default EmptyString (log_file turn))).

(** A log of 51 complete lines and an unfinished one. *)
Definition longLog : string :=
  text (List.map (fun n => "line " +:+ pretty (Z.of_nat n)) (seq 1 51)) +:+ "unfinished".

Definition servedTurn : Turn :=
  {| banner_written := true; log_file := Some longLog; nc_status := 0 |}.

(** A turn in which [nc] cannot listen. *)
Definition portTaken : Turn :=
  {| banner_written := true; log_file := Some longLog; nc_status := 1 |}.
End ScriptSpec.

Module AccessSpec.
Import Env Access.

(** The request is let through: [next] is called. *)
Definition granted (tr : list event) : Prop := In EvNext tr.

(** A credential was examined: the gateway token was compared or a JWT was
    submitted for verification. *)
Definition examined (tr : list event) : Prop :=
  exists ev, In ev tr /\
    match ev with
    | EvCompareToken _ | EvVerifyJWT _ _ _ => True
    | _ => False
    end.

Definition withModes (dev e2e : option string) : MoltbotEnv :=
  {| AI_GATEWAY_BASE_URL := None; AI_GATEWAY_API_KEY := None;
     CLOUDFLARE_AI_GATEWAY_API_KEY := None; CLOUDFLARE_AI_GATEWAY_ID := None;
     CF_ACCOUNT_ID := None; CF_AI_GATEWAY_MODEL := None;
     ANTHROPIC_API_KEY := None; OPENAI_API_KEY := None;
     ANTHROPIC_BASE_URL := None; MOLTBOT_GATEWAY_TOKEN := Some "secret";
     DEV_MODE := dev; E2E_TEST_MODE := e2e; CLAWDBOT_BIND_MODE := None;
     TELEGRAM_BOT_TOKEN := None; TELEGRAM_DM_POLICY := None;
     DISCORD_BOT_TOKEN := None; DISCORD_DM_POLICY := None;
     SLACK_BOT_TOKEN := None; SLACK_APP_TOKEN := None; CDP_SECRET := None;
     WORKER_URL := None; CF_ACCESS_TEAM_DOMAIN := Some "team.example";
     CF_ACCESS_AUD := Some "aud" |}.

(** An anonymous request: no token, no cookie, no JWT. *)
Definition anonymous (dev e2e : option string) : Context :=
  {| env := withModes dev e2e;
     req := {| queryToken := None; cookieHeader := None; jwtHeader := None |};
     verifyAccessJWT := fun _ _ _ => Throw (Error "invalid");
     next := Ok tt |}.

Definition jsonOptions : AccessMiddlewareOptions :=
  {| type := json; redirectOnMissing := false |}.
End AccessSpec.

Module SynthSpec.
Import Node Synth.

(** The value found at a path, if the path exists. *)
Fixpoint nav (v : value) (p : path) : option value :=
  match p with
  | [] => Some v
  | k :: rest =>
      match getOwn v k with
      | Some c => nav c rest
      | None => None
      end
  end.

Definition isObj (v : value) : bool :=
  match v with
  | VObj _ => true
  | _ => false
  end.

(** The path exists and every value on it, the root and the end included,
    is a plain object. *)
Fixpoint objs (v : value) (p : path) {struct p} : bool :=
  match v with
  | VObj props =>
      match p with
      | [] => true
      | k :: rest =>
          match lookupKey k props with
          | Some c => objs c rest
          | None => false
          end
      end
  | _ => false
  end.

(** The same for all values strictly before the end of a non-empty path. *)
Fixpoint objsTo (v : value) (p : path) {struct p} : bool :=
  match p with
  | [] => false
  | k :: rest =>
      match v with
      | VObj props =>
          match rest with
          | [] => true
          | _ :: _ =>
              match lookupKey k props with
              | Some c => objsTo c rest
              | None => false
              end
          end
      | _ => false
      end
  end.

(** [p] is a prefix of [q]. *)
Fixpoint is_prefix (p q : path) : bool :=
  match p, q with
  | [], _ => true
  | a :: p', b :: q' => String.eqb a b && is_prefix p' q'
  | _ :: _, [] => false
  end.

(** [p] and [q] part ways at some key. *)
Fixpoint diverge (p q : path) : bool :=
  match p, q with
  | a :: p', b :: q' => if String.eqb a b then diverge p' q' else true
  | _, _ => false
  end.

(** What the program can turn into an object with [x = x || {}], or
    already finds as one: a missing value, a falsy one, or a plain object. *)
Definition slot_ok (v : value) (p : path) : bool :=
  match nav v p with
  | Some x => negb (truthy (Some x)) || isObj x
  | None => true
  end.

(** The containers the program descends into. *)
Definition slots : list path :=
  [ ["agents"]; ["agents"; "defaults"]; ["agents"; "defaults"; "model"];
    ["agents"; "defaults"; "models"];
    ["gateway"]; ["gateway"; "auth"]; ["gateway"; "controlUi"];
    ["channels"]; ["channels"; "telegram"]; ["channels"; "discord"];
    ["channels"; "discord"; "dm"]; ["channels"; "slack"];
    ["models"]; ["models"; "providers"] ].

Definition nonNull (v : value) : bool :=
  match v with
  | VNull => false
  | _ => true
  end.

(** The [models] of a persisted anthropic block can be scanned: missing,
    falsy, or an array (with no property named [some]) without [null]
    entries. *)
Definition scannable (v : value) : bool :=
  match nav v ["models"; "providers"; "anthropic"; "models"] with
  | Some ms =>
      negb (truthy (Some ms))
      || match ms with
         | VArr elems props =>
             match lookupKey "some" props with
             | None => forallb nonNull elems
             | Some _ => false
             end
         | _ => false
         end
  | None => true
  end.

(** Every container the program descends into is missing, falsy or a plain
    object. *)
Definition shaped (v : value) : bool := forallb (slot_ok v) slots.

(** A configuration document of the expected shape: the root is an object,
    every container the program descends into is missing, falsy or a plain
    object, and the models of a persisted anthropic block can be scanned. *)
Definition wellShaped (config : value) : bool :=
  isObj config && shaped config && scannable config.

(** No assignment of the program other than [x = x || {}] lands on a
    container or above one. *)
Definition clearOfSlots (q : path) : bool :=
  forallb (fun s => negb (is_prefix q s)) slots.

(** Along the path, whatever is found before the end is a plain object or
    a primitive: no array stands in the way, so that what [JSON.stringify]
    writes has the same values along it. *)
Fixpoint plainTo (v : value) (q : path) : bool :=
  match q with
  | [] => true
  | k :: rest =>
      match v with
      | VObj props =>
          match lookupKey k props with
          | Some c => plainTo c rest
          | None => true
          end
      | VArr _ _ => false
      | _ => true
      end
  end.

(** The containers strictly above the end of [q], read from [v] below the
    path [above], are missing, falsy or objects. *)
Fixpoint alongOk (v : value) (above q : path) : bool :=
  match q with
  | [] => true
  | k :: rest =>
      match rest with
      | [] => true
      | _ :: _ => slot_ok v (above ++ [k]) && alongOk v (above ++ [k]) rest
      end
  end.

(** [scannable] as a property of the anthropic block. *)
Definition scanBlock (b : option value) : bool :=
  match b with
  | Some x =>
      match getOwn x "models" with
      | Some ms =>
          negb (truthy (Some ms))
          || match ms with
             | VArr elems props =>
                 match lookupKey "some" props with
                 | None => forallb nonNull elems
                 | Some _ => false
                 end
             | _ => false
             end
      | None => true
      end
  | None => true
  end.

Inductive Provider : Type := anthropic | openai | google.

Definition providerKey (K : Provider) : string :=
  match K with
  | anthropic => "anthropic"
  | openai => "openai"
  | google => "google"
  end.

Definition providerEqb (K K' : Provider) : bool :=
  match K, K' with
  | anthropic, anthropic | openai, openai | google, google => true
  | _, _ => false
  end.

(** The provider block of a document. *)
Definition block (doc : value) (K : Provider) : option value :=
  nav doc ["models"; "providers"; providerKey K].

(** A provider block is populated when the document holds an object there. *)
Definition populated (doc : value) (K : Provider) : bool :=
  match block doc K with
  | Some x => isObj x
  | None => false
  end.

(** The block the provider cascade writes, by the tests of the cascade. *)
Definition selected (env : ProcessEnv) : Provider :=
  if isGoogle env then
    if Str.endsWith (baseUrl env) "/openai" then openai else google
  else if isOpenAI env then openai
  else anthropic.

(** The block the cascade builds for its target. *)
Definition newBlock (env : ProcessEnv) : value :=
  if isGoogle env then
    if Str.endsWith (baseUrl env) "/openai" then
      providerBlock (baseUrl env) "openai-responses" googleModels
    else
      let b := providerBlock (urlOr (baseUrl env) "https://generativelanguage.googleapis.com")
                 "google-generative-ai" googleModels in
      if truthyS (OPENAI_API_KEY env)
      then setOwn b "apiKey" (VStr (default EmptyString (OPENAI_API_KEY env)))
      else b
  else if isOpenAI env then providerBlock (baseUrl env) "openai-responses" openaiModels
  else anthropicBlock env.

(** The fallback of "Set primary model from env or default" in the branch
    the cascade takes. *)
Definition defaultPrimary (env : ProcessEnv) : string :=
  if isGoogle env then "google/gemini-3-flash"
  else if isOpenAI env then "openai/gpt-5.2"
  else "anthropic/claude-sonnet-4-5-20250929".

(** The primary model the cascade sets. *)
Definition primaryModel (env : ProcessEnv) : string :=
  if truthyS (CF_AI_GATEWAY_MODEL env)
  then default EmptyString (CF_AI_GATEWAY_MODEL env)
  else defaultPrimary env.

(** The allowlist keys the cascade registers, each with its model. *)
Definition aliases (env : ProcessEnv) : list (string * Model) :=
  if isGoogle env then
    if Str.endsWith (baseUrl env) "/openai" then
      flat_map (fun m => [("google/" +:+ id m, m); ("openai/google/" +:+ id m, m)])
        googleModels
    else List.map (fun m => ("google/" +:+ id m, m)) googleModels
  else if isOpenAI env then List.map (fun m => ("openai/" +:+ id m, m)) openaiModels
  else List.map (fun m => ("anthropic/" +:+ id m, m)) anthropicModels.

(** The persisted anthropic block has a model entry without a truthy name. *)
Definition brokenAnthropic (config : value) : bool :=
  match nav config ["models"; "providers"; "anthropic"; "models"] with
  | Some ms =>
      truthy (Some ms)
      && match hasInvalidModels ms with
         | Ok b => b
         | Throw _ => false
         end
  | None => false
  end.

(** What is left of the persisted block [K] once the clean-up has run. *)
Definition kept (config : value) (K : Provider) : option value :=
  match K with
  | anthropic => if brokenAnthropic config then None else block config K
  | _ => block config K
  end.

(** Between [v] and [v'] nothing has changed outside the region below the
    path [Q]: paths that part ways with [Q] lead to the same values, and the
    object paths not passing through [Q] are still object paths. *)
Definition framed (Q : path) (v v' : value) : Prop :=
  (forall r, diverge r Q = true -> nav v' r = nav v r)
  /\ (forall r, objs v r = true -> is_prefix Q r = false -> objs v' r = true).

(** The allowlist entry of a document under a key. *)
Definition allowed (doc : value) (key : string) : option value :=
  nav doc ["agents"; "defaults"; "models"; key].

(** The primary model of a document. *)
Definition primary (doc : value) : option value :=
  nav doc ["agents"; "defaults"; "model"; "primary"].

(** The state in which the sections after the clean-up find the
    configuration: the containers made by "ensure nested objects exist" are
    objects, the others can still be made. *)
Definition ready (v : value) : bool :=
  forallb (objs v)
    [ []; ["agents"; "defaults"; "model"]; ["gateway"]; ["channels"] ]
  && forallb (slot_ok v)
       [ ["agents"; "defaults"; "models"];
         ["gateway"; "auth"]; ["gateway"; "controlUi"];
         ["channels"; "telegram"]; ["channels"; "discord"];
         ["channels"; "discord"; "dm"]; ["channels"; "slack"];
         ["models"]; ["models"; "providers"] ].

(** The sections of the program after the clean-up. *)
Definition afterCleanUp (env : ProcessEnv) : Node.t unit :=
  Node.bind (gatewaySection env) (fun _ =>
  Node.bind (telegramSection env) (fun _ =>
  Node.bind (discordSection env) (fun _ =>
  Node.bind (slackSection env) (fun _ =>
  providerSection env)))).

(** The number of populated blocks among the three providers. *)
Definition populatedCount (doc : value) : nat :=
  length (List.filter (populated doc) [anthropic; openai; google]).

(** A block persisted from an earlier run is populated. *)
Definition keptPopulated (config : value) (K : Provider) : bool :=
  match kept config K with
  | Some x => isObj x
  | None => false
  end.

(** [process.env] without any of the variables. *)
Definition emptyEnv : ProcessEnv :=
  {| CLAWDBOT_GATEWAY_TOKEN := None; CLAWDBOT_DEV_MODE := None;
     TELEGRAM_BOT_TOKEN := None; TELEGRAM_DM_POLICY := None;
     TELEGRAM_DM_ALLOW_FROM := None; DISCORD_BOT_TOKEN := None;
     DISCORD_DM_POLICY := None; SLACK_BOT_TOKEN := None; SLACK_APP_TOKEN := None;
     AI_GATEWAY_BASE_URL := None; ANTHROPIC_BASE_URL := None;
     CF_AI_GATEWAY_MODEL := None; OPENAI_API_KEY := None; ANTHROPIC_API_KEY := None |}.

(** A gateway URL of the OpenAI shape, with or without a model. *)
Definition gatewayEnv (model : option string) : ProcessEnv :=
  {| CLAWDBOT_GATEWAY_TOKEN := Some "token"; CLAWDBOT_DEV_MODE := None;
     TELEGRAM_BOT_TOKEN := Some "tg"; TELEGRAM_DM_POLICY := Some "open";
     TELEGRAM_DM_ALLOW_FROM := None; DISCORD_BOT_TOKEN := None;
     DISCORD_DM_POLICY := None; SLACK_BOT_TOKEN := None; SLACK_APP_TOKEN := None;
     AI_GATEWAY_BASE_URL := Some "https://gateway.ai.cloudflare.com/v1/acc/gw/openai/";
     ANTHROPIC_BASE_URL := None;
     CF_AI_GATEWAY_MODEL := model; OPENAI_API_KEY := Some "key"; ANTHROPIC_API_KEY := None |}.

(** The minimal configuration the script creates when there is none. *)
Definition skeleton : value :=
  VObj [("agents", VObj [("defaults", VObj [("workspace", VStr "/root/clawd")])]);
        ("gateway", VObj [("port", VNum 18789); ("mode", VStr "local")])].

(** A configuration restored from a backup written by a run that had
    selected OpenAI. *)
Definition restoredConfig : value :=
  VObj [("agents", VObj [("defaults", VObj [("workspace", VStr "/root/clawd")])]);
        ("gateway", VObj [("port", VNum 18789); ("mode", VStr "local")]);
        ("models", VObj [("providers", VObj
           [("openai", providerBlock "https://gateway.ai.cloudflare.com/v1/acc/gw/openai"
                         "openai-responses" openaiModels)])])].

(** A provider block of an older version: its model entry has no [name]. *)
Definition oldBlock : value :=
  VObj [("baseUrl", VStr "https://example.invalid");
        ("models", VArr [VObj [("id", VStr "some-model")]] [])].

(** A configuration whose three provider blocks are all of that kind. *)
Definition brokenConfig : value :=
  VObj [("models", VObj [("providers", VObj
           [("anthropic", oldBlock); ("openai", oldBlock); ("google", oldBlock)])])].

End SynthSpec.

(** ** The orchestrator: outcome, trace and launch environment *)

Module GatewayCover.
Import Env Gateway GatewaySpec.

(** The answer of [ensureMoltbotGateway] as a function of the platform's
    answers: the first failure among the storage mount, the start, the wait
    for the port and the first reading of the logs; else the process the
    start returned. *)
Definition outcome (cfg : Settings) (sandbox : Sandbox) (env : MoltbotEnv)
  : result Process :=
  match mountR2Storage sandbox with
  | Throw e => Throw e
  | Ok _ =>
      let envVars := buildEnvVars env in
      match startProcess sandbox "/usr/local/bin/start-moltbot.sh"
              (if Nat.ltb 0 (size envVars) then Some envVars else None) with
      | Throw e => Throw e
      | Ok process =>
          match waitForPort sandbox process (MOLTBOT_PORT cfg) (STARTUP_TIMEOUT_MS cfg) with
          | Throw e => Throw e
          | Ok _ =>
              match getLogs sandbox process 0 with
              | Throw e => Throw e
              | Ok _ => Ok process
              end
          end
      end
  end.

(** The status test of the legacy wrapper. *)
Definition isActive (p : Process) : bool :=
  match status p with
  | running | starting => true
  | _ => false
  end.

(** The readiness events of a trace: waits for a port and log readings. *)
Definition readinessOf (tr : list event) : list event :=
  List.filter (fun ev => match ev with
                         | EvWaitForPort _ _ _ | EvGetLogs _ => true
                         | _ => false
                         end) tr.

(** The console lines and platform calls of the readiness wait on the
    process [p], when no log has been read before. *)
Definition failureTrace (sandbox : Sandbox) (p : Process) (n : nat) : list event :=
  [EvLogError "[Gateway] waitForPort failed:"; EvGetLogs (id p)]
  ++ match getLogs sandbox p n with
     | Ok logs =>
         [EvLogError ("[Gateway] startup failed. Stderr: " +:+ stderr logs);
          EvLogError ("[Gateway] startup failed. Stdout: " +:+ stdout logs);
          EvLogError "[Gateway] Failed to get logs:"]
     | Throw _ => [EvLogError "[Gateway] Failed to get logs:"]
     end.

Definition readinessTrace (cfg : Settings) (sandbox : Sandbox) (p : Process)
  : list event :=
  [EvLog "[Gateway] Waiting for Moltbot gateway to be ready on port";
   EvWaitForPort (id p) (MOLTBOT_PORT cfg) (STARTUP_TIMEOUT_MS cfg)]
  ++ match waitForPort sandbox p (MOLTBOT_PORT cfg) (STARTUP_TIMEOUT_MS cfg) with
     | Ok _ =>
         [EvLog "[Gateway] Moltbot gateway is ready!"; EvGetLogs (id p)]
         ++ match getLogs sandbox p 0 with
            | Ok logs =>
                (if String.eqb (stdout logs) EmptyString then []
                 else [EvLog ("[Gateway] stdout: " +:+ stdout logs)])
                ++ (if String.eqb (stderr logs) EmptyString then []
                    else [EvLog ("[Gateway] stderr: " +:+ stderr logs)])
            | Throw _ => failureTrace sandbox p 1
            end
     | Throw _ => failureTrace sandbox p 0
     end.

(** The environment [startProcess] is given. *)
Definition launchEnv (env : MoltbotEnv) : option (gmap string string) :=
  if Nat.ltb 0 (size (buildEnvVars env)) then Some (buildEnvVars env) else None.

(** The trace of a run of [ensureMoltbotGateway], as a function of the
    platform's answers. *)
Definition ensureTrace (cfg : Settings) (sandbox : Sandbox) (env : MoltbotEnv)
  : list event :=
  EvMount
  :: match mountR2Storage sandbox with
     | Throw _ => []
     | Ok _ =>
         discoveryTrace sandbox
         ++ cleanUpTrace sandbox (discovered sandbox)
         ++ [EvLog "Starting new Moltbot gateway...";
             EvLog "Starting process with command: /usr/local/bin/start-moltbot.sh";
             EvLog "Environment vars being passed:";
             EvStartProcess "/usr/local/bin/start-moltbot.sh" (launchEnv env)]
         ++ match startProcess sandbox "/usr/local/bin/start-moltbot.sh" (launchEnv env) with
            | Throw _ => [EvLogError "Failed to start process:"]
            | Ok process =>
                EvLog ("Process started with id: " +:+ id process +:+ " status: "
                         +:+ statusName (status process))
                :: readinessTrace cfg sandbox process
                ++ match waitForPort sandbox process (MOLTBOT_PORT cfg)
                           (STARTUP_TIMEOUT_MS cfg),
                         getLogs sandbox process 0 with
                   | Ok _, Ok _ => [EvLog "[Gateway] Verifying gateway health..."]
                   | _, _ => []
                   end
            end
     end.

(** A platform that cannot list its processes and refuses every start. *)
Definition brokenSandbox : Sandbox :=
  {| mountR2Storage := Ok tt;
     listProcesses := Throw (Error "listProcesses failed");
     kill := fun _ => Ok tt;
     startProcess := fun _ _ => Throw (Error "no capacity");
     waitForPort := fun _ _ _ => Ok tt;
     getLogs := fun _ _ => Ok {| stdout := EmptyString; stderr := EmptyString |} |}.

(** A platform whose storage cannot be mounted. *)
Definition unmountedSandbox : Sandbox :=
  {| mountR2Storage := Throw (Error "mount failed");
     listProcesses := Ok sampleProcesses;
     kill := fun _ => Ok tt;
     startProcess := fun cmd _ => Ok {| id := "new"; command := cmd; status := starting |};
     waitForPort := fun _ _ _ => Ok tt;
     getLogs := fun _ _ => Ok {| stdout := EmptyString; stderr := EmptyString |} |}.

End GatewayCover.

(** ** The reconciler: the names it forwards *)

Module EnvCover.
Import Env.

(** The names under which [buildEnvVars] can set a variable. *)
Definition forwarded : list string :=
  [ "OPENAI_API_KEY"; "ANTHROPIC_API_KEY";
    "AI_GATEWAY_BASE_URL"; "OPENAI_BASE_URL"; "ANTHROPIC_BASE_URL";
    "CLAWDBOT_GATEWAY_TOKEN"; "CLAWDBOT_DEV_MODE"; "CLAWDBOT_BIND_MODE";
    "TELEGRAM_BOT_TOKEN"; "TELEGRAM_DM_POLICY";
    "DISCORD_BOT_TOKEN"; "DISCORD_DM_POLICY";
    "SLACK_BOT_TOKEN"; "SLACK_APP_TOKEN";
    "CDP_SECRET"; "WORKER_URL"; "CF_ACCOUNT_ID"; "CF_AI_GATEWAY_MODEL" ].

(** Every variable of the map has a forwarded name and a non-empty value. *)
Definition clean (envVars : gmap string string) : Prop :=
  forall name value, envVars !! name = Some value ->
    In name forwarded /\ value <> EmptyString.

(** An environment with Cloudflare Access configured and test mode on. *)
Definition accessEnv : MoltbotEnv :=
  {| AI_GATEWAY_BASE_URL := Some "///"; AI_GATEWAY_API_KEY := Some EmptyString;
     CLOUDFLARE_AI_GATEWAY_API_KEY := Some "cf-key"; CLOUDFLARE_AI_GATEWAY_ID := None;
     CF_ACCOUNT_ID := Some "acc"; CF_AI_GATEWAY_MODEL := None;
     ANTHROPIC_API_KEY := None; OPENAI_API_KEY := Some EmptyString;
     ANTHROPIC_BASE_URL := Some "https://proxy.example/"; MOLTBOT_GATEWAY_TOKEN := Some "secret";
     DEV_MODE := Some "true"; E2E_TEST_MODE := Some "true"; CLAWDBOT_BIND_MODE := None;
     TELEGRAM_BOT_TOKEN := None; TELEGRAM_DM_POLICY := None;
     DISCORD_BOT_TOKEN := None; DISCORD_DM_POLICY := None;
     SLACK_BOT_TOKEN := None; SLACK_APP_TOKEN := None; CDP_SECRET := None;
     WORKER_URL := None; CF_ACCESS_TEAM_DOMAIN := Some "team.example";
     CF_ACCESS_AUD := Some "aud" |}.

(** An environment that names a gateway by its identifiers only. *)
Definition gatewayById (model : option string) : MoltbotEnv :=
  {| AI_GATEWAY_BASE_URL := None; AI_GATEWAY_API_KEY := None;
     CLOUDFLARE_AI_GATEWAY_API_KEY := Some "cf-key"; CLOUDFLARE_AI_GATEWAY_ID := Some "gw";
     CF_ACCOUNT_ID := Some "acc"; CF_AI_GATEWAY_MODEL := model;
     ANTHROPIC_API_KEY := None; OPENAI_API_KEY := None;
     ANTHROPIC_BASE_URL := None; MOLTBOT_GATEWAY_TOKEN := None;
     DEV_MODE := None; E2E_TEST_MODE := None; CLAWDBOT_BIND_MODE := None;
     TELEGRAM_BOT_TOKEN := None; TELEGRAM_DM_POLICY := None;
     DISCORD_BOT_TOKEN := None; DISCORD_DM_POLICY := None;
     SLACK_BOT_TOKEN := None; SLACK_APP_TOKEN := None; CDP_SECRET := None;
     WORKER_URL := None; CF_ACCESS_TEAM_DOMAIN := None; CF_ACCESS_AUD := None |}.

End EnvCover.

(** ** The access middleware: its decision table *)

Module AccessCover.
Import Env Access AccessSpec.

(** The dev-mode shortcut is open. *)
Definition shortcut (c : Context) : bool :=
  isDevMode (env c) || isE2ETestMode (env c).

(** A gateway token is configured and the request carries it, as the
    [token] query parameter or as the [moltbot-token] cookie. *)
Definition tokenMatches (c : Context) : bool :=
  match MOLTBOT_GATEWAY_TOKEN (env c) with
  | Some gatewayToken =>
      truthyS (Some gatewayToken)
      && (strictEq (queryToken (req c)) gatewayToken
          || strictEq (cookieToken c) gatewayToken)
  | None => false
  end.

(** Cloudflare Access is configured: team domain and audience are set. *)
Definition accessConfigured (c : Context) : bool :=
  truthyS (CF_ACCESS_TEAM_DOMAIN (env c)) && truthyS (CF_ACCESS_AUD (env c)).

(** The team domain and the audience the JWT is verified against. *)
Definition teamDomainOf (c : Context) : string :=
  default EmptyString (CF_ACCESS_TEAM_DOMAIN (env c)).

Definition audienceOf (c : Context) : string :=
  default EmptyString (CF_ACCESS_AUD (env c)).

(** The JWT of the request, when it carries a non-empty one. *)
Definition presentedJWT (c : Context) : option string :=
  match extractJWT c with
  | Some jwt => if truthyS (Some jwt) then Some jwt else None
  | None => None
  end.

(** The answer of [verifyAccessJWT] on the JWT of the request. *)
Definition verdict (c : Context) : option (result AccessUser) :=
  match presentedJWT c with
  | Some jwt => Some (verifyAccessJWT c jwt (teamDomainOf c) (audienceOf c))
  | None => None
  end.

(** The JWT of the request is accepted by [verifyAccessJWT]. *)
Definition jwtAccepted (c : Context) : option AccessUser :=
  match verdict c with
  | Some (Ok user) => Some user
  | _ => None
  end.

(** The comparison of the gateway token, made whenever one is configured. *)
Definition comparison (c : Context) : list event :=
  match MOLTBOT_GATEWAY_TOKEN (env c) with
  | Some gatewayToken =>
      if truthyS (Some gatewayToken) then [EvCompareToken gatewayToken] else []
  | None => []
  end.

(** What a handler that ends with [return next()] answers. *)
Definition downstream (c : Context) : result (option Response) :=
  match next c with
  | Ok _ => Ok None
  | Throw e => Throw e
  end.

(** The decision table of the middleware: answer and trace for each case
    of the request. *)
Definition decision (options : AccessMiddlewareOptions) (c : Context)
  : result (option Response) * list event :=
  if shortcut c then (downstream c, [EvSetAccessUser devUser; EvNext])
  else if tokenMatches c then
    (downstream c, comparison c ++ [EvSetAccessUser tokenAdmin; EvNext])
  else if negb (accessConfigured c) then
    (Ok (Some (notConfigured options (MOLTBOT_GATEWAY_TOKEN (env c)))), comparison c)
  else
    match presentedJWT c with
    | None => (Ok (Some (missingJWT options (teamDomainOf c))), comparison c)
    | Some jwt =>
        match verifyAccessJWT c jwt (teamDomainOf c) (audienceOf c) with
        | Throw err =>
            (Ok (Some (invalidJWT options (teamDomainOf c) err)),
             comparison c
             ++ [EvVerifyJWT jwt (teamDomainOf c) (audienceOf c);
                 EvLogError "Access JWT verification failed:"])
        | Ok user =>
            match next c with
            | Ok _ =>
                (Ok None,
                 comparison c
                 ++ [EvVerifyJWT jwt (teamDomainOf c) (audienceOf c);
                     EvSetAccessUser user; EvNext])
            | Throw err =>
                (Ok (Some (invalidJWT options (teamDomainOf c) err)),
                 comparison c
                 ++ [EvVerifyJWT jwt (teamDomainOf c) (audienceOf c);
                     EvSetAccessUser user; EvNext;
                     EvLogError "Access JWT verification failed:"])
            end
        end
    end.

Definition statusOf (r : Response) : Z :=
  match r with
  | JsonResponse _ status | HtmlResponse _ status | RedirectResponse _ status => status
  end.

(** The number of calls of [next] in a trace. *)
Definition nextCalls (tr : list event) : nat :=
  length (List.filter (fun ev => match ev with EvNext => true | _ => false end) tr).

(** Every call of [next] comes right after the access user was set. *)
Fixpoint userSetBeforeNext (tr : list event) : bool :=
  match tr with
  | [] => true
  | EvNext :: _ => false
  | EvSetAccessUser _ :: EvNext :: rest => userSetBeforeNext rest
  | _ :: rest => userSetBeforeNext rest
  end.

(** The token comparisons and JWT verifications of a trace. *)
Definition verifications (tr : list event) : list event :=
  List.filter (fun ev => match ev with EvVerifyJWT _ _ _ => true | _ => false end) tr.

(** A request under a configured gateway token and configured Cloudflare
    Access. *)
Definition request (query cookie jwt : option string)
    (verify : string -> string -> string -> result AccessUser) (downstream : result unit)
  : Context :=
  {| env := withModes None None;
     req := {| queryToken := query; cookieHeader := cookie; jwtHeader := jwt |};
     verifyAccessJWT := verify;
     next := downstream |}.

Definition alice : AccessUser := {| email := "alice@example.com"; name := "Alice" |}.

Definition htmlRedirect : AccessMiddlewareOptions :=
  {| type := html; redirectOnMissing := true |}.

End AccessCover.

(** ** The [Cookie] header *)

Module CookieCover.
Import Env Access.

(** The character occurs in the string. *)
Fixpoint hasChar (ch : ascii) (s : string) : bool :=
  match s with
  | EmptyString => false
  | String c r => Ascii.eqb c ch || hasChar ch r
  end.

(** No white space in the string. *)
Fixpoint spaceless (s : string) : bool :=
  match s with
  | EmptyString => true
  | String c r => negb (Str.isSpace c) && spaceless r
  end.

(** A cookie name or value as it stands in a [Cookie] header: without
    [;], [=] and white space. *)
Definition plain (s : string) : bool :=
  negb (hasChar ";" s) && negb (hasChar "=" s) && spaceless s.

(** One cookie of the header. *)
Definition pair (cookie : string * string) : string :=
  fst cookie +:+ "=" +:+ snd cookie.

(** The [Cookie] header a browser sends for its cookies. *)
Definition cookieLine (cookies : list (string * string)) : string :=
  String.concat "; " (map pair cookies).

(** The value of the first cookie of a name. *)
Fixpoint cookieNamed (name : string) (cookies : list (string * string)) : option string :=
  match cookies with
  | [] => None
  | (n, v) :: rest => if String.eqb n name then Some v else cookieNamed name rest
  end.

Definition wellFormed (cookies : list (string * string)) : bool :=
  forallb (fun cookie => plain (fst cookie) && plain (snd cookie)) cookies.

End CookieCover.

(** ** The restore block *)

Module BootCover.
Import Script ScriptSpec Boot.

(** A configuration was copied from the backup. *)
Definition isCopyConfig (a : Action) : bool :=
  match a with
  | CopyConfig _ => true
  | _ => false
  end.

(** The skills were copied from the backup. *)
Definition isCopySkills (a : Action) : bool :=
  match a with
  | CopySkills => true
  | _ => false
  end.

(** A configuration file was created because there was none. *)
Definition isInit (a : Action) : bool :=
  match a with
  | CopyTemplate | WriteMinimalConfig => true
  | _ => false
  end.

(** A volume with a backup in both formats and with skills, newer than the
    local data. *)
Definition fullVolume : Volume :=
  {| nestedBackup := true; legacyBackup := true; skillsBackup := true;
     manifests := {| R2_SYNC_FILE := Some "2024-01-02T00:00:00Z";
                     LOCAL_SYNC_FILE := Some "2024-01-01T00:00:00Z" |};
     nestedManifest := None; configFile := true; templateFile := true |}.

End BootCover.

(** ** The node program: what a run leaves alone *)

Module SynthCover.
Import Node Synth SynthSpec.

(** A statement that leaves the value at the path [r] as it is, whenever it
    runs to its end. *)
Definition leaves {A : Type} (r : path) (m : Node.t A) : Prop :=
  forall v a v', m v = Ok (a, v') -> nav v' r = nav v r.

(** [process.env.CLAWDBOT_DEV_MODE === 'true'] *)
Definition devMode (env : ProcessEnv) : bool :=
  match CLAWDBOT_DEV_MODE env with
  | Some v => String.eqb v "true"
  | None => false
  end.

(** The keys of [agents.defaults] the program works on. *)
Definition managedDefaults : list string := ["model"; "models"].

(** A configuration as an earlier run with a gateway token, dev mode and
    the three channels has written it. *)
Definition earlierConfig : value :=
  VObj [("agents", VObj [("defaults", VObj
           [("workspace", VStr "/root/clawd");
            ("models", VObj [("openai/gpt-5.2", VObj [("alias", VStr "GPT-5.2")])])])]);
        ("gateway", VObj [("port", VNum 18789); ("mode", VStr "local");
                          ("auth", VObj [("token", VStr "old-token")]);
                          ("controlUi", VObj [("allowInsecureAuth", VBool true)])]);
        ("channels", VObj
           [("telegram", VObj [("botToken", VStr "tg"); ("enabled", VBool true);
                               ("dmPolicy", VStr "open");
                               ("allowFrom", VArr [VStr "*"] [])]);
            ("discord", VObj [("token", VStr "dc"); ("enabled", VBool true)]);
            ("slack", VObj [("botToken", VStr "xoxb"); ("appToken", VStr "xapp");
                            ("enabled", VBool true)])])].

(** An environment with the gateway token, dev mode and the three chat
    channels. *)
Definition channelsEnv : ProcessEnv :=
  {| CLAWDBOT_GATEWAY_TOKEN := Some "secret"; CLAWDBOT_DEV_MODE := Some "true";
     TELEGRAM_BOT_TOKEN := Some "tg-new"; TELEGRAM_DM_POLICY := None;
     TELEGRAM_DM_ALLOW_FROM := Some "11,22"; DISCORD_BOT_TOKEN := Some "dc-new";
     DISCORD_DM_POLICY := Some "open"; SLACK_BOT_TOKEN := Some "xoxb-new";
     SLACK_APP_TOKEN := Some "xapp-new";
     AI_GATEWAY_BASE_URL := None; ANTHROPIC_BASE_URL := None;
     CF_AI_GATEWAY_MODEL := None; OPENAI_API_KEY := None;
     ANTHROPIC_API_KEY := Some "sk-ant" |}.

(** The top-level keys of the configuration the program works on. *)
Definition managedRoots : list string := ["agents"; "gateway"; "channels"; "models"].

End SynthCover.

(** ** The node program: the kinds of root *)

Module RootCover.
Import Node Synth SynthSpec.

(** A parsed document that is neither an object nor an array. *)
Definition primitive (v : value) : bool :=
  match v with
  | VObj _ | VArr _ _ => false
  | _ => true
  end.

(** The outcome of a statement on an object, seen on the array with the
    elements [elems] that carries the properties of the object. *)
Definition onArray {A : Type} (elems : list value) (r : result (A * value))
  : result (A * value) :=
  match r with
  | Ok (a, VObj props) => Ok (a, VArr elems props)
  | other => other
  end.

(** A statement that treats an array root as it treats an object root with
    the same properties, and leaves an object root an object. *)
Definition rootBlind {A : Type} (elems : list value) (m : Node.t A) : Prop :=
  forall props,
    m (VArr elems props) = onArray elems (m (VObj props))
    /\ (forall a v', m (VObj props) = Ok (a, v') -> isObj v' = true).

End RootCover.

(** ** The reconciler: the gateway key and URL of the specification *)

Module ReconcilerSpec.
Import Env.

(** A binding that is set and is not the empty string. *)
Definition nonEmpty (v : option string) : option string :=
  match v with
  | Some (String _ _) => v
  | _ => None
  end.

(** The gateway-scoped API key of the specification: [AI_GATEWAY_API_KEY]
    when it is set and not empty, else [CLOUDFLARE_AI_GATEWAY_API_KEY] when
    it is. *)
Definition scopedKey (env : MoltbotEnv) : option string :=
  match nonEmpty (AI_GATEWAY_API_KEY env) with
  | Some key => Some key
  | None => nonEmpty (CLOUDFLARE_AI_GATEWAY_API_KEY env)
  end.

(** The model names a Google model. *)
Definition googleModel (env : MoltbotEnv) : bool :=
  match CF_AI_GATEWAY_MODEL env with
  | Some model => Str.startsWith model "google/" || Str.includes model "gemini"
  | None => false
  end.

(** The gateway URL before normalization: [AI_GATEWAY_BASE_URL] when it is
    set and not empty, else the URL of the gateway named by the account and
    gateway identifiers when both are set and not empty. *)
Definition gatewayUrl (env : MoltbotEnv) : option string :=
  match nonEmpty (AI_GATEWAY_BASE_URL env) with
  | Some url => Some url
  | None =>
      match nonEmpty (CLOUDFLARE_AI_GATEWAY_ID env), nonEmpty (CF_ACCOUNT_ID env) with
      | Some gateway, Some account =>
          Some ("https://gateway.ai.cloudflare.com/v1/" +:+ account +:+ "/" +:+ gateway
                  +:+ "/" +:+ (if googleModel env then "openai" else "anthropic"))
      | _, _ => None
      end
  end.

(** The normalized base URL: the gateway URL without its trailing slashes,
    when something is left of it. *)
Definition normalizedUrl (env : MoltbotEnv) : option string :=
  match gatewayUrl env with
  | Some url => nonEmpty (Some (Str.stripTrailingSlashes url))
  | None => None
  end.

(** The normalized base URL ends with [/openai]. *)
Definition openaiShaped (env : MoltbotEnv) : bool :=
  match normalizedUrl env with
  | Some url => Str.endsWith url "/openai"
  | None => false
  end.

End ReconcilerSpec.

(** ** The node program: the blocks and the scan of the specification *)

Module Expected.
Import Node Synth SynthSpec ReconcilerSpec.

(** The normalized base URL of the decision table: [AI_GATEWAY_BASE_URL]
    when it is set and not empty, else [ANTHROPIC_BASE_URL] when it is set,
    else the empty string; without its trailing slashes. *)
Definition url (env : ProcessEnv) : string :=
  Str.stripTrailingSlashes
    match nonEmpty (AI_GATEWAY_BASE_URL env) with
    | Some u => u
    | None =>
        match ANTHROPIC_BASE_URL env with
        | Some u => u
        | None => EmptyString
        end
    end.

(** The configured model, the empty string when there is none. *)
Definition model (env : ProcessEnv) : string :=
  match CF_AI_GATEWAY_MODEL env with
  | Some m => m
  | None => EmptyString
  end.

(** Something points to Google: the URL ends with [/google] or contains
    [gemini], or the model starts with [google/]. *)
Definition googleHint (env : ProcessEnv) : bool :=
  Str.endsWith (url env) "/google" || Str.includes (url env) "gemini"
  || Str.startsWith (model env) "google/".

(** Something points to OpenAI: the URL ends with [/openai], or the model
    starts with [openai/]. *)
Definition openaiHint (env : ProcessEnv) : bool :=
  Str.endsWith (url env) "/openai" || Str.startsWith (model env) "openai/".

(** The provider whose block a run writes. *)
Definition target (env : ProcessEnv) : Provider :=
  if googleHint env then
    if Str.endsWith (url env) "/openai" then openai else google
  else if openaiHint env then openai
  else anthropic.

(** An entry of a model catalog as it is written. *)
Definition entry (id name : string) (contextWindow : Z) : value :=
  VObj [("id", VStr id); ("name", VStr name); ("contextWindow", VNum contextWindow)].

Definition anthropicCatalog : value :=
  VArr [ entry "claude-sonnet-4-5-20250929" "Claude Sonnet 4.5" 200000;
         entry "claude-haiku-4-5-20251001" "Claude Haiku 4.5" 200000;
         entry "claude-3-5-sonnet-latest" "Claude 3.5 Sonnet" 200000;
         entry "claude-3-opus-latest" "Claude 3 Opus" 200000 ] [].

Definition openaiCatalog : value :=
  VArr [ entry "gpt-5.2" "GPT-5.2" 200000;
         entry "gpt-5" "GPT-5" 200000;
         entry "gpt-4.5-preview" "GPT-4.5 Preview" 128000 ] [].

Definition googleCatalog : value :=
  VArr [ entry "gemini-3-flash" "Gemini 3 Flash" 1000000;
         entry "gemini-3-pro-preview" "Gemini 3 Pro" 2000000;
         entry "gemini-2.0-flash" "Gemini 2.0 Flash" 1000000 ] [].

(** The identifiers and display names of the three catalogs. *)
Definition anthropicNames : list (string * string) :=
  [ ("claude-sonnet-4-5-20250929", "Claude Sonnet 4.5");
    ("claude-haiku-4-5-20251001", "Claude Haiku 4.5");
    ("claude-3-5-sonnet-latest", "Claude 3.5 Sonnet");
    ("claude-3-opus-latest", "Claude 3 Opus") ].

Definition openaiNames : list (string * string) :=
  [ ("gpt-5.2", "GPT-5.2"); ("gpt-5", "GPT-5"); ("gpt-4.5-preview", "GPT-4.5 Preview") ].

Definition googleNames : list (string * string) :=
  [ ("gemini-3-flash", "Gemini 3 Flash"); ("gemini-3-pro-preview", "Gemini 3 Pro");
    ("gemini-2.0-flash", "Gemini 2.0 Flash") ].

(** The [apiKey] field of a block, present when the key is set and not
    empty. *)
Definition keyField (key : option string) : list (string * value) :=
  match nonEmpty key with
  | Some k => [("apiKey", VStr k)]
  | None => []
  end.

(** A URL, or the default of the provider when there is none. *)
Definition orDefault (u fallback : string) : string :=
  match u with
  | EmptyString => fallback
  | _ => u
  end.

(** The block a run writes for the provider it selects. *)
Definition freshBlock (env : ProcessEnv) : value :=
  match target env with
  | openai =>
      VObj [("baseUrl", VStr (url env)); ("api", VStr "openai-responses");
            ("models", if googleHint env then googleCatalog else openaiCatalog)]
  | google =>
      VObj ([("baseUrl", VStr (orDefault (url env) "https://generativelanguage.googleapis.com"));
             ("api", VStr "google-generative-ai"); ("models", googleCatalog)]
            ++ keyField (OPENAI_API_KEY env))
  | anthropic =>
      VObj ([("baseUrl", VStr (orDefault (url env) "https://api.anthropic.com"));
             ("api", VStr "anthropic-messages"); ("models", anthropicCatalog)]
            ++ keyField (ANTHROPIC_API_KEY env))
  end.

(** A model entry without a truthy [name]. *)
Definition lacksName (entry : value) : bool := negb (truthy (getOwn entry "name")).

(** The clean-up deletes the persisted anthropic block: its [models] is an
    array with an entry that has no truthy [name]. *)
Definition purged (config : value) : bool :=
  match nav config ["models"; "providers"; "anthropic"; "models"] with
  | Some (VArr entries _) => existsb lacksName entries
  | _ => false
  end.

(** The block [K] is deleted by the clean-up: only the anthropic one can
    be. *)
Definition cleaned (config : value) (K : Provider) : bool :=
  match K with
  | anthropic => purged config
  | _ => false
  end.

(** What the scan of the persisted anthropic block comes to. *)
Inductive Scan : Type :=
| Clean
| Broken
| Crash (e : exn).

(** The scan of the specification: nothing to scan when the [models] of
    the anthropic block is missing or falsy; a [models] that is no array (or
    an array with a property [some] of its own) cannot be scanned; else the
    first entry without a truthy [name] decides, and [null] is such an entry,
    whose [name] cannot be read. *)
Definition scan (config : value) : Scan :=
  match nav config ["models"; "providers"; "anthropic"; "models"] with
  | None => Clean
  | Some models =>
      if truthy (Some models) then
        match models with
        | VArr entries props =>
            match lookupKey "some" props with
            | Some _ =>
                Crash (TypeError
                         "config.models.providers.anthropic.models.some is not a function")
            | None =>
                match List.find lacksName entries with
                | None => Clean
                | Some VNull =>
                    Crash (TypeError "Cannot read properties of null (reading 'name')")
                | Some _ => Broken
                end
            end
        | _ =>
            Crash (TypeError
                     "config.models.providers.anthropic.models.some is not a function")
        end
      else Clean
  end.

(** The test of the clean-up as the program evaluates it on a state: whether
    the anthropic block is to be deleted, or the exception of the scan. *)
Definition cleanUpTest (v : value) : result bool :=
  match nav v ["models"; "providers"; "anthropic"; "models"] with
  | Some models => if truthy (Some models) then hasInvalidModels models else Ok false
  | None => Ok false
  end.

(** A configuration in which [models.providers] is an array, and one in
    which [agents.defaults.model] is a string. *)
Definition arrayProviders : value :=
  VObj [("models", VObj [("providers", VArr [] [])])].

Definition stringModel : value :=
  VObj [("agents", VObj [("defaults", VObj [("model", VStr "anthropic/claude-opus-4-5")])])].

(** A configuration whose anthropic block has a [null] model entry. *)
Definition nullEntry : value :=
  VObj [("models", VObj [("providers", VObj
           [("anthropic", VObj [("models", VArr [VNull] [])])])])].

End Expected.

(** ** The node program: the policy of a channel *)

Module ChannelSpec.


End ChannelSpec.

(* ===================================================================== *)
(** * Part III. Theorems                                                   *)
(* ===================================================================== *)

(** ** String primitives on sample inputs *)

Example startsWith_ex : Str.startsWith "google/gemini-3-flash" "google/" = true.
Proof. reflexivity. Qed.

Example strip_ex : Str.stripTrailingSlashes "https://x/openai///" = "https://x/openai".
Proof. reflexivity. Qed.

Example strip_ex2 : Str.stripTrailingSlashes "/a//b/" = "/a//b".
Proof. reflexivity. Qed.

Example split_ex : Str.split "," "1,2,,3" = ["1"; "2"; EmptyString; "3"].
Proof. reflexivity. Qed.

Example ends_ex : Str.endsWith "https://x/openai" "/openai" = true.
Proof. reflexivity. Qed.

Example incl_ex : Str.includes "/bin/sh -c clawdbot gateway --port 1" "clawdbot gateway" = true.
Proof. reflexivity. Qed.

Example trim_ex : Str.trim "  a b  " = "a b".
Proof. reflexivity. Qed.

(** ** Process discovery *)
Section Discovery.
Import Gateway GatewaySpec.

Lemma scan_fold (procs found : list Process) :
  fold_left scan procs found = found ++ List.filter isGateway procs.
Proof.
  revert found. induction procs as [|p procs IH]; intros found; simpl.
  - now rewrite app_nil_r.
  - rewrite IH. unfold scan, isGateway.
    destruct (isGatewayProcess p && negb (isCliCommand p)); simpl.
    + now rewrite <- app_assoc.
    + reflexivity.
Qed.

Lemma findExisting_run (sandbox : Sandbox) (tr : list event) :
  findExistingMoltbotProcesses sandbox tr
  = (Ok (discovered sandbox), tr ++ discoveryTrace sandbox).
Proof.
  unfold findExistingMoltbotProcesses, discovered, discoveryTrace,
    Prog.try_catch, Prog.bind, Prog.call, Prog.ret, log, Prog.emit.
  destruct (listProcesses sandbox) as [procs|e]; simpl.
  - now rewrite scan_fold.
  - now rewrite <- app_assoc.
Qed.

(** C9. For every process list the platform returns, discovery returns
    exactly the processes of that list (in order) whose command carries the
    launch-script or gateway-CLI signature and no CLI-only signature; so a
    process whose command carries the device-listing or version-query
    signature is never returned, even when it also names the gateway
    binary. *)
Theorem discovery_exact (sandbox : Sandbox) (procs : list Process) :
  listProcesses sandbox = Ok procs ->
  exists found,
    fst (Prog.run (findExistingMoltbotProcesses sandbox)) = Ok found
    /\ found = List.filter isGateway procs
    /\ (forall p, In p found <->
          In p procs
          /\ (Str.includes (command p) "start-moltbot.sh"
              || Str.includes (command p) "clawdbot gateway") = true
          /\ Str.includes (command p) "clawdbot devices" = false
          /\ Str.includes (command p) "clawdbot --version" = false).
Proof.
  intros Hlist. exists (List.filter isGateway procs).
  unfold Prog.run. rewrite findExisting_run. unfold discovered.
  rewrite Hlist. split; [reflexivity|]. split; [reflexivity|].
  intros p. rewrite filter_In. unfold isGateway, isGatewayProcess, isCliCommand.
  rewrite andb_true_iff, negb_true_iff, orb_false_iff. tauto.
Qed.

Lemma discovery_exact_witness :
  exists found,
    fst (Prog.run (findExistingMoltbotProcesses sampleSandbox)) = Ok found
    /\ found = List.filter isGateway sampleProcesses
    /\ (forall p, In p found <->
          In p sampleProcesses
          /\ (Str.includes (command p) "start-moltbot.sh"
              || Str.includes (command p) "clawdbot gateway") = true
          /\ Str.includes (command p) "clawdbot devices" = false
          /\ Str.includes (command p) "clawdbot --version" = false).
Proof. apply (discovery_exact sampleSandbox sampleProcesses). reflexivity. Defined.

Example discovery_sample :
  map id (discovered sampleSandbox) = ["p1"; "p3"].
Proof. reflexivity. Qed.

End Discovery.

(** ** Reconciliation and launch *)
Section Reconciliation.
Import Env Gateway GatewaySpec.

Lemma killsOf_app (a b : list event) : killsOf (a ++ b) = killsOf a ++ killsOf b.
Proof. unfold killsOf. apply flat_map_app. Qed.

Lemma startsOf_app (a b : list event) : startsOf (a ++ b) = startsOf a ++ startsOf b.
Proof. unfold startsOf. apply flat_map_app. Qed.

Lemma killOne_run (sandbox : Sandbox) (p : Process) (tr : list event) :
  killOne sandbox p tr = (Ok tt, tr ++ killOneTrace sandbox p).
Proof.
  unfold killOne, killOneTrace, killFailureLine, log, Prog.try_catch, Prog.bind,
    Prog.call, Prog.emit.
  destruct (kill sandbox p) as [[]|e]; simpl; now rewrite <- ?app_assoc.
Qed.

Lemma forEach_kill (sandbox : Sandbox) (ps : list Process) (tr : list event) :
  Prog.forEach ps (killOne sandbox) tr
  = (Ok tt, tr ++ flat_map (killOneTrace sandbox) ps).
Proof.
  revert tr. induction ps as [|p ps IH]; intros tr; simpl.
  - unfold Prog.ret. now rewrite app_nil_r.
  - unfold Prog.bind. rewrite killOne_run, IH. now rewrite <- app_assoc.
Qed.

Lemma cleanUp_run (sandbox : Sandbox) (ps : list Process) (tr : list event) :
  cleanUp sandbox ps tr = (Ok tt, tr ++ cleanUpTrace sandbox ps).
Proof.
  unfold cleanUp, cleanUpTrace. destruct ps as [|p ps].
  - simpl. unfold Prog.ret. now rewrite app_nil_r.
  - change (Nat.ltb 0 (length (p :: ps))) with true. cbv iota.
    unfold log, Prog.bind, Prog.emit. rewrite forEach_kill.
    now rewrite <- !app_assoc.
Qed.

Lemma kills_of_killOneTrace (sandbox : Sandbox) (p : Process) :
  killsOf (killOneTrace sandbox p) = [id p].
Proof. unfold killOneTrace. now destruct (kill sandbox p). Qed.

Lemma kills_of_loop (sandbox : Sandbox) (ps : list Process) :
  killsOf (flat_map (killOneTrace sandbox) ps) = map id ps.
Proof.
  induction ps as [|p ps IH]; [reflexivity|].
  change (flat_map (killOneTrace sandbox) (p :: ps))
    with (killOneTrace sandbox p ++ flat_map (killOneTrace sandbox) ps).
  rewrite killsOf_app, kills_of_killOneTrace, IH. reflexivity.
Qed.

Lemma kills_of_cleanUp (sandbox : Sandbox) (ps : list Process) :
  killsOf (cleanUpTrace sandbox ps) = map id ps.
Proof.
  unfold cleanUpTrace. destruct ps as [|p ps]; [reflexivity|].
  change (killsOf (flat_map (killOneTrace sandbox) (p :: ps) ++ [EvSleep 2000])
          = map id (p :: ps)).
  rewrite killsOf_app, kills_of_loop. apply app_nil_r.
Qed.

Lemma starts_of_loop (sandbox : Sandbox) (ps : list Process) :
  startsOf (flat_map (killOneTrace sandbox) ps) = [].
Proof.
  induction ps as [|p ps IH]; [reflexivity|].
  change (flat_map (killOneTrace sandbox) (p :: ps))
    with (killOneTrace sandbox p ++ flat_map (killOneTrace sandbox) ps).
  rewrite startsOf_app, IH. unfold killOneTrace.
  now destruct (kill sandbox p).
Qed.

Lemma starts_of_cleanUp (sandbox : Sandbox) (ps : list Process) :
  startsOf (cleanUpTrace sandbox ps) = [].
Proof.
  unfold cleanUpTrace. destruct ps as [|p ps]; [reflexivity|].
  change (startsOf (flat_map (killOneTrace sandbox) (p :: ps) ++ [EvSleep 2000]) = []).
  rewrite startsOf_app, starts_of_loop. reflexivity.
Qed.

Lemma failed_kill_logged (sandbox : Sandbox) (ps : list Process) (p : Process) (e : exn) :
  In p ps -> kill sandbox p = Throw e ->
  In (killFailureLine p) (cleanUpTrace sandbox ps).
Proof.
  intros Hin Hkill. unfold cleanUpTrace. destruct ps as [|q ps]; [destruct Hin|].
  right. apply in_or_app. left. apply in_flat_map. exists p. split; [exact Hin|].
  unfold killOneTrace. rewrite Hkill. simpl. auto.
Qed.

(** The readiness wait adds no kill and no start to the trace. *)
Lemma awaitReady_trace (cfg : Settings) (sandbox : Sandbox) (p : Process)
    (tr : list event) :
  exists ext, snd (awaitReady cfg sandbox p tr) = tr ++ ext
              /\ killsOf ext = [] /\ startsOf ext = [].
Proof.
  unfold awaitReady, callGetLogs, log, logError, Prog.try_catch, Prog.bind,
    Prog.call, Prog.emit, Prog.throw, Prog.when, Prog.ret.
  destruct (waitForPort sandbox p _ _) as [[]|e]; simpl.
  - destruct (getLogs sandbox p _) as [l|e]; simpl.
    + destruct (negb (String.eqb (stdout l) EmptyString)), (negb (String.eqb (stderr l) EmptyString));
        simpl; rewrite <- ?app_assoc; eexists; (split; [reflexivity|split; reflexivity]).
    + destruct (getLogs sandbox p _) as [l|e']; simpl;
        rewrite <- ?app_assoc; eexists; (split; [reflexivity|split; reflexivity]).
  - destruct (getLogs sandbox p _) as [l|e']; simpl;
      rewrite <- ?app_assoc; eexists; (split; [reflexivity|split; reflexivity]).
Qed.

(** C4. In every run of the orchestration that gets past the storage
    mount, the trace splits around the one start of the launch script: before
    it, exactly the processes returned by discovery are killed, in order and
    whatever their status, and nothing is started; every kill that fails
    leaves its console line there; after it no kill is issued. The start is
    reached whatever the kills answered. *)
Theorem kill_all_before_start (cfg : Settings) (sandbox : Sandbox) (env : MoltbotEnv) :
  mountR2Storage sandbox = Ok tt ->
  exists before launchEnv after,
    snd (Prog.run (ensureMoltbotGateway cfg sandbox env))
    = before ++ EvStartProcess "/usr/local/bin/start-moltbot.sh" launchEnv :: after
    /\ killsOf before = map id (discovered sandbox)
    /\ startsOf before = []
    /\ killsOf after = []
    /\ startsOf after = []
    /\ (forall p e, In p (discovered sandbox) -> kill sandbox p = Throw e ->
                    In (killFailureLine p) before).
Proof.
  intros Hmount.
  unfold Prog.run, ensureMoltbotGateway.
  unfold Prog.bind at 1. unfold Prog.call at 1. rewrite Hmount.
  unfold Prog.bind at 1. rewrite findExisting_run.
  unfold Prog.bind at 1. rewrite cleanUp_run.
  unfold log, Prog.bind at 1 2 3, Prog.emit. cbv beta iota.
  set (pre := ((((([] ++ [EvMount]) ++ discoveryTrace sandbox)
                  ++ cleanUpTrace sandbox (discovered sandbox)) ++ _) ++ _) ++ _).
  set (launchEnv := if Nat.ltb 0 (size (buildEnvVars env))
                    then Some (buildEnvVars env) else None).
  assert (Hpre_k : killsOf pre = map id (discovered sandbox)).
  { unfold pre. rewrite !killsOf_app, kills_of_cleanUp. unfold discoveryTrace.
    destruct (listProcesses sandbox); simpl; now rewrite !app_nil_r. }
  assert (Hpre_s : startsOf pre = []).
  { unfold pre. rewrite !startsOf_app, starts_of_cleanUp. unfold discoveryTrace.
    now destruct (listProcesses sandbox). }
  assert (Hpre_f : forall p e, In p (discovered sandbox) -> kill sandbox p = Throw e ->
                               In (killFailureLine p) pre).
  { intros p e Hin Hk. unfold pre. apply in_or_app; left. apply in_or_app; left.
    apply in_or_app; left. apply in_or_app; right.
    eapply failed_kill_logged; eauto. }
  clearbody pre.
  unfold Prog.bind, launch, Prog.try_catch, Prog.bind, Prog.call, log, logError,
    Prog.emit, Prog.throw, Prog.ret. fold launchEnv. clearbody launchEnv.
  destruct (startProcess sandbox _ launchEnv) as [proc|e].
  - destruct (awaitReady_trace cfg sandbox proc
                ((pre ++ [EvStartProcess "/usr/local/bin/start-moltbot.sh" launchEnv])
                   ++ [EvLog ("Process started with id: " +:+ id proc +:+ " status: "
                                +:+ statusName (status proc))]))
      as (ext & Hext & Hk & Hs).
    destruct (awaitReady cfg sandbox proc _) as [[[]|e] tr'] eqn:Hrun;
      simpl in Hext; subst tr'; simpl.
    + exists pre, launchEnv. eexists. rewrite <- !app_assoc. simpl.
      split; [reflexivity|]. repeat split; auto.
      * change (killsOf (?e :: ?l)) with (killsOf l).
        rewrite killsOf_app, Hk. reflexivity.
      * change (startsOf (?e :: ?l)) with (startsOf l).
        rewrite startsOf_app, Hs. reflexivity.
    + exists pre, launchEnv. eexists. rewrite <- !app_assoc. simpl.
      split; [reflexivity|]. repeat split; auto.
  - exists pre, launchEnv. eexists. rewrite <- !app_assoc. simpl.
    split; [reflexivity|]. repeat split; auto.
Qed.

(** When the storage mount throws, the run ends there: nothing is
    discovered, killed or started. *)
Lemma mount_failure_stops (cfg : Settings) (sandbox : Sandbox) (env : MoltbotEnv)
    (e : exn) :
  mountR2Storage sandbox = Throw e ->
  Prog.run (ensureMoltbotGateway cfg sandbox env) = (Throw e, [EvMount]).
Proof.
  intros H. unfold Prog.run, ensureMoltbotGateway, Prog.bind, Prog.call.
  now rewrite H.
Qed.

Lemma kill_all_before_start_witness :
  exists before launchEnv after,
    snd (Prog.run (ensureMoltbotGateway sampleSettings sampleSandbox noEnv))
    = before ++ EvStartProcess "/usr/local/bin/start-moltbot.sh" launchEnv :: after
    /\ killsOf before = map id (discovered sampleSandbox)
    /\ startsOf before = []
    /\ killsOf after = []
    /\ startsOf after = []
    /\ (forall p e, In p (discovered sampleSandbox) -> kill sampleSandbox p = Throw e ->
                    In (killFailureLine p) before).
Proof. apply (kill_all_before_start sampleSettings sampleSandbox noEnv). reflexivity. Defined.

Example reconcile_sample :
  killsOf (snd (Prog.run (ensureMoltbotGateway sampleSettings sampleSandbox noEnv)))
  = ["p1"; "p3"]
  /\ In (EvLog "Failed to kill process p3:")
        (snd (Prog.run (ensureMoltbotGateway sampleSettings sampleSandbox noEnv)))
  /\ startsOf (snd (Prog.run (ensureMoltbotGateway sampleSettings sampleSandbox noEnv)))
     = ["/usr/local/bin/start-moltbot.sh"].
Proof. vm_compute. intuition. Qed.

End Reconciliation.

(** ** The readiness gate *)
Section Readiness.
Import Env Gateway GatewaySpec.

(** Whatever the log capture answers, a failed wait ends the readiness
    wait with the error of the wait: the descriptive error is thrown inside the inner
    [try], whose handler replaces it by the original one. *)
Lemma awaitReady_rethrows (cfg : Settings) (sandbox : Sandbox) (p : Process)
    (tr : list event) (e : exn) :
  waitForPort sandbox p (MOLTBOT_PORT cfg) (STARTUP_TIMEOUT_MS cfg) = Throw e ->
  fst (awaitReady cfg sandbox p tr) = Throw e.
Proof.
  intros Hwait.
  unfold awaitReady, callGetLogs, log, logError, Prog.try_catch, Prog.bind,
    Prog.call, Prog.emit, Prog.throw. rewrite Hwait.
  now destruct (getLogs sandbox p _).
Qed.

Lemma awaitReady_rethrows_witness :
  fst (awaitReady sampleSettings stuckSandbox
         {| id := "gw"; command := "/usr/local/bin/start-moltbot.sh"; status := starting |} [])
  = Throw (Error "waitForPort timed out").
Proof. now apply awaitReady_rethrows. Defined.

(** C3. On a platform whose gateway never opens its port and whose logs
    are readable with a non-empty stderr, the orchestrator reads the logs and
    prints them, yet the failure it raises is the bare wait error, not the
    descriptive one that embeds the captured stderr. *)
Theorem wait_failure_drops_captured_stderr :
  let run := Prog.run (ensureMoltbotGateway sampleSettings stuckSandbox noEnv) in
  fst run = Throw (Error "waitForPort timed out")
  /\ fst run <> Throw (Error "Moltbot gateway failed to start. Stderr: EADDRINUSE")
  /\ In (EvGetLogs "gw") (snd run)
  /\ In (EvLogError "[Gateway] startup failed. Stderr: EADDRINUSE") (snd run)
  /\ In (EvLogError "[Gateway] Failed to get logs:") (snd run).
Proof.
  vm_compute. repeat split; try discriminate; intuition.
Qed.

End Readiness.

(** ** The environment reconciler *)
Section Reconciler.
Import Env EnvSpec.

Lemma setIf_lookup_ne (name k : string) (v : option string) (m : gmap string string) :
  name <> k -> setIf name v m !! k = m !! k.
Proof.
  intros Hne. unfold setIf. destruct v as [s|]; [|reflexivity].
  destruct (truthyS (Some s)); [|reflexivity]. now apply lookup_insert_ne.
Qed.

Lemma setIf_lookup_eq (name : string) (v : option string) (m : gmap string string) :
  setIf name v m !! name = if truthyS v then v else m !! name.
Proof.
  unfold setIf. destruct v as [s|]; [|reflexivity].
  destruct (truthyS (Some s)); [|reflexivity]. now apply lookup_insert_eq.
Qed.

Lemma setIfUnset_lookup_ne (name k : string) (v : option string) (m : gmap string string) :
  name <> k -> setIfUnset name v m !! k = m !! k.
Proof.
  intros Hne. unfold setIfUnset. destruct (negb _); [|reflexivity].
  now apply setIf_lookup_ne.
Qed.

Lemma setIfUnset_lookup_eq (name : string) (v : option string) (m : gmap string string) :
  setIfUnset name v m !! name
  = if truthyS (m !! name) then m !! name else if truthyS v then v else m !! name.
Proof.
  unfold setIfUnset. destruct (truthyS (m !! name)); simpl; [reflexivity|].
  apply setIf_lookup_eq.
Qed.

Lemma passThrough_keeps (env : MoltbotEnv) (m : gmap string string) (k : string) :
  k = "OPENAI_API_KEY" \/ k = "ANTHROPIC_API_KEY" ->
  passThrough env m !! k = m !! k.
Proof.
  intros [-> | ->]; unfold passThrough; cbv zeta;
    rewrite !setIf_lookup_ne by discriminate; reflexivity.
Qed.

Lemma passBaseUrl_keeps (env : MoltbotEnv) (m : gmap string string) (k : string) :
  k = "OPENAI_API_KEY" \/ k = "ANTHROPIC_API_KEY" ->
  passBaseUrl env m !! k = m !! k.
Proof.
  intros [-> | ->]; unfold passBaseUrl; cbv zeta;
    repeat match goal with |- context [if ?b then _ else _] => destruct b end;
    rewrite ?setIf_lookup_ne by discriminate; reflexivity.
Qed.

(** The two API-key variables of the result, by the tests of the code. *)
Lemma key_lookups (env : MoltbotEnv) :
  buildEnvVars env !! "OPENAI_API_KEY"
  = (if truthyS (gatewayApiKey env) && isOpenAIGateway env
     then gatewayApiKey env
     else present (OPENAI_API_KEY env))
  /\ buildEnvVars env !! "ANTHROPIC_API_KEY"
     = (if truthyS (gatewayApiKey env) && negb (isOpenAIGateway env)
        then gatewayApiKey env
        else present (ANTHROPIC_API_KEY env)).
Proof.
  unfold buildEnvVars. cbv zeta.
  rewrite !passThrough_keeps, !passBaseUrl_keeps by auto.
  unfold fallbackKeys. cbv zeta.
  rewrite setIfUnset_lookup_eq, (setIfUnset_lookup_ne "OPENAI_API_KEY" "ANTHROPIC_API_KEY")
    by discriminate.
  rewrite (setIfUnset_lookup_ne "ANTHROPIC_API_KEY" "OPENAI_API_KEY") by discriminate.
  rewrite setIfUnset_lookup_eq.
  unfold routeApiKey, present. cbv zeta.
  destruct (truthyS (gatewayApiKey env)) eqn:Hgk; simpl.
  - destruct (isOpenAIGateway env); simpl;
      rewrite ?setIf_lookup_eq, ?setIf_lookup_ne by discriminate;
      rewrite ?Hgk, ?lookup_empty; simpl; auto.
  - rewrite lookup_empty. simpl. auto.
Qed.

Example api_key_sample :
  buildEnvVars sampleGatewayEnv !! "OPENAI_API_KEY" = Some "gw-key"
  /\ buildEnvVars sampleGatewayEnv !! "ANTHROPIC_API_KEY" = Some "direct-anthropic"
  /\ buildEnvVars sampleGatewayEnv !! "OPENAI_BASE_URL"
     = Some "https://gateway.ai.cloudflare.com/v1/acc/gw/openai".
Proof. vm_compute. auto. Qed.

End Reconciler.

(** ** The restore decision *)
Section RestoreDecision.
Import Script ScriptSpec.

(** C2. For every [date] and every state of the two manifests, the
    function chooses "restore" exactly as follows: never without a remote
    manifest; always with a remote and no local one; with both, iff the remote
    epoch is strictly greater than the local one, where a timestamp [date]
    rejects counts as epoch 0 and the decision is still produced. Equal
    timestamps never restore. *)
Theorem restore_decision (date : string -> option Z) :
  (forall l, restores date {| R2_SYNC_FILE := None; LOCAL_SYNC_FILE := l |} = false)
  /\ (forall r, restores date {| R2_SYNC_FILE := Some r; LOCAL_SYNC_FILE := None |} = true)
  /\ (forall r l,
        restores date {| R2_SYNC_FILE := Some r; LOCAL_SYNC_FILE := Some l |}
        = Z.ltb (default 0%Z (date l)) (default 0%Z (date r)))
  /\ (forall t, restores date {| R2_SYNC_FILE := Some t; LOCAL_SYNC_FILE := Some t |} = false).
Proof.
  assert (Hboth : forall r l,
             restores date {| R2_SYNC_FILE := Some r; LOCAL_SYNC_FILE := Some l |}
             = Z.ltb (default 0%Z (date l)) (default 0%Z (date r))).
  { intros r l. unfold restores, should_restore_from_r2, epoch.
    cbv [R2_SYNC_FILE LOCAL_SYNC_FILE]. cbv zeta. rewrite Z.gtb_ltb.
    destruct (date r) as [er|], (date l) as [el|]; cbn [default];
      now destruct (Z.ltb _ _). }
  repeat split; auto.
  intros t. rewrite Hboth. apply Z.ltb_irrefl.
Qed.

Example restore_table :
  restores sampleDate {| R2_SYNC_FILE := None; LOCAL_SYNC_FILE := Some "2024-01-01T00:00:00Z" |} = false
  /\ restores sampleDate {| R2_SYNC_FILE := Some "2024-01-02T00:00:00Z"; LOCAL_SYNC_FILE := None |} = true
  /\ restores sampleDate {| R2_SYNC_FILE := Some "2024-01-02T00:00:00Z";
                            LOCAL_SYNC_FILE := Some "2024-01-01T00:00:00Z" |} = true
  /\ restores sampleDate {| R2_SYNC_FILE := Some "2024-01-01T00:00:00Z";
                            LOCAL_SYNC_FILE := Some "2024-01-01T00:00:00Z" |} = false
  /\ restores sampleDate {| R2_SYNC_FILE := Some "not a date";
                            LOCAL_SYNC_FILE := Some "2024-01-01T00:00:00Z" |} = false
  /\ restores sampleDate {| R2_SYNC_FILE := Some "2024-01-01T00:00:00Z";
                            LOCAL_SYNC_FILE := Some "garbage" |} = true.
Proof. vm_compute. auto 10. Qed.

End RestoreDecision.

(** ** The crash supervisor *)
Section Supervisor.
Import Script ScriptSpec.

Lemma append_nil_r (s : string) : s +:+ EmptyString = s.
Proof.
  induction s as [|c s IH]; [reflexivity|].
  change (String c s +:+ EmptyString) with (String c (s +:+ EmptyString)).
  now rewrite IH.
Qed.

Lemma append_cons (c : ascii) (s t : string) : String c s +:+ t = String c (s +:+ t).
Proof. reflexivity. Qed.

Lemma append_assoc_s (a b c : string) : (a +:+ b) +:+ c = a +:+ (b +:+ c).
Proof. induction a as [|x a IH]; [reflexivity|]. rewrite !append_cons. now rewrite IH. Qed.

Lemma linesOf_cons_LF (rest : string) :
  linesOf (String (ascii_of_nat 10) rest) = LF :: linesOf rest.
Proof. reflexivity. Qed.

Lemma linesOf_cons_other (c : ascii) (rest : string) :
  Ascii.eqb c (ascii_of_nat 10) = false ->
  linesOf (String c rest)
  = match linesOf rest with
    | line :: later => String c line :: later
    | [] => [String c EmptyString]
    end.
Proof. intros H. cbn [linesOf]. now rewrite H. Qed.

(** A complete line in front of a file is its first line. *)
Lemma linesOf_line (line rest : string) :
  oneLine line = true ->
  linesOf ((line +:+ LF) +:+ rest) = (line +:+ LF) :: linesOf rest.
Proof.
  induction line as [|c line IH]; intros Hline.
  - reflexivity.
  - cbn [oneLine] in Hline. apply andb_true_iff in Hline. destruct Hline as [Hc Hline].
    apply negb_true_iff in Hc.
    rewrite !append_cons, (linesOf_cons_other c _ Hc), (IH Hline). reflexivity.
Qed.

(** An unfinished line is a line of its own. *)
Lemma linesOf_partial (p : string) :
  oneLine p = true -> p <> EmptyString -> linesOf p = [p].
Proof.
  induction p as [|c p IH]; intros Hline Hne; [congruence|].
  cbn [oneLine] in Hline. apply andb_true_iff in Hline. destruct Hline as [Hc Hline].
  apply negb_true_iff in Hc. rewrite (linesOf_cons_other c _ Hc).
  destruct p as [|d p]; [reflexivity|].
  rewrite (IH Hline) by discriminate. reflexivity.
Qed.

Lemma concat_cons (x : string) (xs : list string) :
  String.concat EmptyString (x :: xs) = x +:+ String.concat EmptyString xs.
Proof.
  destruct xs as [|y ys]; [cbn [String.concat]; now rewrite append_nil_r | reflexivity].
Qed.

Lemma text_cons (line : string) (lines : list string) :
  text (line :: lines) = (line +:+ LF) +:+ text lines.
Proof. unfold text. cbn [List.map]. apply concat_cons. Qed.

Lemma concat_app (xs ys : list string) :
  String.concat EmptyString (xs ++ ys)
  = String.concat EmptyString xs +:+ String.concat EmptyString ys.
Proof.
  induction xs as [|x xs IH]; [reflexivity|].
  change ((x :: xs) ++ ys) with (x :: (xs ++ ys)).
  now rewrite !concat_cons, IH, append_assoc_s.
Qed.

Lemma linesOf_text (lines : list string) (p : string) :
  Forall (fun line => oneLine line = true) lines ->
  oneLine p = true ->
  linesOf (text lines +:+ p)
  = List.map (fun line => line +:+ LF) lines
    ++ (if String.eqb p EmptyString then [] else [p]).
Proof.
  intros Hlines Hp. induction Hlines as [|line lines Hline _ IH].
  - cbn [text List.map String.concat app]. change (EmptyString +:+ p) with p.
    destruct (String.eqb_spec p EmptyString) as [->|Hne]; [reflexivity|].
    now apply linesOf_partial.
  - rewrite text_cons, append_assoc_s, (linesOf_line line _ Hline), IH. reflexivity.
Qed.

(** [tail -n 50] on a file of complete lines followed by an unfinished
    one (or none): of [n] lines in all, the last 50. *)
Lemma tail50_text (older recent : list string) (p : string) :
  Forall (fun line => oneLine line = true) (older ++ recent) ->
  oneLine p = true ->
  length recent + (if String.eqb p EmptyString then 0 else 1) = 50 ->
  tail50 (text (older ++ recent) +:+ p) = text recent +:+ p.
Proof.
  intros Hlines Hp Hlen. unfold tail50. cbv zeta.
  rewrite (linesOf_text _ p Hlines Hp), List.map_app, <- app_assoc.
  rewrite length_app, length_map, length_app, length_map.
  replace (length older + (length recent
             + length (if String.eqb p EmptyString then [] else [p])) - 50)
    with (length (List.map (fun line => line +:+ LF) older) + 0).
  - rewrite Nat.add_0_r, skipn_app, skipn_all, Nat.sub_diag.
    cbn [app]. rewrite skipn_O, concat_app. unfold text. f_equal.
    destruct (String.eqb p EmptyString) eqn:E; [|reflexivity].
    apply String.eqb_eq in E. now subst p.
  - rewrite length_map. destruct (String.eqb p EmptyString); cbn [length] in *; lia.
Qed.

Lemma tail50_short (lines : list string) (p : string) :
  Forall (fun line => oneLine line = true) lines ->
  oneLine p = true ->
  length lines + (if String.eqb p EmptyString then 0 else 1) <= 50 ->
  tail50 (text lines +:+ p) = text lines +:+ p.
Proof.
  intros Hlines Hp Hlen. unfold tail50. cbv zeta.
  rewrite (linesOf_text _ p Hlines Hp).
  replace (length _ - 50) with 0.
  - rewrite skipn_O, concat_app. unfold text. f_equal.
    destruct (String.eqb p EmptyString) eqn:E; [|reflexivity].
    apply String.eqb_eq in E. now subst p.
  - rewrite length_app, length_map.
    destruct (String.eqb p EmptyString); cbn [length] in *; lia.
Qed.

Lemma banner_diagnostic (exit_code : Z) (tail : string) :
  banner exit_code +:+ tail = diagnostic (pretty exit_code) tail.
Proof. unfold banner, diagnostic. now rewrite !append_assoc_s. Qed.

Lemma keep_alive_healthy (exit_code : Z) (turns : list Turn) :
  Forall (fun turn => healthy turn = true) turns ->
  keep_alive_on_crash exit_code turns
  = (List.map (answer (pretty exit_code)) turns, None).
Proof.
  intros H. induction H as [|turn later Hturn _ IH]; [reflexivity|].
  unfold healthy in Hturn. apply andb_true_iff in Hturn. destruct Hturn as [Hturn Hnc].
  apply andb_true_iff in Hturn. destruct Hturn as [Hecho Hlog].
  cbn [keep_alive_on_crash List.map]. rewrite Hecho.
  destruct (log_file turn) as [log|] eqn:El; [|discriminate].
  cbv zeta. rewrite Hnc, IH. unfold answer. rewrite El. cbn [default from_option id].
  now rewrite banner_diagnostic.
Qed.

Lemma keep_alive_fails (exit_code : Z) (good : list Turn) (bad : Turn) (later : list Turn) :
  Forall (fun turn => healthy turn = true) good ->
  healthy bad = false ->
  keep_alive_on_crash exit_code (good ++ bad :: later)
  = (List.map (answer (pretty exit_code)) good, Some (failure bad)).
Proof.
  intros H Hbad. induction H as [|turn rest Hturn _ IH].
  - cbn [app keep_alive_on_crash List.map]. unfold healthy in Hbad. unfold failure.
    destruct (banner_written bad); [|reflexivity].
    destruct (log_file bad); [|reflexivity].
    cbn [andb] in Hbad. cbv zeta. now rewrite Hbad.
  - unfold healthy in Hturn. apply andb_true_iff in Hturn. destruct Hturn as [Hturn Hnc].
    apply andb_true_iff in Hturn. destruct Hturn as [Hecho Hlog].
    cbn [app keep_alive_on_crash List.map]. rewrite Hecho.
    destruct (log_file turn) as [log|] eqn:El; [|discriminate].
    cbv zeta. rewrite Hnc, IH. unfold answer. rewrite El. cbn [default from_option id].
    now rewrite banner_diagnostic.
Qed.

(** C7 does not hold for exit status 0: the script ends, and no answer is
    given on the port. *)
Lemma clean_exit_is_not_degraded :
  supervise 0 [servedTurn] = ScriptEnds 0
  /\ ~ (forall gateway_status turns,
          exists port answers ended,
            supervise gateway_status turns
            = Degraded gateway_status port answers ended).
Proof.
  split; [reflexivity|]. intros H.
  destruct (H 0%Z [servedTurn]) as (port & answers & ended & Ha). discriminate Ha.
Qed.

(** C7, amended. If the gateway returns with a status other than 0, the
    script turns to the fallback responder on the gateway's port 18789. As
    long as the three commands of the loop succeed, every connection is
    answered, however many there are, with the diagnostic payload: the
    HTTP 200 status line and headers, the exit code in decimal, and the last
    50 lines of the log as it is at that turn (the whole log when it is
    shorter; an unfinished last line counts as a line and is sent as it
    is). The first command that fails ends the script with its status,
    after the answers given so far. With status 0 the script ends and
    nothing is answered. *)
Theorem crash_enters_degraded (gateway_status : Z) (turns : list Turn) :
  gateway_status <> 0%Z ->
  (Forall (fun turn => healthy turn = true) turns ->
   supervise gateway_status turns
   = Degraded gateway_status gatewayPort
       (List.map (fun turn =>
                    diagnostic (pretty gateway_status)
                      (tail50 (default EmptyString (log_file turn)))) turns)
       None)
  /\ (forall good bad later,
        turns = good ++ bad :: later ->
        Forall (fun turn => healthy turn = true) good ->
        healthy bad = false ->
        supervise gateway_status turns
        = Degraded gateway_status gatewayPort
            (List.map (fun turn =>
                         diagnostic (pretty gateway_status)
                           (tail50 (default EmptyString (log_file turn)))) good)
            (Some (failure bad)))
  /\ (forall older recent p,
        Forall (fun line => oneLine line = true) (older ++ recent) ->
        oneLine p = true ->
        length recent + (if String.eqb p EmptyString then 0 else 1) = 50 ->
        tail50 (text (older ++ recent) +:+ p) = text recent +:+ p)
  /\ (forall lines p,
        Forall (fun line => oneLine line = true) lines ->
        oneLine p = true ->
        length lines + (if String.eqb p EmptyString then 0 else 1) <= 50 ->
        tail50 (text lines +:+ p) = text lines +:+ p)
  /\ supervise 0 turns = ScriptEnds 0.
Proof.
  intros Hne. unfold supervise.
  destruct (Z.eqb_spec gateway_status 0) as [->|_]; [congruence|].
  split; [|split; [|split; [|split]]].
  - intros Hall. now rewrite (keep_alive_healthy gateway_status turns Hall).
  - intros good bad later -> Hgood Hbad.
    now rewrite (keep_alive_fails gateway_status good bad later Hgood Hbad).
  - exact tail50_text.
  - exact tail50_short.
  - reflexivity.
Qed.

Lemma crash_enters_degraded_witness :
  (Forall (fun turn => healthy turn = true) [servedTurn; servedTurn; portTaken] ->
   supervise 137 [servedTurn; servedTurn; portTaken]
   = Degraded 137 gatewayPort
       (List.map (fun turn =>
                    diagnostic (pretty 137%Z)
                      (tail50 (default EmptyString (log_file turn))))
          [servedTurn; servedTurn; portTaken])
       None)
  /\ (forall good bad later,
        [servedTurn; servedTurn; portTaken] = good ++ bad :: later ->
        Forall (fun turn => healthy turn = true) good ->
        healthy bad = false ->
        supervise 137 [servedTurn; servedTurn; portTaken]
        = Degraded 137 gatewayPort
            (List.map (fun turn =>
                         diagnostic (pretty 137%Z)
                           (tail50 (default EmptyString (log_file turn)))) good)
            (Some (failure bad)))
  /\ (forall older recent p,
        Forall (fun line => oneLine line = true) (older ++ recent) ->
        oneLine p = true ->
        length recent + (if String.eqb p EmptyString then 0 else 1) = 50 ->
        tail50 (text (older ++ recent) +:+ p) = text recent +:+ p)
  /\ (forall lines p,
        Forall (fun line => oneLine line = true) lines ->
        oneLine p = true ->
        length lines + (if String.eqb p EmptyString then 0 else 1) <= 50 ->
        tail50 (text lines +:+ p) = text lines +:+ p)
  /\ supervise 0 [servedTurn; servedTurn; portTaken] = ScriptEnds 0.
Proof.
  apply (crash_enters_degraded 137 [servedTurn; servedTurn; portTaken]). discriminate.
Defined.

(** The run of the witness: two connections are answered, the third turn
    finds the port taken and the script ends with the status of [nc]; the
    payload ends with the last 49 complete lines of the log and its
    unfinished line. *)
Example response_sample :
  supervise 137 [servedTurn; servedTurn; portTaken]
  = Degraded 137 18789
      [diagnostic "137"
         (text (List.map (fun n => "line " +:+ pretty (Z.of_nat n)) (seq 3 49))
          +:+ "unfinished");
       diagnostic "137"
         (text (List.map (fun n => "line " +:+ pretty (Z.of_nat n)) (seq 3 49))
          +:+ "unfinished")]
      (Some 1%Z)
  /\ Str.startsWith (diagnostic "137" EmptyString) ("HTTP/1.1 200 OK" +:+ CR +:+ LF) = true
  /\ Str.includes (diagnostic "137" EmptyString) "CRASH DETECTED (Exit code: 137)" = true.
Proof. vm_compute. auto. Qed.

End Supervisor.

(** ** The dev-mode shortcut of the access middleware *)
Section AccessShortcut.
Import Env Access AccessSpec.

Lemma strict_true (v : option string) :
  match v with Some s => String.eqb s "true" | None => false end = true
  <-> v = Some "true".
Proof.
  destruct v as [s|]; [|split; discriminate].
  rewrite String.eqb_eq. split; congruence.
Qed.

(** Whoever gets through [authenticate] had a credential examined. *)
Lemma authenticate_examines (options : AccessMiddlewareOptions) (c : Context) :
  granted (snd (Prog.run (authenticate options c))) ->
  examined (snd (Prog.run (authenticate options c))).
Proof.
  unfold Prog.run, authenticate, checkAccess, callNext, granted, examined,
    Prog.try_catch, Prog.bind, Prog.call, Prog.emit, Prog.ret.
  cbv zeta.
  repeat match goal with
         | |- context [match ?x with _ => _ end] =>
             lazymatch x with
             | context [match _ with _ => _ end] => fail
             | _ => destruct x eqn:?
             end
         end; simpl;
    intros Hin;
    repeat match goal with
           | H : _ \/ _ |- _ => destruct H
           | H : False |- _ => destruct H
           | H : In _ _ |- _ => simpl in H
           end;
    try discriminate;
    try (eexists; split; [left; reflexivity | exact I]).
Qed.

(** C10. For every request: if [DEV_MODE] or [E2E_TEST_MODE] is exactly
    the string [true], the middleware sets the fixed dev user, calls [next],
    and does nothing else: no gateway-token comparison and no JWT
    verification takes place. For any other values of the two variables the
    shortcut is not taken: the middleware behaves as the authentication path,
    on which nobody is let through without an examined credential. *)
Theorem dev_mode_shortcut (options : AccessMiddlewareOptions) (c : Context) :
  ((DEV_MODE (env c) = Some "true" \/ E2E_TEST_MODE (env c) = Some "true") ->
     snd (Prog.run (createAccessMiddleware options c)) = [EvSetAccessUser devUser; EvNext]
     /\ fst (Prog.run (createAccessMiddleware options c))
        = match next c with Ok _ => Ok None | Throw e => Throw e end
     /\ ~ examined (snd (Prog.run (createAccessMiddleware options c))))
  /\ (DEV_MODE (env c) <> Some "true" -> E2E_TEST_MODE (env c) <> Some "true" ->
        createAccessMiddleware options c = authenticate options c
        /\ (granted (snd (Prog.run (createAccessMiddleware options c))) ->
            examined (snd (Prog.run (createAccessMiddleware options c))))).
Proof.
  split.
  - intros Hmode.
    assert (Hon : isDevMode (env c) || isE2ETestMode (env c) = true).
    { apply orb_true_iff. unfold isDevMode, isE2ETestMode.
      rewrite !strict_true. exact Hmode. }
    unfold createAccessMiddleware. rewrite Hon.
    unfold Prog.run, callNext, Prog.bind, Prog.call, Prog.emit, Prog.ret. simpl.
    destruct (next c) as [[]|e]; simpl; repeat split; auto;
      intros (ev & Hin & Hev); simpl in Hin;
      destruct Hin as [<-|[<-|[]]]; exact Hev.
  - intros Hdev He2e.
    assert (Hoff : isDevMode (env c) || isE2ETestMode (env c) = false).
    { apply orb_false_iff. unfold isDevMode, isE2ETestMode.
      split; apply not_true_is_false; rewrite strict_true; assumption. }
    unfold createAccessMiddleware. rewrite Hoff. split; [reflexivity|].
    apply authenticate_examines.
Qed.

Lemma dev_mode_shortcut_witness :
  (snd (Prog.run (createAccessMiddleware jsonOptions (anonymous (Some "true") None)))
   = [EvSetAccessUser devUser; EvNext]
   /\ fst (Prog.run (createAccessMiddleware jsonOptions (anonymous (Some "true") None)))
      = Ok None
   /\ ~ examined (snd (Prog.run (createAccessMiddleware jsonOptions
                                   (anonymous (Some "true") None)))))
  /\ createAccessMiddleware jsonOptions (anonymous (Some "TRUE") (Some "1"))
     = authenticate jsonOptions (anonymous (Some "TRUE") (Some "1")).
Proof.
  split.
  - apply (proj1 (dev_mode_shortcut jsonOptions (anonymous (Some "true") None))).
    left. reflexivity.
  - apply (proj2 (dev_mode_shortcut jsonOptions (anonymous (Some "TRUE") (Some "1"))));
      discriminate.
Defined.

(** The shortcut on sample requests: taken for [true] in either variable,
    not taken for [TRUE], [1] or no value, where the anonymous request is
    answered 401 and [next] is not called. *)
Example shortcut_samples :
  Prog.run (createAccessMiddleware jsonOptions (anonymous (Some "true") None))
  = (Ok None, [EvSetAccessUser devUser; EvNext])
  /\ Prog.run (createAccessMiddleware jsonOptions (anonymous None (Some "true")))
     = (Ok None, [EvSetAccessUser devUser; EvNext])
  /\ (forall dev, In dev [Some "TRUE"; Some "1"; Some "True"; Some " true"; None] ->
        Prog.run (createAccessMiddleware jsonOptions (anonymous dev dev))
        = (Ok (Some (missingJWT jsonOptions "team.example")), [EvCompareToken "secret"])).
Proof.
  split; [reflexivity|]. split; [reflexivity|].
  intros dev Hin. simpl in Hin.
  repeat destruct Hin as [<-|Hin]; try reflexivity. destruct Hin.
Qed.

End AccessShortcut.

(** ** Property lists, paths and assignments *)
Section Paths.
Import Node Synth SynthSpec.

Lemma lookup_setKey_same (k : string) (x : value) (props : list (string * value)) :
  lookupKey k (setKey k x props) = Some x.
Proof.
  induction props as [|[k' v] rest IH]; simpl.
  - now rewrite String.eqb_refl.
  - destruct (String.eqb k k') eqn:E; simpl.
    + now rewrite String.eqb_refl.
    + now rewrite E.
Qed.

Lemma lookup_setKey_other (a k : string) (x : value) (props : list (string * value)) :
  String.eqb a k = false -> lookupKey a (setKey k x props) = lookupKey a props.
Proof.
  intros Hne. induction props as [|[k' v] rest IH]; simpl.
  - now rewrite Hne.
  - destruct (String.eqb k k') eqn:E; simpl.
    + apply String.eqb_eq in E. subst k'. now rewrite Hne.
    + now rewrite IH.
Qed.

Lemma setKey_same (k : string) (x : value) (props : list (string * value)) :
  lookupKey k props = Some x -> setKey k x props = props.
Proof.
  induction props as [|[k' v] rest IH]; simpl; [discriminate|].
  destruct (String.eqb k k') eqn:E.
  - apply String.eqb_eq in E. subst k'. now intros [= ->].
  - intros H. now rewrite IH.
Qed.

Lemma lookup_removeKey_same (k : string) (props : list (string * value)) :
  lookupKey k (removeKey k props) = None.
Proof.
  induction props as [|[k' v] rest IH]; simpl; [reflexivity|].
  destruct (String.eqb k k') eqn:E; simpl; [exact IH|]. now rewrite E.
Qed.

Lemma lookup_removeKey_other (a k : string) (props : list (string * value)) :
  String.eqb a k = false -> lookupKey a (removeKey k props) = lookupKey a props.
Proof.
  intros Hne. induction props as [|[k' v] rest IH]; simpl; [reflexivity|].
  destruct (String.eqb k k') eqn:E; simpl.
  - apply String.eqb_eq in E. subst k'. now rewrite Hne.
  - now rewrite IH.
Qed.

Lemma getOwn_setOwn_other (v : value) (a k : string) (x : value) :
  String.eqb a k = false -> getOwn (setOwn v k x) a = getOwn v a.
Proof.
  intros Hne. destruct v; simpl; try reflexivity; now apply lookup_setKey_other.
Qed.

Lemma getOwn_deleteOwn_other (v : value) (a k : string) :
  String.eqb a k = false -> getOwn (deleteOwn v k) a = getOwn v a.
Proof.
  intros Hne. destruct v; simpl; try reflexivity; now apply lookup_removeKey_other.
Qed.

Lemma nav_app (v : value) (p q : path) :
  nav v (p ++ q) = match nav v p with Some c => nav c q | None => None end.
Proof.
  revert v. induction p as [|k p IH]; intros v; simpl; [reflexivity|].
  destruct (getOwn v k); [apply IH | reflexivity].
Qed.

Lemma objs_root (v : value) (p : path) : objs v p = true -> isObj v = true.
Proof. destruct p, v; simpl; congruence. Qed.

Lemma objs_nav (v : value) (p : path) :
  objs v p = true -> exists props, nav v p = Some (VObj props).
Proof.
  revert v. induction p as [|k p IH]; intros v H.
  - destruct v; try discriminate. eauto.
  - destruct v; try discriminate. simpl in *.
    destruct (lookupKey k props); [eauto | discriminate].
Qed.

Lemma objs_app (v : value) (p q : path) :
  objs v (p ++ q) = true -> objs v p = true.
Proof.
  revert v. induction p as [|k p IH]; intros v H.
  - apply objs_root in H. destruct v; try discriminate. reflexivity.
  - destruct v; try discriminate. simpl in *.
    destruct (lookupKey k props); [eauto | discriminate].
Qed.

Lemma objs_extend (v : value) (p q : path) (props : list (string * value)) :
  objs v p = true -> nav v p = Some (VObj props) ->
  objs v (p ++ q) = objs (VObj props) q.
Proof.
  revert v. induction p as [|k p IH]; intros v H Hn.
  - simpl in Hn. injection Hn as ->. reflexivity.
  - destruct v; try discriminate. simpl in *.
    destruct (lookupKey k props0); [eauto | discriminate].
Qed.

Lemma objsTo_snoc (v : value) (p : path) (k : string) :
  objs v p = true -> objsTo v (p ++ [k]) = true.
Proof.
  revert v. induction p as [|a p IH]; intros v H.
  - destruct v; try discriminate. reflexivity.
  - destruct v; try discriminate. simpl in *.
    destruct (lookupKey a props); [|discriminate].
    destruct (p ++ [k]) eqn:E; [now destruct p|]. eauto.
Qed.

(** The shape in which the statements meet it: the parent path is made of
    objects. *)
Lemma objsTo_parent (v : value) (q : path) :
  q <> [] -> objs v (removelast q) = true -> objsTo v q = true.
Proof.
  intros Hq H. rewrite (app_removelast_last EmptyString Hq).
  now apply objsTo_snoc.
Qed.

Lemma prefix_cases (r q : path) :
  is_prefix r q = false ->
  diverge r q = true \/ exists k r', r = q ++ k :: r'.
Proof.
  revert q. induction r as [|a r IH]; intros q H; [discriminate|].
  destruct q as [|b q].
  - right. exists a, r. reflexivity.
  - simpl in *. destruct (String.eqb a b) eqn:E.
    + apply String.eqb_eq in E. subst b. simpl in H.
      destruct (IH q H) as [Hd | (k & r' & ->)]; [now left|].
      right. exists k, r'. reflexivity.
    + now left.
Qed.

Lemma diverge_not_prefix (r q : path) :
  diverge r q = true -> is_prefix q r = false.
Proof.
  revert q. induction r as [|a r IH]; intros [|b q] H; simpl in *; try discriminate.
  rewrite String.eqb_sym. destruct (String.eqb a b); [simpl; auto | reflexivity].
Qed.

(** *** Reading *)

Lemma read_nav (v : value) (q : path) :
  objsTo v q = true -> read v q = Ok (nav v q).
Proof.
  revert v. induction q as [|k q IH]; intros v H; [discriminate|].
  destruct v; try discriminate. simpl in *.
  destruct q as [|k' q'].
  - now destruct (lookupKey k props).
  - destruct (lookupKey k props) as [c|]; [|discriminate]. now apply IH.
Qed.

Lemma readOpt_nav (v : value) (q : path) : readOpt (Some v) q = nav v q.
Proof.
  revert v. induction q as [|k q IH]; intros v; [reflexivity|].
  simpl. destruct v; simpl;
    try (destruct (lookupKey k props) as [c|]; [apply IH | now destruct q]);
    now destruct q.
Qed.

(** *** Assignment *)

Lemma assign_ok (v : value) (q : path) (x : value) :
  objsTo v q = true -> exists v', assign v q x = Ok v'.
Proof.
  revert v. induction q as [|k q IH]; intros v H; [discriminate|].
  destruct v; try discriminate. simpl in *.
  destruct q as [|k' q']; [eauto|].
  destruct (lookupKey k props) as [c|]; [|discriminate].
  destruct (IH c H) as [c' Hc]. rewrite Hc. eauto.
Qed.

Lemma assign_nav_ext (v v' : value) (q r : path) (x : value) :
  objsTo v q = true -> assign v q x = Ok v' -> nav v' (q ++ r) = nav x r.
Proof.
  revert v v'. induction q as [|k q IH]; intros v v' H Ha; [discriminate|].
  destruct v; try discriminate. simpl in H, Ha.
  destruct q as [|k' q'].
  - injection Ha as <-. simpl. now rewrite lookup_setKey_same.
  - destruct (lookupKey k props) as [c|]; [|discriminate].
    destruct (assign c (k' :: q') x) as [c'|e] eqn:Hc; [|discriminate].
    injection Ha as <-. cbn [app nav getOwn setOwn]. rewrite lookup_setKey_same.
    now apply (IH c c').
Qed.

Lemma assign_single_inv (v v' : value) (k : string) (x : value) :
  assign v [k] x = Ok v' -> v' = setOwn v k x.
Proof. destruct v; simpl; congruence. Qed.

Lemma assign_cons_inv (v v' : value) (k k' : string) (q : path) (x : value) :
  assign v (k :: k' :: q) x = Ok v' ->
  exists c c', getOwn v k = Some c /\ assign c (k' :: q) x = Ok c'
               /\ v' = setOwn v k c'.
Proof.
  assert (E : assign v (k :: k' :: q) x
              = match v with
                | VNull => Throw (cannotRead "null" k)
                | _ =>
                    match getOwn v k with
                    | Some c =>
                        match assign c (k' :: q) x with
                        | Ok c' => Ok (setOwn v k c')
                        | Throw e => Throw e
                        end
                    | None =>
                        Throw (match q with
                               | [] => cannotSet "undefined" k'
                               | _ => cannotRead "undefined" k'
                               end)
                    end
                end) by now destruct v.
  rewrite E. clear E. intros H.
  destruct v; cbv beta iota in H; try discriminate;
    (destruct (getOwn _ k) as [c|] eqn:Hg; [|discriminate];
     destruct (assign c (k' :: q) x) as [c'|e] eqn:Hc; [|discriminate];
     exists c, c'; repeat split; congruence).
Qed.

Lemma getOwn_setOwn_same (v c : value) (k : string) (x : value) :
  getOwn v k = Some c -> getOwn (setOwn v k x) k = Some x.
Proof.
  destruct v; simpl; try discriminate; intros _; apply lookup_setKey_same.
Qed.

Lemma assign_nav_diverge (v v' : value) (q r : path) (x : value) :
  assign v q x = Ok v' -> diverge r q = true -> nav v' r = nav v r.
Proof.
  revert v v' r. induction q as [|k q IH]; intros v v' r Ha Hd.
  - now destruct r.
  - destruct r as [|a r]; [discriminate|]. cbn [diverge] in Hd.
    destruct q as [|k' q'].
    + apply assign_single_inv in Ha. subst v'.
      destruct (String.eqb a k) eqn:E; [now destruct r|].
      cbn [nav]. now rewrite getOwn_setOwn_other.
    + apply assign_cons_inv in Ha. destruct Ha as (c & c' & Hg & Hc & ->).
      cbn [nav]. destruct (String.eqb a k) eqn:E.
      * apply String.eqb_eq in E. subst a.
        rewrite (getOwn_setOwn_same v c k c' Hg), Hg. now apply (IH c c').
      * now rewrite getOwn_setOwn_other.
Qed.

Lemma assign_objs_keep (v v' : value) (q r : path) (x : value) :
  assign v q x = Ok v' -> objs v r = true -> is_prefix q r = false ->
  objs v' r = true.
Proof.
  revert v v' r. induction q as [|k q IH]; intros v v' r Ha Ho Hp; [discriminate|].
  destruct v; try (now destruct r). simpl in Ha.
  destruct q as [|k' q'].
  - injection Ha as <-. destruct r as [|a r]; [reflexivity|].
    simpl in *. destruct (String.eqb k a) eqn:E; [now destruct r|].
    rewrite lookup_setKey_other; [exact Ho | now rewrite String.eqb_sym].
  - destruct (lookupKey k props) as [c|] eqn:Hl; [|discriminate].
    destruct (assign c (k' :: q') x) as [c'|e] eqn:Hc; [|discriminate].
    injection Ha as <-. destruct r as [|a r]; [reflexivity|].
    cbn [is_prefix] in Hp. cbn [objs] in *.
    destruct (String.eqb k a) eqn:E.
    + apply String.eqb_eq in E. subst a. rewrite Hl in Ho.
      rewrite lookup_setKey_same. now apply (IH c c').
    + rewrite lookup_setKey_other; [exact Ho | now rewrite String.eqb_sym].
Qed.

Lemma assign_objs_new (v v' : value) (q r : path) (x : value) :
  objsTo v q = true -> assign v q x = Ok v' -> objs x r = true ->
  objs v' (q ++ r) = true.
Proof.
  revert v v'. induction q as [|k q IH]; intros v v' H Ha Hx; [discriminate|].
  destruct v; try discriminate. simpl in H, Ha.
  destruct q as [|k' q'].
  - injection Ha as <-. simpl. now rewrite lookup_setKey_same.
  - destruct (lookupKey k props) as [c|]; [|discriminate].
    destruct (assign c (k' :: q') x) as [c'|e] eqn:Hc; [|discriminate].
    injection Ha as <-. cbn [app objs]. rewrite lookup_setKey_same.
    now apply (IH c c').
Qed.

Lemma assign_id (v : value) (q : path) (x : value) :
  objsTo v q = true -> nav v q = Some x -> assign v q x = Ok v.
Proof.
  revert v. induction q as [|k q IH]; intros v H Hn; [discriminate|].
  destruct v; try discriminate. simpl in H, Hn |- *.
  destruct q as [|k' q'].
  - destruct (lookupKey k props) as [c|] eqn:Hl; [|discriminate].
    simpl in Hn. injection Hn as ->. now rewrite setKey_same.
  - destruct (lookupKey k props) as [c|] eqn:Hl; [|discriminate].
    rewrite (IH c H Hn). now rewrite setKey_same.
Qed.

Lemma assign_nav_parent (v v' c : value) (p : path) (k : string) (x : value) :
  objs v p = true -> nav v p = Some c -> assign v (p ++ [k]) x = Ok v' ->
  nav v' p = Some (setOwn c k x).
Proof.
  revert v v'. induction p as [|a p IH]; intros v v' Ho Hn Ha.
  - simpl in Hn. injection Hn as ->. apply assign_single_inv in Ha. now subst.
  - destruct v; try discriminate. simpl in Ho, Hn.
    destruct (lookupKey a props) as [c0|] eqn:Hl; [|discriminate].
    change ((a :: p) ++ [k]) with (a :: (p ++ [k])) in Ha.
    destruct (p ++ [k]) as [|k' q] eqn:E; [now destruct p|].
    apply assign_cons_inv in Ha. destruct Ha as (c1 & c1' & Hg & Hc & ->).
    simpl in Hg. rewrite Hl in Hg. injection Hg as <-.
    cbn [nav getOwn setOwn]. rewrite lookup_setKey_same. now apply (IH c0 c1').
Qed.

(** *** Deletion *)

Lemma remove_ok (v : value) (q : path) :
  objsTo v q = true -> exists v', remove v q = Ok v'.
Proof.
  revert v. induction q as [|k q IH]; intros v H; [discriminate|].
  destruct v; try discriminate. simpl in *.
  destruct q as [|k' q']; [eauto|].
  destruct (lookupKey k props) as [c|]; [|discriminate].
  destruct (IH c H) as [c' Hc]. rewrite Hc. eauto.
Qed.

Lemma remove_nav_gone (v v' : value) (q r : path) :
  objsTo v q = true -> remove v q = Ok v' -> nav v' (q ++ r) = None.
Proof.
  revert v v'. induction q as [|k q IH]; intros v v' H Ha; [discriminate|].
  destruct v; try discriminate. simpl in H, Ha.
  destruct q as [|k' q'].
  - injection Ha as <-. simpl. now rewrite lookup_removeKey_same.
  - destruct (lookupKey k props) as [c|]; [|discriminate].
    destruct (remove c (k' :: q')) as [c'|e] eqn:Hc; [|discriminate].
    injection Ha as <-. cbn [app nav getOwn setOwn]. rewrite lookup_setKey_same.
    now apply (IH c c').
Qed.

Lemma remove_nav_diverge (v v' : value) (q r : path) :
  objsTo v q = true -> remove v q = Ok v' -> diverge r q = true ->
  nav v' r = nav v r.
Proof.
  revert v v' r. induction q as [|k q IH]; intros v v' r H Ha Hd; [discriminate|].
  destruct r as [|a r]; [discriminate|].
  destruct v; try discriminate. simpl in H, Ha, Hd.
  destruct q as [|k' q'].
  - injection Ha as <-. destruct (String.eqb a k) eqn:E; [now destruct r|].
    simpl. now rewrite lookup_removeKey_other.
  - destruct (lookupKey k props) as [c|] eqn:Hl; [|discriminate].
    destruct (remove c (k' :: q')) as [c'|e] eqn:Hc; [|discriminate].
    injection Ha as <-. cbn [nav getOwn]. destruct (String.eqb a k) eqn:E.
    + apply String.eqb_eq in E. subst a. rewrite lookup_setKey_same, Hl.
      now apply (IH c c').
    + now rewrite lookup_setKey_other.
Qed.

Lemma remove_objs_keep (v v' : value) (q r : path) :
  objsTo v q = true -> remove v q = Ok v' -> objs v r = true ->
  is_prefix q r = false -> objs v' r = true.
Proof.
  revert v v' r. induction q as [|k q IH]; intros v v' r H Ha Ho Hp; [discriminate|].
  destruct v; try discriminate. simpl in H, Ha.
  destruct q as [|k' q'].
  - injection Ha as <-. destruct r as [|a r]; [reflexivity|].
    simpl in *. destruct (String.eqb k a) eqn:E; [now destruct r|].
    rewrite lookup_removeKey_other; [exact Ho | now rewrite String.eqb_sym].
  - destruct (lookupKey k props) as [c|] eqn:Hl; [|discriminate].
    destruct (remove c (k' :: q')) as [c'|e] eqn:Hc; [|discriminate].
    injection Ha as <-. destruct r as [|a r]; [reflexivity|].
    cbn [is_prefix] in Hp. cbn [objs] in *.
    destruct (String.eqb k a) eqn:E.
    + apply String.eqb_eq in E. subst a. rewrite Hl in Ho.
      rewrite lookup_setKey_same. now apply (IH c c').
    + rewrite lookup_setKey_other; [exact Ho | now rewrite String.eqb_sym].
Qed.

End Paths.

(** ** The statements of the node program, one step at a time *)
Section Statements.
Import Node Synth SynthSpec.

Lemma bind_run {A B} (m : Node.t A) (k : A -> Node.t B) (v v' : value) (a : A) :
  m v = Ok (a, v') -> Node.bind m k v = k a v'.
Proof. intros H. unfold Node.bind. now rewrite H. Qed.

Lemma bind_assoc {A B C} (m : Node.t A) (f : A -> Node.t B) (g : B -> Node.t C)
    (v : value) :
  Node.bind (Node.bind m f) g v = Node.bind m (fun a => Node.bind (f a) g) v.
Proof. unfold Node.bind. destruct (m v) as [[a v']|e]; reflexivity. Qed.

Lemma bind_ret {A B} (a : A) (k : A -> Node.t B) (v : value) :
  Node.bind (Node.ret a) k v = k a v.
Proof. reflexivity. Qed.

Lemma is_prefix_app (q r : path) :
  is_prefix q r = true -> exists r', r = q ++ r'.
Proof.
  revert r. induction q as [|a q IH]; intros r H; [now exists r|].
  destruct r as [|b r]; [discriminate|]. simpl in H.
  apply andb_true_iff in H. destruct H as [E H]. apply String.eqb_eq in E. subst b.
  destruct (IH r H) as [r' ->]. now exists r'.
Qed.

Lemma diverge_sym (r q : path) : diverge r q = diverge q r.
Proof.
  revert q. induction r as [|a r IH]; intros [|b q]; simpl; try reflexivity.
  rewrite String.eqb_sym. now rewrite IH.
Qed.

Lemma slot_ok_same (v v' : value) (s : path) :
  nav v' s = nav v s -> slot_ok v' s = slot_ok v s.
Proof. unfold slot_ok. now intros ->. Qed.

Lemma objs_slot_ok (v : value) (s : path) : objs v s = true -> slot_ok v s = true.
Proof.
  intros H. unfold slot_ok. destruct (objs_nav v s H) as [props ->].
  apply orb_true_r.
Qed.

Lemma objsTo_objs (v : value) (q : path) (props : list (string * value)) :
  objsTo v q = true -> nav v q = Some (VObj props) -> objs v q = true.
Proof.
  revert v. induction q as [|k q IH]; intros v H Hn; [discriminate|].
  destruct v; try discriminate. simpl in *.
  destruct (lookupKey k props0) as [c|]; [|discriminate].
  destruct q as [|k' q']; [simpl in Hn; now injection Hn as ->|]. now apply IH.
Qed.

Lemma falsy_no_child (x : value) (k : string) (r : path) :
  truthy (Some x) = false -> nav x (k :: r) = None.
Proof. destruct x as [| [] | [] | [] | |]; simpl; congruence. Qed.

(** [config.path = x;] below a path of objects. *)
Lemma wr_spec (q : path) (x : value) (v : value) :
  objsTo v q = true ->
  exists v', wr q x v = Ok (tt, v')
    /\ (forall r, nav v' (q ++ r) = nav x r)
    /\ (forall r, objs x r = true -> objs v' (q ++ r) = true)
    /\ (forall r, diverge r q = true -> nav v' r = nav v r)
    /\ (forall r, objs v r = true -> is_prefix q r = false -> objs v' r = true)
    /\ (forall s, slot_ok v s = true -> diverge s q = true -> slot_ok v' s = true).
Proof.
  intros H. destruct (assign_ok v q x H) as [v' Ha]. exists v'.
  unfold wr. rewrite Ha. split; [reflexivity|].
  split; [intros r; now apply assign_nav_ext with (v := v)|].
  split; [intros r; now apply assign_objs_new with (v := v) (x := x)|].
  split; [intros r; now apply assign_nav_diverge with (q := q) (x := x)|].
  split; [intros r Ho Hp; now apply assign_objs_keep with (v := v) (q := q) (x := x)|].
  intros s Hs Hd. rewrite <- Hs. apply slot_ok_same.
  now apply assign_nav_diverge with (q := q) (x := x).
Qed.

(** [delete config.path;] below a path of objects. *)
Lemma del_spec (q : path) (v : value) :
  objsTo v q = true ->
  exists v', del q v = Ok (tt, v')
    /\ (forall r, nav v' (q ++ r) = None)
    /\ (forall r, diverge r q = true -> nav v' r = nav v r)
    /\ (forall r, objs v r = true -> is_prefix q r = false -> objs v' r = true)
    /\ (forall s, slot_ok v s = true -> diverge s q = true -> slot_ok v' s = true).
Proof.
  intros H. destruct (remove_ok v q H) as [v' Ha]. exists v'.
  unfold del. rewrite Ha. split; [reflexivity|].
  split; [intros r; now apply remove_nav_gone with (v := v)|].
  split; [intros r; now apply remove_nav_diverge with (q := q)|].
  split; [intros r Ho Hp; now apply remove_objs_keep with (v := v) (q := q)|].
  intros s Hs Hd. rewrite <- Hs. apply slot_ok_same.
  now apply remove_nav_diverge with (q := q).
Qed.

(** [config.path = config.path || {};] below a path of objects, on a slot
    that is missing, falsy or an object. *)
Lemma ensure_spec (q : path) (v : value) :
  objsTo v q = true -> slot_ok v q = true ->
  exists v', ensure q v = Ok (tt, v')
    /\ objs v' q = true
    /\ (forall r, is_prefix r q = false -> nav v' r = nav v r)
    /\ (forall r, objs v r = true -> objs v' r = true)
    /\ (forall s, slot_ok v s = true -> is_prefix s q = false -> slot_ok v' s = true).
Proof.
  intros H Hs. unfold ensure, rd, lift, Node.bind. rewrite (read_nav v q H).
  assert (Hcase : (exists props, nav v q = Some (VObj props))
                  \/ truthy (nav v q) = false).
  { unfold slot_ok in Hs. destruct (nav v q) as [x|]; [|now right].
    destruct (truthy (Some x)) eqn:Ht; [|now right].
    left. destruct x; simpl in Hs; try discriminate. eauto. }
  destruct Hcase as [[props Hn] | Hf].
  - exists v. rewrite Hn. cbn [orEmpty truthy]. unfold wr.
    rewrite (assign_id v q (VObj props) H Hn).
    split; [reflexivity|]. split; [now apply objsTo_objs with (props := props)|].
    repeat split; auto.
  - assert (Hor : orEmpty (nav v q) = VObj []).
    { destruct (nav v q) as [x|]; [|reflexivity]. unfold orEmpty. now rewrite Hf. }
    rewrite Hor. destruct (wr_spec q (VObj []) v H)
      as (v' & Hrun & Hnew & Hobj & Hdiv & Hkeep & Hslot).
    exists v'. split; [exact Hrun|].
    assert (Hnav : forall r, is_prefix r q = false -> nav v' r = nav v r).
    { intros r Hp. destruct (prefix_cases r q Hp) as [Hd | (k & r' & ->)].
      - now apply Hdiv.
      - rewrite Hnew, nav_app. simpl.
        destruct (nav v q) as [x|]; [|reflexivity].
        symmetry. now apply falsy_no_child. }
    split; [rewrite <- (app_nil_r q); now apply Hobj|].
    split; [exact Hnav|].
    split.
    + intros r Ho. apply Hkeep; [exact Ho|].
      destruct (is_prefix q r) eqn:Hp; [|reflexivity].
      destruct (is_prefix_app q r Hp) as [r' ->].
      apply objs_app in Ho. destruct (objs_nav v q Ho) as [props Hn].
      rewrite Hn in Hf. discriminate.
    + intros s Hok Hp. rewrite <- Hok. apply slot_ok_same. now apply Hnav.
Qed.

End Statements.

(** ** Frames, and the tactics that run the program symbolically *)
Section Frames.
Import Node Synth SynthSpec.

Lemma framed_refl (Q : path) (v : value) : framed Q v v.
Proof. split; auto. Qed.

Lemma framed_trans (Q : path) (v v' v'' : value) :
  framed Q v v' -> framed Q v' v'' -> framed Q v v''.
Proof.
  intros [Hn Ho] [Hn' Ho']. split.
  - intros r Hd. now rewrite Hn', Hn.
  - intros r H Hp. auto.
Qed.

Lemma diverge_below (r Q q : path) :
  diverge r Q = true -> is_prefix Q q = true -> diverge r q = true.
Proof.
  revert Q q. induction r as [|a r IH]; intros [|b Q] [|c q] Hd Hp;
    simpl in *; try discriminate.
  apply andb_true_iff in Hp. destruct Hp as [E Hp]. apply String.eqb_eq in E. subst c.
  destruct (String.eqb a b); [eauto | reflexivity].
Qed.

Lemma prefix_below (r Q q : path) :
  is_prefix Q r = false -> is_prefix Q q = true -> is_prefix q r = false.
Proof.
  revert r q. induction Q as [|b Q IH]; intros r q Hr Hq; [discriminate|].
  destruct q as [|c q]; [discriminate|]. simpl in Hq.
  apply andb_true_iff in Hq. destruct Hq as [E Hq]. apply String.eqb_eq in E. subst c.
  destruct r as [|a r]; [reflexivity|]. simpl in *.
  destruct (String.eqb b a); [simpl in *; eauto | reflexivity].
Qed.

Lemma diverge_prefix_false (r q : path) :
  diverge r q = true -> is_prefix r q = false.
Proof. intros H. apply diverge_not_prefix. now rewrite diverge_sym. Qed.

Lemma framed_weaken (Q q : path) (v v' : value) :
  is_prefix Q q = true -> framed q v v' -> framed Q v v'.
Proof.
  intros Hp [Hn Ho]. split.
  - intros r Hd. apply Hn. now apply diverge_below with (Q := Q).
  - intros r H Hr. apply Ho; [exact H|]. now apply prefix_below with (Q := Q).
Qed.

Lemma framed_slot (Q : path) (v v' : value) (s : path) :
  framed Q v v' -> slot_ok v s = true -> diverge s Q = true -> slot_ok v' s = true.
Proof.
  intros [Hn _] Hs Hd. rewrite <- Hs. apply slot_ok_same. now apply Hn.
Qed.

Lemma wr_framed (q : path) (x : value) (v : value) :
  objsTo v q = true ->
  exists v', wr q x v = Ok (tt, v') /\ nav v' q = Some x
             /\ (objs x [] = true -> objs v' q = true) /\ framed q v v'.
Proof.
  intros H. destruct (wr_spec q x v H) as (v' & Hrun & Hnew & Hno & Hnav & Hobjs & _).
  exists v'. split; [exact Hrun|].
  split; [rewrite <- (app_nil_r q); apply Hnew|].
  split; [intros Hx; rewrite <- (app_nil_r q); now apply Hno|].
  split; assumption.
Qed.

Lemma del_framed (q : path) (v : value) :
  objsTo v q = true ->
  exists v', del q v = Ok (tt, v') /\ nav v' q = None /\ framed q v v'.
Proof.
  intros H. destruct (del_spec q v H) as (v' & Hrun & Hnew & Hnav & Hobjs & _).
  exists v'. split; [exact Hrun|]. split; [|split; assumption].
  rewrite <- (app_nil_r q). apply Hnew.
Qed.

Lemma wr_parent (p : path) (k : string) (x : value) (v v' c : value) :
  objs v p = true -> nav v p = Some c -> wr (p ++ [k]) x v = Ok (tt, v') ->
  nav v' p = Some (setOwn c k x).
Proof.
  intros Ho Hn Hrun. unfold wr in Hrun.
  destruct (assign v (p ++ [k]) x) as [w|e] eqn:Ha; [|discriminate].
  injection Hrun as <-. now apply assign_nav_parent with (v := v).
Qed.

Lemma ensure_framed (q : path) (v v' : value) :
  (forall r, is_prefix r q = false -> nav v' r = nav v r) ->
  (forall r, objs v r = true -> objs v' r = true) ->
  framed q v v'.
Proof.
  intros Hn Ho. split; [|auto].
  intros r Hd. apply Hn. now apply diverge_prefix_false.
Qed.

Lemma objsTo_app (v : value) (p : path) (k : string) (r : path) :
  objsTo v (p ++ k :: r) = true -> objs v p = true.
Proof.
  revert v. induction p as [|a p IH]; intros v H.
  - destruct v; try discriminate. reflexivity.
  - destruct v; try discriminate. cbn [app objsTo objs] in *.
    destruct (p ++ k :: r) eqn:E; [now destruct p|].
    destruct (lookupKey a props); [eauto | discriminate].
Qed.

(** A frame below an object path that reaches no container keeps all
    containers as they may be. *)
Lemma framed_shaped (q : path) (v v' : value) :
  objsTo v q = true -> framed q v v' -> clearOfSlots q = true ->
  shaped v = true -> shaped v' = true.
Proof.
  intros Hq [Hn Ho] Hclear Hs. unfold shaped, clearOfSlots in *.
  rewrite forallb_forall in *. intros s Hin.
  specialize (Hclear s Hin). apply negb_true_iff in Hclear.
  destruct (prefix_cases q s Hclear) as [Hd | (k & r & ->)].
  - rewrite <- (Hs s Hin). apply slot_ok_same. apply Hn. now rewrite diverge_sym.
  - apply objs_slot_ok. apply Ho; [now apply objsTo_app with (k := k) (r := r)|].
    exact Hclear.
Qed.

(** [x = x || {}] keeps all containers as they may be. *)
Lemma ensure_shaped (q : path) (v v' : value) :
  objs v' q = true ->
  (forall s, slot_ok v s = true -> is_prefix s q = false -> slot_ok v' s = true) ->
  shaped v = true -> shaped v' = true.
Proof.
  intros Hobj Hslot Hs. unfold shaped in *. rewrite forallb_forall in *.
  intros s Hin. destruct (is_prefix s q) eqn:Hp.
  - destruct (is_prefix_app s q Hp) as [r ->].
    apply objs_slot_ok. now apply objs_app with (q := r).
  - apply Hslot; auto.
Qed.

End Frames.

(** A goal [objsTo v q = true] from the hypothesis on the parent path. *)
Ltac parent_objs :=
  apply objsTo_parent; [discriminate | cbn [removelast]; assumption].

(** Move every fact about the state [v] over a frame to the state [v'];
    facts that do not cross are dropped. *)
Ltac carry_framed v v' Hfr :=
  repeat match goal with
    | H : SynthSpec.objs v ?r = true |- _ =>
        first [ assert (SynthSpec.objs v' r = true)
                  by (apply (proj2 Hfr r H); reflexivity)
              | idtac ];
        clear H
    | H : SynthSpec.slot_ok v ?s = true |- _ =>
        first [ assert (SynthSpec.slot_ok v' s = true)
                  by (apply (framed_slot _ v v' s Hfr H); reflexivity)
              | idtac ];
        clear H
    | H : SynthSpec.nav v ?r = ?X |- _ =>
        first [ assert (SynthSpec.nav v' r = X)
                  by (rewrite (proj1 Hfr r) by reflexivity; exact H)
              | idtac ];
        clear H
    end.

(** The same over an [x = x || {}] step, which also keeps what lies below
    the slot. *)
Ltac carry_ensure v v' Hnav Hobjs Hslot :=
  repeat match goal with
    | H : SynthSpec.objs v ?r = true |- _ =>
        assert (SynthSpec.objs v' r = true) by (exact (Hobjs r H));
        clear H
    | H : SynthSpec.slot_ok v ?s = true |- _ =>
        first [ assert (SynthSpec.slot_ok v' s = true)
                  by (apply (Hslot s H); reflexivity)
              | idtac ];
        clear H
    | H : SynthSpec.nav v ?r = ?X |- _ =>
        first [ assert (SynthSpec.nav v' r = X)
                  by (rewrite (Hnav r) by reflexivity; exact H)
              | idtac ];
        clear H
    end.

(** Prolong the running frame [framed Q v0 v], if there is one, to [v']. *)
Ltac extend_frame v Hstep :=
  try match goal with
    | Hacc : SynthSpec.framed ?Q ?v0 v |- _ =>
        lazymatch type of Hstep with
        | SynthSpec.framed ?q _ ?v' =>
            let H := fresh "Hacc" in
            pose proof (framed_trans Q v0 v v' Hacc
                          (framed_weaken Q q v v' eq_refl Hstep)) as H;
            clear Hacc
        end
    end.

(** Move the fact [shaped v = true], if there is one, to the next state by
    the proof [step Hall] builds from it. *)
Ltac keep_shaped v step :=
  try match goal with
    | Hall : SynthSpec.shaped v = true |- _ =>
        let H := fresh "Hall" in
        let pf := step Hall in
        pose proof pf as H; clear Hall
    end.

(** What a statement [wr q x] or [ensure q] does to the facts about [v]. *)
Ltac run_wr q x v k :=
  let v' := fresh "v" in
  let Hrun := fresh "Hrun" in
  let Hnew := fresh "Hnew" in
  let Hno := fresh "Hno" in
  let Hfr := fresh "Hfr" in
  destruct (wr_framed q x v ltac:(parent_objs)) as (v' & Hrun & Hnew & Hno & Hfr);
  k v' Hrun;
  keep_shaped v ltac:(fun Hall =>
    constr:(framed_shaped q v v' ltac:(parent_objs) Hfr eq_refl Hall));
  extend_frame v Hfr;
  carry_framed v v' Hfr; clear Hfr;
  first [ specialize (Hno eq_refl) | clear Hno ].

Ltac run_ensure q v k :=
  let v' := fresh "v" in
  let Hrun := fresh "Hrun" in
  let Hobj := fresh "Hobj" in
  let Hnav := fresh "Hnav" in
  let Hobjs := fresh "Hobjs" in
  let Hslot := fresh "Hslot" in
  destruct (ensure_spec q v ltac:(parent_objs) ltac:(assumption))
    as (v' & Hrun & Hobj & Hnav & Hobjs & Hslot);
  k v' Hrun;
  keep_shaped v ltac:(fun Hall => constr:(ensure_shaped q v v' Hobj Hslot Hall));
  extend_frame v (ensure_framed q v v' Hnav Hobjs);
  carry_ensure v v' Hnav Hobjs Hslot; clear Hnav Hobjs Hslot.

(** Run the statement in head position of the program applied to [v]. *)
Ltac step :=
  repeat (rewrite bind_assoc || rewrite bind_ret); cbv beta;
  lazymatch goal with
  | |- context [Node.bind (Node.wr ?q ?x) _ ?v] =>
      run_wr q x v ltac:(fun v' Hrun =>
        rewrite (bind_run _ _ v v' tt Hrun); clear Hrun; cbv beta)
  | |- context [Node.bind (Synth.ensure ?q) _ ?v] =>
      run_ensure q v ltac:(fun v' Hrun =>
        rewrite (bind_run _ _ v v' tt Hrun); clear Hrun; cbv beta)
  end.

(** Run a statement [wr (p ++ [k]) x] in head position and record what the
    object at [p] has become. *)
Ltac step_parent :=
  repeat (rewrite bind_assoc || rewrite bind_ret); cbv beta;
  lazymatch goal with
  | |- context [Node.bind (Node.wr ?q ?x) _ ?v] =>
      let p := eval cbn [removelast] in (removelast q) in
      let k := eval cbn [List.last] in (List.last q EmptyString) in
      lazymatch goal with
      | Hp : SynthSpec.nav v p = Some ?c, Ho : SynthSpec.objs v p = true |- _ =>
          let Hpar := fresh "Hpar" in
          run_wr q x v ltac:(fun v' Hrun =>
            pose proof (wr_parent p k x v v' c Ho Hp Hrun) as Hpar;
            rewrite (bind_run _ _ v v' tt Hrun); clear Hrun; cbv beta)
      end
  end.

(** The same for the last statement of a program: the goal is
    [exists v', m v = Ok (tt, v') /\ _]. *)
Ltac last_step :=
  repeat (rewrite bind_assoc || rewrite bind_ret); cbv beta;
  lazymatch goal with
  | |- exists _, Node.wr ?q ?x ?v = _ /\ _ =>
      run_wr q x v ltac:(fun v' Hrun => exists v'; split; [exact Hrun|]; clear Hrun)
  | |- exists _, Synth.ensure ?q ?v = _ /\ _ =>
      run_ensure q v ltac:(fun v' Hrun => exists v'; split; [exact Hrun|]; clear Hrun)
  | |- exists _, Node.ret tt ?v = _ /\ _ =>
      exists v; split; [reflexivity|]
  end.

Section Sections.
Import Node Synth SynthSpec.

(** "Gateway configuration": succeeds once [gateway] is an object, and
    touches nothing outside it. *)
Lemma gatewaySection_ok (env : ProcessEnv) (v : value) :
  objs v ["gateway"] = true ->
  slot_ok v ["gateway"; "auth"] = true ->
  slot_ok v ["gateway"; "controlUi"] = true ->
  shaped v = true ->
  exists v', gatewaySection env v = Ok (tt, v') /\ framed ["gateway"] v v'
             /\ shaped v' = true.
Proof.
  intros O S1 S2 Hall. pose proof (framed_refl ["gateway"] v) as Hacc.
  unfold gatewaySection, when. step. step. step.
  destruct (truthyS (CLAWDBOT_GATEWAY_TOKEN env)).
  - rewrite bind_assoc. step. step.
    destruct (match CLAWDBOT_DEV_MODE env with Some _ => _ | None => _ end).
    + step. last_step. split; assumption.
    + last_step. split; assumption.
  - rewrite bind_ret.
    destruct (match CLAWDBOT_DEV_MODE env with Some _ => _ | None => _ end).
    + step. last_step. split; assumption.
    + last_step. split; assumption.
Qed.

(** "Telegram configuration". *)
Lemma telegramSection_ok (env : ProcessEnv) (v : value) :
  objs v ["channels"] = true ->
  slot_ok v ["channels"; "telegram"] = true ->
  shaped v = true ->
  exists v', telegramSection env v = Ok (tt, v') /\ framed ["channels"; "telegram"] v v'
             /\ shaped v' = true.
Proof.
  intros O S1 Hall. pose proof (framed_refl ["channels"; "telegram"] v) as Hacc.
  unfold telegramSection, when. cbv zeta.
  destruct (truthyS (TELEGRAM_BOT_TOKEN env)); [|last_step; split; assumption].
  step. step. step. step.
  destruct (truthyS (TELEGRAM_DM_ALLOW_FROM env)); [last_step; split; assumption|].
  destruct (String.eqb _ "open"); last_step; split; assumption.
Qed.

(** "Discord configuration". *)
Lemma discordSection_ok (env : ProcessEnv) (v : value) :
  objs v ["channels"] = true ->
  slot_ok v ["channels"; "discord"] = true ->
  slot_ok v ["channels"; "discord"; "dm"] = true ->
  shaped v = true ->
  exists v', discordSection env v = Ok (tt, v') /\ framed ["channels"; "discord"] v v'
             /\ shaped v' = true.
Proof.
  intros O S1 S2 Hall. pose proof (framed_refl ["channels"; "discord"] v) as Hacc.
  unfold discordSection, when. cbv zeta.
  destruct (truthyS (DISCORD_BOT_TOKEN env)); [|last_step; split; assumption].
  step. step. step. step. step.
  destruct (String.eqb _ "open"); last_step; split; assumption.
Qed.

(** "Slack configuration". *)
Lemma slackSection_ok (env : ProcessEnv) (v : value) :
  objs v ["channels"] = true ->
  slot_ok v ["channels"; "slack"] = true ->
  shaped v = true ->
  exists v', slackSection env v = Ok (tt, v') /\ framed ["channels"; "slack"] v v'
             /\ shaped v' = true.
Proof.
  intros O S1 Hall. pose proof (framed_refl ["channels"; "slack"] v) as Hacc.
  unfold slackSection, when.
  destruct (truthyS (SLACK_BOT_TOKEN env) && truthyS (SLACK_APP_TOKEN env));
    [|last_step; split; assumption].
  step. step. step. last_step. split; assumption.
Qed.

(** *** The clean-up of a broken anthropic block *)

Lemma readOpt_none (p : path) : readOpt None p = None.
Proof. now destruct p. Qed.

Lemma readOpt_sub (v : value) (k : string) (p : path) :
  readOpt (nav v [k]) p = nav v (k :: p).
Proof.
  simpl. destruct (getOwn v k) as [c|]; [apply readOpt_nav | apply readOpt_none].
Qed.

Lemma someMissingName_total (elems : list value) :
  forallb nonNull elems = true -> exists b, someMissingName elems = Ok b.
Proof.
  induction elems as [|m rest IH]; simpl; [eauto|].
  intros H. apply andb_true_iff in H. destruct H as [Hm Hrest].
  destruct (IH Hrest) as [b Hb].
  destruct m; try discriminate; simpl;
    try (destruct (truthy _); eauto); eauto.
Qed.

(** Below an object path, a slot through which a longer path leads to a
    value is itself an object. *)
Lemma slot_descend (v : value) (p : path) (k k' : string) (r : path) (y : value) :
  objs v p = true -> slot_ok v (p ++ [k]) = true ->
  nav v (p ++ [k] ++ k' :: r) = Some y ->
  objs v (p ++ [k]) = true.
Proof.
  intros Ho Hs Hn. rewrite app_assoc, nav_app in Hn. unfold slot_ok in Hs.
  destruct (nav v (p ++ [k])) as [x|] eqn:Hx; [|discriminate].
  destruct (truthy (Some x)) eqn:Ht.
  - destruct x; simpl in Hs; try discriminate.
    apply objsTo_objs with (props := props); [now apply objsTo_snoc | exact Hx].
  - rewrite (falsy_no_child x k' r Ht) in Hn. discriminate.
Qed.

Lemma purge_ok (v : value) :
  objs v [] = true ->
  slot_ok v ["models"] = true ->
  slot_ok v ["models"; "providers"] = true ->
  scannable v = true ->
  shaped v = true ->
  exists v', purgeBrokenAnthropic v = Ok (tt, v')
    /\ framed ["models"; "providers"; "anthropic"] v v'
    /\ nav v' ["models"; "providers"; "anthropic"]
       = (if brokenAnthropic v then None else nav v ["models"; "providers"; "anthropic"])
    /\ slot_ok v' ["models"] = true
    /\ slot_ok v' ["models"; "providers"] = true
    /\ shaped v' = true.
Proof.
  intros Hroot S1 S2 Hscan Hall.
  unfold purgeBrokenAnthropic, rd, lift.
  rewrite (bind_run _ _ v v (nav v ["models"]));
    [|now rewrite (read_nav v ["models"]) by (now destruct v)].
  rewrite readOpt_sub. unfold brokenAnthropic, scannable in *.
  destruct (nav v ["models"; "providers"; "anthropic"; "models"]) as [ms|] eqn:Hms;
    [|exists v; repeat split; auto].
  destruct (truthy (Some ms)) eqn:Ht; [|exists v; repeat split; auto].
  simpl in Hscan. destruct ms as [| | | | elems props |]; try discriminate.
  unfold hasInvalidModels.
  destruct (lookupKey "some" props); [discriminate|].
  destruct (someMissingName_total elems Hscan) as [b Hb].
  unfold Node.bind. rewrite Hb. simpl andb.
  destruct b; [|exists v; repeat split; auto].
  assert (O1 : objs v ["models"] = true).
  { apply (slot_descend v [] "models" "providers" ["anthropic"; "models"]
             (VArr elems props)); assumption. }
  assert (O2 : objs v ["models"; "providers"] = true).
  { apply (slot_descend v ["models"] "providers" "anthropic" ["models"]
             (VArr elems props)); assumption. }
  destruct (del_framed ["models"; "providers"; "anthropic"] v ltac:(parent_objs))
    as (v' & Hrun & Hgone & Hfr).
  exists v'. split; [exact Hrun|]. split; [exact Hfr|]. split; [exact Hgone|].
  split; [apply objs_slot_ok; now apply (proj2 Hfr)|].
  split; [apply objs_slot_ok; now apply (proj2 Hfr)|].
  apply (framed_shaped ["models"; "providers"; "anthropic"] v v');
    [parent_objs | exact Hfr | reflexivity | exact Hall].
Qed.

(** *** The provider cascade *)

(** The facts gathered by the symbolic run close the goal of the cascade. *)
Ltac finish_provider :=
  repeat match goal with |- _ /\ _ => split end;
  try assumption;
  [ let K := fresh "K" in
    let HK := fresh "HK" in
    intros K HK; destruct K; cbn [providerKey]; congruence
  | repeat constructor; cbn [fst snd]; assumption ].

Lemma providerSection_ok (env : ProcessEnv) (v : value) :
  objs v ["agents"; "defaults"; "model"] = true ->
  slot_ok v ["models"] = true ->
  slot_ok v ["models"; "providers"] = true ->
  slot_ok v ["agents"; "defaults"; "models"] = true ->
  shaped v = true ->
  exists v', providerSection env v = Ok (tt, v')
    /\ shaped v' = true
    /\ objs v' ["models"; "providers"] = true
    /\ objs v' ["agents"; "defaults"; "models"] = true
    /\ objs v' ["agents"; "defaults"; "model"] = true
    /\ block v' (selected env) = Some (newBlock env)
    /\ (forall K, K <> selected env -> block v' K = block v K)
    /\ primary v' = Some (VStr (primaryModel env))
    /\ Forall (fun e => allowed v' (fst e) = Some (aliasValue (snd e))) (aliases env).
Proof.
  intros O S1 S2 S3 Hall.
  assert (Hroot : objs v [] = true) by exact (objs_app v [] _ O).
  assert (Hdef : objs v ["agents"; "defaults"] = true)
    by exact (objs_app v ["agents"; "defaults"] ["model"] O).
  remember (block v anthropic) as oa eqn:Ea.
  remember (block v openai) as oo eqn:Eo.
  remember (block v google) as og eqn:Eg.
  unfold block in Ea, Eo, Eg. cbn [providerKey] in Ea, Eo, Eg.
  pose proof (eq_sym Ea) as Na. pose proof (eq_sym Eo) as No.
  pose proof (eq_sym Eg) as Ng.
  unfold providerSection, selected, newBlock, aliases, primaryModel, defaultPrimary,
    block, primary, allowed, googleBranch, openaiBranch, anthropicBranch,
    setPrimary, allow, googleModels, openaiModels, anthropicModels, Node.when.
  cbn [Node.forEach flat_map List.map app providerKey]. cbv zeta.
  destruct (isGoogle env); [destruct (Str.endsWith (baseUrl env) "/openai")|].
  - step. step. step. step. step. step. step. step. step. step.
    destruct (truthyS (CF_AI_GATEWAY_MODEL env)); last_step; finish_provider.
  - step. step. step.
    destruct (truthyS (OPENAI_API_KEY env)).
    + cbv iota. step_parent. step. step. step. step.
      destruct (truthyS (CF_AI_GATEWAY_MODEL env)); last_step; finish_provider.
    + cbv iota. step. step. step. step.
      destruct (truthyS (CF_AI_GATEWAY_MODEL env)); last_step; finish_provider.
  - destruct (isOpenAI env).
    + step. step. step. step. step. step. step.
      destruct (truthyS (CF_AI_GATEWAY_MODEL env)); last_step; finish_provider.
    + step. step. step. step. step. step. step. step.
      destruct (truthyS (CF_AI_GATEWAY_MODEL env)); last_step; finish_provider.
Qed.

(** *** The whole program *)

Ltac after_section v v' Hrun Hfr :=
  rewrite (bind_run _ _ v v' tt Hrun); clear Hrun; cbv beta;
  carry_framed v v' Hfr; clear Hfr;
  try match goal with H : SynthSpec.shaped v = true |- _ => clear H end.

(** Run a section of the program in head position by its lemma, which
    takes two or three facts about the state besides its shape. *)
Ltac run_section2 lemma :=
  repeat (rewrite bind_assoc || rewrite bind_ret); cbv beta;
  lazymatch goal with
  | |- context [Node.bind _ _ ?v] =>
      let v' := fresh "v" in
      let Hrun := fresh "Hrun" in
      let Hfr := fresh "Hfr" in
      let Hall := fresh "Hall" in
      destruct (lemma v ltac:(assumption) ltac:(assumption) ltac:(assumption))
        as (v' & Hrun & Hfr & Hall);
      after_section v v' Hrun Hfr
  end.

Ltac run_section3 lemma :=
  repeat (rewrite bind_assoc || rewrite bind_ret); cbv beta;
  lazymatch goal with
  | |- context [Node.bind _ _ ?v] =>
      let v' := fresh "v" in
      let Hrun := fresh "Hrun" in
      let Hfr := fresh "Hfr" in
      let Hall := fresh "Hall" in
      destruct (lemma v ltac:(assumption) ltac:(assumption) ltac:(assumption)
                  ltac:(assumption))
        as (v' & Hrun & Hfr & Hall);
      after_section v v' Hrun Hfr
  end.

Lemma objs_nil (v : value) : objs v [] = isObj v.
Proof. now destruct v. Qed.

Ltac split_ands :=
  repeat match goal with
    | H : _ && _ = true |- _ => apply andb_true_iff in H; destruct H
    | H : true = true |- _ => clear H
    end.

(** On a document of the expected shape, "ensure nested objects exist" and
    the clean-up run to their end; the anthropic block is then what the
    clean-up keeps of it, the two other blocks are untouched. *)
Lemma prelude_ok (config : value) :
  wellShaped config = true ->
  exists mid, Node.bind ensureNested (fun _ => purgeBrokenAnthropic) config = Ok (tt, mid)
    /\ ready mid = true
    /\ shaped mid = true
    /\ block mid anthropic = kept config anthropic
    /\ block mid openai = block config openai
    /\ block mid google = block config google.
Proof.
  intros Hwf.
  assert (Hall : shaped config = true).
  { unfold wellShaped in Hwf. apply andb_true_iff in Hwf. destruct Hwf as [Hwf _].
    apply andb_true_iff in Hwf. tauto. }
  unfold wellShaped in Hwf. unfold shaped at 1 in Hwf. unfold slots in Hwf.
  cbn [forallb] in Hwf. split_ands.
  match goal with H : isObj config = true |- _ => rewrite <- objs_nil in H end.
  remember (nav config ["models"; "providers"; "openai"]) as oo eqn:Eo.
  remember (nav config ["models"; "providers"; "google"]) as og eqn:Eg.
  remember (nav config ["models"; "providers"; "anthropic"]) as oa eqn:Ea.
  remember (nav config ["models"; "providers"; "anthropic"; "models"]) as om eqn:Em.
  pose proof (eq_sym Eo) as No. pose proof (eq_sym Eg) as Ng.
  pose proof (eq_sym Ea) as Na. pose proof (eq_sym Em) as Nm.
  assert (Hbroken : forall w, nav w ["models"; "providers"; "anthropic"; "models"] = om ->
                              brokenAnthropic w = brokenAnthropic config
                              /\ scannable w = scannable config).
  { intros w Hw. unfold brokenAnthropic, scannable. now rewrite Hw, Em. }
  match goal with H : scannable config = true |- _ => rename H into Hscan end.
  unfold kept, block. cbn [providerKey]. rewrite <- Ea, <- Eo, <- Eg.
  unfold ensureNested.
  step. step. step. step. step.
  match goal with
  | |- exists _, purgeBrokenAnthropic ?v = _ /\ _ =>
      destruct (Hbroken v ltac:(assumption)) as [Hb Hs];
      rewrite <- Hs in Hscan;
      destruct (purge_ok v ltac:(assumption) ltac:(assumption) ltac:(assumption) Hscan
                  ltac:(assumption))
        as (w & Hrun & Hfr & Hanth & S1 & S2 & Hall');
      exists w; split; [exact Hrun|]; clear Hrun;
      rewrite Hb in Hanth;
      match goal with Hn : nav v ["models"; "providers"; "anthropic"] = oa |- _ =>
        rewrite Hn in Hanth
      end;
      carry_framed v w Hfr; clear Hfr Hs Hb
  end.
  split; [|repeat split; assumption].
  unfold ready. cbn [forallb].
  repeat (apply andb_true_iff; split); try reflexivity; assumption.
Qed.

(** From there the remaining sections run to their end; the block of the
    selected provider is the freshly built one, every other provider block is
    as the clean-up left it, and the primary model and the allowlist entries
    of the branch are set. *)
Lemma afterCleanUp_ok (env : ProcessEnv) (mid : value) :
  ready mid = true ->
  shaped mid = true ->
  exists v', afterCleanUp env mid = Ok (tt, v')
    /\ shaped v' = true
    /\ objs v' ["models"; "providers"] = true
    /\ objs v' ["agents"; "defaults"; "models"] = true
    /\ objs v' ["agents"; "defaults"; "model"] = true
    /\ block v' (selected env) = Some (newBlock env)
    /\ (forall K, K <> selected env -> block v' K = block mid K)
    /\ primary v' = Some (VStr (primaryModel env))
    /\ Forall (fun e => allowed v' (fst e) = Some (aliasValue (snd e))) (aliases env).
Proof.
  intros Hready Hall. unfold ready in Hready. cbn [forallb] in Hready. split_ands.
  remember (nav mid ["models"; "providers"; "openai"]) as oo eqn:Eo.
  remember (nav mid ["models"; "providers"; "google"]) as og eqn:Eg.
  remember (nav mid ["models"; "providers"; "anthropic"]) as oa eqn:Ea.
  pose proof (eq_sym Eo) as No. pose proof (eq_sym Eg) as Ng.
  pose proof (eq_sym Ea) as Na.
  unfold afterCleanUp.
  run_section3 (gatewaySection_ok env).
  run_section2 (telegramSection_ok env).
  run_section3 (discordSection_ok env).
  run_section2 (slackSection_ok env).
  match goal with
  | |- exists _, providerSection env ?v = _ /\ _ =>
      destruct (providerSection_ok env v ltac:(assumption) ltac:(assumption)
                  ltac:(assumption) ltac:(assumption) ltac:(assumption))
        as (v' & Hrun & P0 & P1 & P2 & P3 & P4 & P5 & P6 & P7)
  end.
  exists v'. repeat match goal with |- _ /\ _ => split end; try assumption.
  intros K HK. rewrite (P5 K HK). unfold block.
  destruct K; cbn [providerKey]; congruence.
Qed.

Lemma updateConfig_split (env : ProcessEnv) (config mid : value) :
  Node.bind ensureNested (fun _ => purgeBrokenAnthropic) config = Ok (tt, mid) ->
  updateConfig env config = afterCleanUp env mid.
Proof.
  intros H. unfold updateConfig.
  transitivity (Node.bind (Node.bind ensureNested (fun _ => purgeBrokenAnthropic))
                  (fun _ => afterCleanUp env) config).
  - now rewrite bind_assoc.
  - now rewrite (bind_run _ _ config mid tt H).
Qed.

(** On a document of the expected shape the program runs to its end. *)
Lemma updateConfig_ok (env : ProcessEnv) (config : value) :
  wellShaped config = true ->
  exists v', updateConfig env config = Ok (tt, v')
    /\ shaped v' = true
    /\ objs v' ["models"; "providers"] = true
    /\ objs v' ["agents"; "defaults"; "models"] = true
    /\ objs v' ["agents"; "defaults"; "model"] = true
    /\ block v' (selected env) = Some (newBlock env)
    /\ (forall K, K <> selected env -> block v' K = kept config K)
    /\ primary v' = Some (VStr (primaryModel env))
    /\ Forall (fun e => allowed v' (fst e) = Some (aliasValue (snd e))) (aliases env).
Proof.
  intros Hwf.
  destruct (prelude_ok config Hwf) as (mid & Hpre & Hready & Hall & Ka & Ko & Kg).
  destruct (afterCleanUp_ok env mid Hready Hall)
    as (v' & Hrun & P0 & P1 & P2 & P3 & P4 & P5 & P6 & P7).
  exists v'. rewrite (updateConfig_split env config mid Hpre).
  repeat match goal with |- _ /\ _ => split end; try assumption.
  intros K HK. rewrite (P5 K HK). destruct K; assumption.
Qed.

(** *** The written document *)

Lemma lookup_toJSON (k : string) (props : list (string * value)) :
  lookupKey k (List.map (fun kv => let '(k, x) := kv in (k, toJSON x)) props)
  = option_map toJSON (lookupKey k props).
Proof.
  induction props as [|[k' x] rest IH]; simpl; [reflexivity|].
  destruct (String.eqb k k'); [reflexivity | exact IH].
Qed.

Lemma toJSON_nav (v : value) (q : path) :
  objsTo v q = true -> nav (toJSON v) q = option_map toJSON (nav v q).
Proof.
  revert v. induction q as [|k q IH]; intros v H; [discriminate|].
  destruct v; try discriminate. cbn [toJSON nav getOwn]. rewrite lookup_toJSON.
  cbn [objsTo] in H. destruct q as [|k' q'].
  - now destruct (lookupKey k props).
  - destruct (lookupKey k props) as [c|]; [|discriminate]. cbn [option_map].
    now apply IH.
Qed.

Lemma toJSON_isObj (v : value) : isObj (toJSON v) = isObj v.
Proof. now destruct v. Qed.

Lemma toJSON_newBlock (env : ProcessEnv) : toJSON (newBlock env) = newBlock env.
Proof.
  unfold newBlock, anthropicBlock.
  repeat match goal with |- context [if ?b then _ else _] => destruct b end;
    reflexivity.
Qed.

Lemma newBlock_isObj (env : ProcessEnv) : isObj (newBlock env) = true.
Proof.
  unfold newBlock, anthropicBlock.
  repeat match goal with |- context [if ?b then _ else _] => destruct b end;
    reflexivity.
Qed.

Lemma toJSON_truthy (x : value) : truthy (Some (toJSON x)) = truthy (Some x).
Proof. now destruct x. Qed.

Lemma toJSON_nonNull (x : value) : nonNull (toJSON x) = nonNull x.
Proof. now destruct x. Qed.

Lemma toJSON_nav_plain (v : value) (q : path) :
  plainTo v q = true -> nav (toJSON v) q = option_map toJSON (nav v q).
Proof.
  revert v. induction q as [|k q IH]; intros v H; [reflexivity|].
  destruct v; try discriminate; try reflexivity.
  cbn [toJSON nav getOwn plainTo] in *. rewrite lookup_toJSON.
  destruct (lookupKey k props) as [c|]; [now apply IH | reflexivity].
Qed.

Lemma toJSON_slot (v : value) (s : path) :
  plainTo v s = true -> slot_ok (toJSON v) s = slot_ok v s.
Proof.
  intros H. unfold slot_ok. rewrite (toJSON_nav_plain v s H).
  destruct (nav v s) as [x|]; [|reflexivity]. cbn [option_map].
  now rewrite toJSON_truthy, toJSON_isObj.
Qed.

(** Containers that are missing, falsy or objects all the way leave no
    array on the path. *)
Lemma plainTo_along (v : value) (q above : path) (c : value) :
  nav v above = Some c ->
  isObj c || negb (truthy (Some c)) = true ->
  alongOk v above q = true ->
  plainTo c q = true.
Proof.
  revert above c. induction q as [|k q IH]; intros above c Hc Hshape Hq; [reflexivity|].
  destruct c; try reflexivity; try discriminate.
  cbn [plainTo]. destruct (lookupKey k props) as [c'|] eqn:Hl; [|reflexivity].
  destruct q as [|k' q']; [reflexivity|].
  cbn [alongOk] in Hq. apply andb_true_iff in Hq. destruct Hq as [Hs Hq].
  assert (Hc' : nav v (above ++ [k]) = Some c').
  { rewrite nav_app, Hc. simpl. now rewrite Hl. }
  apply (IH (above ++ [k]) c' Hc'); [|exact Hq].
  unfold slot_ok in Hs. rewrite Hc' in Hs. now rewrite orb_comm.
Qed.

Lemma shaped_toJSON (v : value) :
  isObj v = true -> shaped v = true -> shaped (toJSON v) = true.
Proof.
  intros Hobj Hs. unfold shaped in *. rewrite forallb_forall in *.
  intros s Hin. rewrite toJSON_slot; [now apply Hs|].
  apply (plainTo_along v s [] v eq_refl); [now rewrite Hobj|].
  unfold slots in Hin. cbn [In] in Hin.
  repeat match goal with
    | H : _ \/ _ |- _ => destruct H as [<- | H]
    | H : False |- _ => destruct H
    end;
    cbn [alongOk app];
    repeat (apply andb_true_iff; split); try reflexivity;
    apply Hs; unfold slots; cbn [In]; tauto.
Qed.

Lemma scannable_block (v : value) :
  scannable v = scanBlock (nav v ["models"; "providers"; "anthropic"]).
Proof.
  unfold scannable, scanBlock.
  change ["models"; "providers"; "anthropic"; "models"]
    with (["models"; "providers"; "anthropic"] ++ ["models"]).
  rewrite nav_app. destruct (nav v ["models"; "providers"; "anthropic"]) as [x|];
    [|reflexivity].
  cbn [nav]. now destruct (getOwn x "models").
Qed.

Lemma scanBlock_toJSON (b : option value) :
  scanBlock b = true -> scanBlock (option_map toJSON b) = true.
Proof.
  destruct b as [x|]; [|reflexivity]. cbn [option_map scanBlock].
  destruct x; try reflexivity. cbn [toJSON getOwn]. rewrite lookup_toJSON.
  destruct (lookupKey "models" props) as [ms|]; [|reflexivity]. cbn [option_map].
  rewrite toJSON_truthy. destruct (truthy (Some ms)); [|reflexivity].
  cbn [negb orb]. destruct ms; try discriminate. cbn [toJSON lookupKey].
  destruct (lookupKey "some" props0); [discriminate|].
  intros H. rewrite forallb_forall in *. intros y Hy.
  apply in_map_iff in Hy. destruct Hy as (x & <- & Hx).
  rewrite toJSON_nonNull. now apply H.
Qed.

Lemma scanBlock_newBlock (env : ProcessEnv) : scanBlock (Some (newBlock env)) = true.
Proof.
  unfold newBlock, anthropicBlock.
  repeat match goal with |- context [if ?b then _ else _] => destruct b end;
    reflexivity.
Qed.

Lemma scanBlock_kept (config : value) :
  scannable config = true -> scanBlock (kept config anthropic) = true.
Proof.
  intros H. unfold kept. destruct (brokenAnthropic config); [reflexivity|].
  unfold block. cbn [providerKey]. now rewrite <- scannable_block.
Qed.

(** The document the program writes for a configuration of the expected
    shape. *)
Lemma synthesize_ok (env : ProcessEnv) (config : value) :
  wellShaped config = true ->
  exists out, synthesize env (Some config) = Ok out
    /\ wellShaped out = true
    /\ block out (selected env) = Some (newBlock env)
    /\ (forall K, K <> selected env -> block out K = option_map toJSON (kept config K))
    /\ primary out = Some (VStr (primaryModel env))
    /\ Forall (fun e => allowed out (fst e) = Some (aliasValue (snd e))) (aliases env).
Proof.
  intros Hwf.
  destruct (updateConfig_ok env config Hwf)
    as (v' & Hrun & P0 & P1 & P2 & P3 & P4 & P5 & P6 & P7).
  exists (toJSON v'). unfold synthesize, loadConfig. rewrite Hrun.
  split; [reflexivity|].
  assert (Hblock : forall K, block (toJSON v') K = option_map toJSON (block v' K)).
  { intros K. unfold block. apply toJSON_nav. apply objsTo_parent; [discriminate|].
    exact P1. }
  assert (Hroot : isObj v' = true).
  { rewrite <- objs_nil. exact (objs_app v' [] _ P1). }
  split.
  { unfold wellShaped. rewrite toJSON_isObj, Hroot, (shaped_toJSON v' Hroot P0).
    cbn [andb]. rewrite scannable_block.
    change (nav (toJSON v') ["models"; "providers"; "anthropic"])
      with (block (toJSON v') anthropic).
    rewrite Hblock. apply scanBlock_toJSON.
    assert (Hscan : scannable config = true).
    { unfold wellShaped in Hwf. apply andb_true_iff in Hwf. tauto. }
    destruct (selected env) eqn:Hsel;
      try (rewrite P5 by (rewrite ?Hsel; discriminate); now apply scanBlock_kept).
    rewrite P4. apply scanBlock_newBlock. }
  split; [rewrite Hblock, P4; cbn [option_map]; now rewrite toJSON_newBlock|].
  split; [intros K HK; now rewrite Hblock, (P5 K HK)|].
  split.
  - unfold primary in *. rewrite toJSON_nav, P6; [reflexivity|].
    apply objsTo_parent; [discriminate | exact P3].
  - eapply Forall_impl; [exact P7|]. intros [key m] Ha. cbn [fst snd] in *.
    unfold allowed in *. rewrite toJSON_nav, Ha; [reflexivity|].
    apply objsTo_parent; [discriminate | exact P2].
Qed.

(** *** The tests of the cascade *)

Lemma endsWith_openai_not_google (s : string) :
  Str.endsWith s "/openai" = true -> Str.endsWith s "/google" = false.
Proof.
  induction s as [|c s IH]; [discriminate|].
  cbn [Str.endsWith].
  destruct (String.eqb (String c s) "/openai") eqn:E1.
  - intros _. apply String.eqb_eq in E1. injection E1 as -> ->. reflexivity.
  - intros H. destruct (String.eqb (String c s) "/google") eqn:E2.
    + apply String.eqb_eq in E2. injection E2 as -> ->. discriminate H.
    + now apply IH.
Qed.

Lemma isGoogle_by_model (env : ProcessEnv) :
  CF_AI_GATEWAY_MODEL env = Some "google/gemini-3-flash" -> isGoogle env = true.
Proof.
  intros H. unfold isGoogle, modelStartsWith. rewrite H. apply orb_true_r.
Qed.

Lemma no_google_hint (env : ProcessEnv) :
  Str.endsWith (baseUrl env) "/openai" = true ->
  Str.includes (baseUrl env) "gemini" = false ->
  modelStartsWith env "google/" = false ->
  isGoogle env = false.
Proof.
  intros H1 H2 H3. unfold isGoogle.
  now rewrite (endsWith_openai_not_google _ H1), H2, H3.
Qed.

Lemma nothing_configured (env : ProcessEnv) :
  AI_GATEWAY_BASE_URL env = None -> ANTHROPIC_BASE_URL env = None ->
  CF_AI_GATEWAY_MODEL env = None ->
  isGoogle env = false /\ isOpenAI env = false /\ truthyS (CF_AI_GATEWAY_MODEL env) = false.
Proof.
  intros H1 H2 H3. unfold isGoogle, isOpenAI, modelStartsWith, baseUrl.
  rewrite H1, H2, H3. repeat split.
Qed.

(** The expected shape is kept from run to run: what the program writes
    for a configuration of that shape has that shape again; and so have the
    empty configuration and the minimal one the script creates. *)
Lemma synthesize_keeps_shape (env : ProcessEnv) (config : value) :
  wellShaped config = true ->
  exists out, synthesize env (Some config) = Ok out /\ wellShaped out = true.
Proof.
  intros Hwf. destruct (synthesize_ok env config Hwf) as (out & Hrun & Hshape & _).
  eauto.
Qed.

Lemma synthesize_keeps_shape_witness :
  exists out, synthesize emptyEnv (Some restoredConfig) = Ok out /\ wellShaped out = true.
Proof. apply synthesize_keeps_shape. reflexivity. Defined.

Example shape_samples :
  wellShaped (VObj []) = true /\ wellShaped skeleton = true
  /\ wellShaped restoredConfig = true /\ wellShaped brokenConfig = true
  /\ wellShaped (VObj [("gateway", VNum 5)]) = false
  /\ wellShaped (VArr [] []) = false.
Proof. repeat split. Qed.

End Sections.

(** ** Config synthesis *)
Section Synthesis.
Import Node Synth SynthSpec.

(** The three rows of the decision table on sample inputs. *)
Example classification_samples :
  (exists out, synthesize (gatewayEnv (Some "google/gemini-3-flash")) (Some skeleton) = Ok out
     /\ block out openai
        = Some (providerBlock "https://gateway.ai.cloudflare.com/v1/acc/gw/openai"
                  "openai-responses" googleModels)
     /\ allowed out "google/gemini-3-flash" = Some (VObj [("alias", VStr "Gemini 3 Flash")])
     /\ allowed out "openai/google/gemini-3-flash" = Some (VObj [("alias", VStr "Gemini 3 Flash")])
     /\ populatedCount out = 1)
  /\ (exists out, synthesize (gatewayEnv None) (Some skeleton) = Ok out
        /\ block out openai
           = Some (providerBlock "https://gateway.ai.cloudflare.com/v1/acc/gw/openai"
                     "openai-responses" openaiModels)
        /\ primary out = Some (VStr "openai/gpt-5.2"))
  /\ (exists out, synthesize emptyEnv (Some skeleton) = Ok out
        /\ block out anthropic
           = Some (providerBlock "https://api.anthropic.com" "anthropic-messages"
                     anthropicModels)
        /\ primary out = Some (VStr "anthropic/claude-sonnet-4-5-20250929")
        /\ populatedCount out = 1).
Proof.
  split; [|split]; eexists; (split; [vm_compute; reflexivity|]);
    vm_compute; repeat split.
Qed.

(** C6 does not hold as stated: starting from a configuration restored
    from a backup of a run that had selected OpenAI, a run without any
    provider variable leaves two populated blocks, [anthropic] and [openai]. *)
Lemma two_blocks_after_restore :
  wellShaped restoredConfig = true
  /\ exists out, synthesize emptyEnv (Some restoredConfig) = Ok out
       /\ populated out anthropic = true
       /\ populated out openai = true
       /\ populatedCount out = 2.
Proof.
  split; [reflexivity|]. eexists. split; [vm_compute; reflexivity|].
  vm_compute. auto.
Qed.

Lemma count_one (doc : value) (K : Provider) :
  populated doc K = true ->
  (forall K', K' <> K -> populated doc K' = false) ->
  populatedCount doc = 1.
Proof.
  intros HK Hother. unfold populatedCount.
  destruct K; cbn [List.filter];
    rewrite HK; rewrite !Hother by discriminate; reflexivity.
Qed.

(** C8 does not hold as stated: with no provider variable set, the
    [openai] and [google] blocks whose model entry has no name are written
    back as they were; only the [anthropic] one is gone (replaced by the
    fresh block). *)
Lemma invalid_blocks_survive :
  wellShaped brokenConfig = true
  /\ hasInvalidModels (VArr [VObj [("id", VStr "some-model")]] []) = Ok true
  /\ exists out, synthesize emptyEnv (Some brokenConfig) = Ok out
       /\ block out openai = Some oldBlock
       /\ block out google = Some oldBlock
       /\ block out anthropic <> Some oldBlock.
Proof.
  split; [reflexivity|]. split; [reflexivity|].
  eexists. split; [vm_compute; reflexivity|].
  vm_compute. repeat split; try reflexivity. discriminate.
Qed.

(** The clean-up on the sample: the broken anthropic block is deleted, and
    with OpenAI selected the written document has no anthropic block. *)
Example purge_sample :
  brokenAnthropic brokenConfig = true
  /\ exists out, synthesize (gatewayEnv None) (Some brokenConfig) = Ok out
       /\ block out anthropic = None
       /\ block out google = Some oldBlock.
Proof.
  split; [reflexivity|]. eexists. split; [vm_compute; reflexivity|].
  vm_compute. auto.
Qed.

End Synthesis.

(** ** The orchestrator: outcome and trace of every run *)

Section GatewayOutcome.
Import Env Gateway GatewaySpec GatewayCover.

Lemma logCalls_app (a b : list event) : logCalls (a ++ b) = logCalls a + logCalls b.
Proof. unfold logCalls. now rewrite List.filter_app, length_app. Qed.

Lemma logCalls_loop (sandbox : Sandbox) (ps : list Process) :
  logCalls (flat_map (killOneTrace sandbox) ps) = 0.
Proof.
  induction ps as [|p ps IH]; [reflexivity|].
  change (flat_map (killOneTrace sandbox) (p :: ps))
    with (killOneTrace sandbox p ++ flat_map (killOneTrace sandbox) ps).
  rewrite logCalls_app, IH. unfold killOneTrace.
  now destruct (kill sandbox p).
Qed.

Lemma logCalls_cleanUp (sandbox : Sandbox) (ps : list Process) :
  logCalls (cleanUpTrace sandbox ps) = 0.
Proof.
  unfold cleanUpTrace. destruct ps as [|p ps]; [reflexivity|].
  change (logCalls (flat_map (killOneTrace sandbox) (p :: ps) ++ [EvSleep 2000]) = 0).
  now rewrite logCalls_app, logCalls_loop.
Qed.

Lemma logCalls_discovery (sandbox : Sandbox) : logCalls (discoveryTrace sandbox) = 0.
Proof. unfold discoveryTrace. now destruct (listProcesses sandbox). Qed.

(** The readiness wait from a trace without log readings. *)
Lemma awaitReady_run (cfg : Settings) (sandbox : Sandbox) (p : Process)
    (tr : list event) :
  logCalls tr = 0 ->
  awaitReady cfg sandbox p tr
  = (match waitForPort sandbox p (MOLTBOT_PORT cfg) (STARTUP_TIMEOUT_MS cfg) with
     | Throw e => Throw e
     | Ok _ => match getLogs sandbox p 0 with
               | Throw e => Throw e
               | Ok _ => Ok tt
               end
     end,
     tr ++ readinessTrace cfg sandbox p).
Proof.
  intros Htr.
  unfold awaitReady, readinessTrace, failureTrace, callGetLogs, log, logError,
    Prog.try_catch, Prog.bind, Prog.call, Prog.emit, Prog.throw, Prog.when, Prog.ret.
  destruct (waitForPort sandbox p _ _) as [[]|e]; cbv beta iota.
  - rewrite !logCalls_app, Htr. cbn [logCalls List.filter length Nat.add].
    destruct (getLogs sandbox p 0) as [l|e]; cbv beta iota.
    + destruct (String.eqb (stdout l) EmptyString), (String.eqb (stderr l) EmptyString);
        cbn [negb]; cbv iota; now rewrite <- ?app_assoc.
    + rewrite !logCalls_app, Htr. cbn [logCalls List.filter length Nat.add].
      destruct (getLogs sandbox p 1); cbv beta iota; now rewrite <- ?app_assoc.
  - rewrite !logCalls_app, Htr. cbn [logCalls List.filter length Nat.add].
    destruct (getLogs sandbox p 0); cbv beta iota; now rewrite <- ?app_assoc.
Qed.

(** A run of [ensureMoltbotGateway], result and trace, for every platform. *)
Lemma ensure_run (cfg : Settings) (sandbox : Sandbox) (env : MoltbotEnv) :
  Prog.run (ensureMoltbotGateway cfg sandbox env)
  = (outcome cfg sandbox env, ensureTrace cfg sandbox env).
Proof.
  unfold outcome, ensureTrace, Prog.run, ensureMoltbotGateway.
  unfold Prog.bind at 1. unfold Prog.call at 1.
  destruct (mountR2Storage sandbox) as [[]|e]; [|reflexivity].
  unfold Prog.bind at 1. rewrite findExisting_run.
  unfold Prog.bind at 1. rewrite cleanUp_run.
  unfold log, Prog.bind at 1 2 3, Prog.emit. cbv beta iota zeta.
  unfold launch, Prog.try_catch, Prog.bind at 1 2 3, Prog.call. cbv zeta.
  fold (launchEnv env).
  destruct (startProcess sandbox _ (launchEnv env)) as [process|e]; cbv beta iota.
  - unfold log at 1, Prog.emit, Prog.ret at 1. cbv beta iota.
    unfold Prog.bind at 1. rewrite awaitReady_run.
    + destruct (waitForPort sandbox process _ _) as [[]|e]; cbv beta iota.
      * destruct (getLogs sandbox process 0) as [l|e]; cbv beta iota.
        -- unfold Prog.bind, log, Prog.emit, Prog.ret. f_equal.
           cbn [app]. rewrite <- !app_assoc. cbn [app]. reflexivity.
        -- f_equal. cbn [app]. rewrite <- !app_assoc. cbn [app].
           now rewrite app_nil_r.
      * f_equal. cbn [app]. rewrite <- !app_assoc. cbn [app].
        destruct (getLogs sandbox process 0); now rewrite app_nil_r.
    + rewrite !logCalls_app, logCalls_cleanUp, logCalls_discovery. reflexivity.
  - unfold logError, Prog.emit, Prog.throw. f_equal.
    cbn [app]. rewrite <- !app_assoc. cbn [app]. reflexivity.
Qed.

(** X1. What [ensureMoltbotGateway] answers, for every platform: the first
    failure among the storage mount, the start of the launch script, the wait
    for the port and the first reading of the logs, and else the process that
    the start returned. The listing and the kills have no part in it; a failed
    reading of the logs fails the call although the port answered, and a failed
    wait is reported by its own error whatever the logs say. *)
Theorem ensure_outcome (cfg : Settings) (sandbox : Sandbox) (env : MoltbotEnv) :
  fst (Prog.run (ensureMoltbotGateway cfg sandbox env))
  = match mountR2Storage sandbox with
    | Throw e => Throw e
    | Ok _ =>
        match startProcess sandbox "/usr/local/bin/start-moltbot.sh" (launchEnv env) with
        | Throw e => Throw e
        | Ok process =>
            match waitForPort sandbox process (MOLTBOT_PORT cfg) (STARTUP_TIMEOUT_MS cfg) with
            | Throw e => Throw e
            | Ok _ =>
                match getLogs sandbox process 0 with
                | Throw e => Throw e
                | Ok _ => Ok process
                end
            end
        end
    end.
Proof. rewrite ensure_run. cbn [fst]. reflexivity. Qed.


Lemma readinessOf_app (a b : list event) :
  readinessOf (a ++ b) = readinessOf a ++ readinessOf b.
Proof. unfold readinessOf. apply List.filter_app. Qed.

Lemma readinessOf_loop (sandbox : Sandbox) (ps : list Process) :
  readinessOf (flat_map (killOneTrace sandbox) ps) = [].
Proof.
  induction ps as [|p ps IH]; [reflexivity|].
  change (flat_map (killOneTrace sandbox) (p :: ps))
    with (killOneTrace sandbox p ++ flat_map (killOneTrace sandbox) ps).
  rewrite readinessOf_app, IH. unfold killOneTrace.
  now destruct (kill sandbox p).
Qed.

Lemma readinessOf_cleanUp (sandbox : Sandbox) (ps : list Process) :
  readinessOf (cleanUpTrace sandbox ps) = [].
Proof.
  unfold cleanUpTrace. destruct ps as [|p ps]; [reflexivity|].
  change (readinessOf (flat_map (killOneTrace sandbox) (p :: ps) ++ [EvSleep 2000]) = []).
  now rewrite readinessOf_app, readinessOf_loop.
Qed.

Lemma readinessOf_discovery (sandbox : Sandbox) :
  readinessOf (discoveryTrace sandbox) = [].
Proof. unfold discoveryTrace. now destruct (listProcesses sandbox). Qed.

(** The events of the readiness wait all name the process waited for. *)
Lemma readinessTrace_names (cfg : Settings) (sandbox : Sandbox) (p : Process)
    (ev : event) :
  In ev (readinessOf (readinessTrace cfg sandbox p)) ->
  ev = EvWaitForPort (id p) (MOLTBOT_PORT cfg) (STARTUP_TIMEOUT_MS cfg)
  \/ ev = EvGetLogs (id p).
Proof.
  unfold readinessTrace, failureTrace.
  destruct (waitForPort sandbox p _ _) as [[]|e].
  - destruct (getLogs sandbox p 0) as [l|e].
    + destruct (String.eqb (stdout l) EmptyString), (String.eqb (stderr l) EmptyString);
        cbn; intuition.
    + destruct (getLogs sandbox p 1); cbn; intuition.
  - destruct (getLogs sandbox p 0); cbn; intuition.
Qed.

(** The readiness wait kills nothing, starts nothing and does not pause. *)
Lemma readinessTrace_quiet (cfg : Settings) (sandbox : Sandbox) (p : Process) :
  killsOf (readinessTrace cfg sandbox p) = []
  /\ startsOf (readinessTrace cfg sandbox p) = []
  /\ ~ In (EvSleep 2000) (readinessTrace cfg sandbox p).
Proof.
  unfold readinessTrace, failureTrace.
  destruct (waitForPort sandbox p _ _) as [[]|e].
  - destruct (getLogs sandbox p 0) as [l|e].
    + destruct (String.eqb (stdout l) EmptyString), (String.eqb (stderr l) EmptyString);
        cbn; intuition discriminate.
    + destruct (getLogs sandbox p 1); cbn; intuition discriminate.
  - destruct (getLogs sandbox p 0); cbn; intuition discriminate.
Qed.

(** X2. A platform that cannot list its processes does not stop the
    orchestration: discovery answers the empty list after one console line and
    throws nothing, the legacy wrapper answers [null], and the orchestrator
    kills nothing, skips the pause and still starts the launch script. *)
Theorem listing_failure_is_swallowed (cfg : Settings) (sandbox : Sandbox)
    (env : MoltbotEnv) (e : exn) :
  listProcesses sandbox = Throw e ->
  Prog.run (findExistingMoltbotProcesses sandbox)
  = (Ok [], [EvListProcesses; EvLog "Could not list processes:"])
  /\ Prog.run (findExistingMoltbotProcess sandbox)
     = (Ok None, [EvListProcesses; EvLog "Could not list processes:"])
  /\ (mountR2Storage sandbox = Ok tt ->
      killsOf (snd (Prog.run (ensureMoltbotGateway cfg sandbox env))) = []
      /\ ~ In (EvSleep 2000) (snd (Prog.run (ensureMoltbotGateway cfg sandbox env)))
      /\ startsOf (snd (Prog.run (ensureMoltbotGateway cfg sandbox env)))
         = ["/usr/local/bin/start-moltbot.sh"]).
Proof.
  intros Hlist.
  assert (Hfind : forall tr, findExistingMoltbotProcesses sandbox tr
                             = (Ok [], tr ++ [EvListProcesses; EvLog "Could not list processes:"])).
  { intros tr. rewrite findExisting_run. unfold discovered, discoveryTrace.
    now rewrite Hlist. }
  split; [exact (Hfind [])|]. split.
  - unfold Prog.run, findExistingMoltbotProcess, Prog.bind. now rewrite Hfind.
  - intros Hmount. rewrite ensure_run. cbn [snd].
    unfold ensureTrace, discoveryTrace, discovered. rewrite Hmount, Hlist.
    cbn [cleanUpTrace app].
    destruct (startProcess sandbox _ _) as [p|e'].
    + destruct (readinessTrace_quiet cfg sandbox p) as (Hk & Hs & Hsl).
      cbn [killsOf startsOf flat_map app].
      fold (killsOf (readinessTrace cfg sandbox p
                       ++ match waitForPort sandbox p (MOLTBOT_PORT cfg) (STARTUP_TIMEOUT_MS cfg),
                                getLogs sandbox p 0 with
                          | Ok _, Ok _ => [EvLog "[Gateway] Verifying gateway health..."]
                          | _, _ => []
                          end)).
      fold (startsOf (readinessTrace cfg sandbox p
                       ++ match waitForPort sandbox p (MOLTBOT_PORT cfg) (STARTUP_TIMEOUT_MS cfg),
                                getLogs sandbox p 0 with
                          | Ok _, Ok _ => [EvLog "[Gateway] Verifying gateway health..."]
                          | _, _ => []
                          end)).
      rewrite killsOf_app, startsOf_app, Hk, Hs.
      split; [|split].
      * now destruct (waitForPort sandbox p _ _) as [[]|?], (getLogs sandbox p 0).
      * cbn [In]. rewrite in_app_iff.
        destruct (waitForPort sandbox p _ _) as [[]|?], (getLogs sandbox p 0);
          cbn [In]; intuition discriminate.
      * now destruct (waitForPort sandbox p _ _) as [[]|?], (getLogs sandbox p 0).
    + cbn. intuition discriminate.
Qed.

Lemma listing_failure_is_swallowed_witness :
  Prog.run (findExistingMoltbotProcesses brokenSandbox)
  = (Ok [], [EvListProcesses; EvLog "Could not list processes:"])
  /\ Prog.run (findExistingMoltbotProcess brokenSandbox)
     = (Ok None, [EvListProcesses; EvLog "Could not list processes:"])
  /\ (mountR2Storage brokenSandbox = Ok tt ->
      killsOf (snd (Prog.run (ensureMoltbotGateway sampleSettings brokenSandbox noEnv))) = []
      /\ ~ In (EvSleep 2000)
             (snd (Prog.run (ensureMoltbotGateway sampleSettings brokenSandbox noEnv)))
      /\ startsOf (snd (Prog.run (ensureMoltbotGateway sampleSettings brokenSandbox noEnv)))
         = ["/usr/local/bin/start-moltbot.sh"]).
Proof.
  apply (listing_failure_is_swallowed sampleSettings brokenSandbox noEnv
           (Error "listProcesses failed")).
  reflexivity.
Defined.

(** X3. The orchestrator waits for a port and reads logs only on the process it
    has just started: every such event of a run names the identifier of the
    process that [startProcess] returned in that run, and there is none when
    the storage mount or the start has failed. No process found by discovery is
    ever waited for. *)
Theorem readiness_only_on_started_process (cfg : Settings) (sandbox : Sandbox)
    (env : MoltbotEnv) (ev : event) :
  In ev (readinessOf (snd (Prog.run (ensureMoltbotGateway cfg sandbox env)))) ->
  exists process,
    mountR2Storage sandbox = Ok tt
    /\ startProcess sandbox "/usr/local/bin/start-moltbot.sh" (launchEnv env) = Ok process
    /\ (ev = EvWaitForPort (id process) (MOLTBOT_PORT cfg) (STARTUP_TIMEOUT_MS cfg)
        \/ ev = EvGetLogs (id process)).
Proof.
  rewrite ensure_run. cbn [snd]. unfold ensureTrace.
  destruct (mountR2Storage sandbox) as [[]|e]; [|intros []].
  change (EvMount :: ?l) with ([EvMount] ++ l).
  rewrite !readinessOf_app, readinessOf_discovery, readinessOf_cleanUp.
  cbn [readinessOf List.filter app].
  destruct (startProcess sandbox _ _) as [process|e]; [|intros []].
  intros Hin. exists process. split; [reflexivity|]. split; [reflexivity|].
  change (EvLog ?m :: ?l) with ([EvLog m] ++ l) in Hin.
  rewrite !readinessOf_app in Hin. cbn [readinessOf List.filter app] in Hin.
  apply in_app_or in Hin. destruct Hin as [Hin | Hin].
  - now apply (readinessTrace_names cfg sandbox process).
  - destruct (waitForPort sandbox process _ _) as [[]|?], (getLogs sandbox process 0);
      now cbn in Hin.
Qed.

Lemma readiness_only_on_started_process_witness :
  exists process,
    mountR2Storage sampleSandbox = Ok tt
    /\ startProcess sampleSandbox "/usr/local/bin/start-moltbot.sh" (launchEnv noEnv)
       = Ok process
    /\ (EvGetLogs "new"
        = EvWaitForPort (id process) (MOLTBOT_PORT sampleSettings)
            (STARTUP_TIMEOUT_MS sampleSettings)
        \/ EvGetLogs "new" = EvGetLogs (id process)).
Proof.
  apply (readiness_only_on_started_process sampleSettings sampleSandbox noEnv
           (EvGetLogs "new")).
  vm_compute. tauto.
Defined.

(** X4. The launch script is the only command started, and it is never given an
    empty environment object: [startProcess] receives [undefined] when the
    reconciler produced no variable, and the reconciler's map otherwise. *)
Theorem launch_environment (cfg : Settings) (sandbox : Sandbox) (env : MoltbotEnv)
    (cmd : string) (given : option (gmap string string)) :
  In (EvStartProcess cmd given) (snd (Prog.run (ensureMoltbotGateway cfg sandbox env))) ->
  cmd = "/usr/local/bin/start-moltbot.sh"
  /\ match given with
     | None => buildEnvVars env = ∅
     | Some envVars => envVars = buildEnvVars env /\ envVars <> ∅
     end.
Proof.
  rewrite ensure_run. cbn [snd]. unfold ensureTrace. intros Hin.
  assert (Hgiven : cmd = "/usr/local/bin/start-moltbot.sh" /\ given = launchEnv env).
  { destruct Hin as [Hin|Hin]; [discriminate|].
    destruct (mountR2Storage sandbox) as [[]|e]; [|destruct Hin].
    rewrite !in_app_iff in Hin. destruct Hin as [Hin|[Hin|[Hin|Hin]]].
    - unfold discoveryTrace in Hin.
      destruct (listProcesses sandbox); cbn in Hin; intuition discriminate.
    - exfalso. unfold cleanUpTrace in Hin.
      destruct (discovered sandbox) as [|p ps]; [destruct Hin|].
      destruct Hin as [Hin|Hin]; [discriminate|].
      rewrite in_app_iff in Hin. destruct Hin as [Hin|Hin];
        [|cbn in Hin; intuition discriminate].
      apply in_flat_map in Hin. destruct Hin as (q & _ & Hin).
      unfold killOneTrace, killFailureLine in Hin.
      destruct (kill sandbox q); cbn in Hin; intuition discriminate.
    - cbn in Hin. intuition; try discriminate; congruence.
    - exfalso. destruct (startProcess sandbox _ _) as [process|e];
        [|cbn in Hin; intuition discriminate].
      destruct Hin as [Hin|Hin]; [discriminate|].
      rewrite in_app_iff in Hin. destruct Hin as [Hin|Hin].
      + assert (Hs : In cmd (startsOf (readinessTrace cfg sandbox process))).
        { unfold startsOf. apply in_flat_map. eexists. split; [exact Hin|]. now left. }
        rewrite (proj1 (proj2 (readinessTrace_quiet cfg sandbox process))) in Hs.
        destruct Hs.
      + destruct (waitForPort sandbox process _ _) as [[]|?], (getLogs sandbox process 0);
          cbn in Hin; intuition discriminate. }
  destruct Hgiven as [-> ->]. split; [reflexivity|].
  unfold launchEnv. destruct (Nat.ltb 0 (size (buildEnvVars env))) eqn:Hsize.
  - split; [reflexivity|]. intros Hempty. rewrite Hempty, map_size_empty in Hsize.
    discriminate.
  - apply map_size_empty_iff. apply Nat.ltb_ge in Hsize. lia.
Qed.

Lemma launch_environment_witness :
  "/usr/local/bin/start-moltbot.sh" = "/usr/local/bin/start-moltbot.sh"
  /\ buildEnvVars noEnv = ∅.
Proof.
  apply (launch_environment sampleSettings sampleSandbox noEnv
           "/usr/local/bin/start-moltbot.sh" None).
  vm_compute. tauto.
Defined.

(** X5. The legacy wrapper answers the first process of the discovery, in the
    platform's order, whose status is [running] or [starting], and [null] when
    there is none: a gateway process that has exited or was killed is never
    answered, nor one that discovery leaves out. *)
Theorem legacy_wrapper_first_active (sandbox : Sandbox) :
  exists answer,
    fst (Prog.run (findExistingMoltbotProcess sandbox)) = Ok answer
    /\ match answer with
       | Some p =>
           exists earlier later,
             discovered sandbox = earlier ++ p :: later
             /\ isActive p = true
             /\ forallb (fun q => negb (isActive q)) earlier = true
       | None => forallb (fun q => negb (isActive q)) (discovered sandbox) = true
       end.
Proof.
  unfold Prog.run, findExistingMoltbotProcess, Prog.bind. rewrite findExisting_run.
  unfold Prog.ret. cbn [fst]. eexists. split; [reflexivity|].
  fold isActive. change (fun p => isActive p) with isActive.
  induction (discovered sandbox) as [|q qs IH]; [reflexivity|].
  cbn [find]. destruct (isActive q) eqn:Hq.
  - exists [], qs. auto.
  - destruct (find isActive qs) as [p|].
    + destruct IH as (earlier & later & -> & Hp & Hearlier).
      exists (q :: earlier), later. cbn [forallb]. rewrite Hq. auto.
    + cbn [forallb]. now rewrite Hq.
Qed.

End GatewayOutcome.

(** ** The reconciler: what reaches the container *)

Section StringFacts.

Lemma eqb_length (a b : string) : String.eqb a b = true -> String.length a = String.length b.
Proof. intros H. apply String.eqb_eq in H. now subst. Qed.

Lemma length_append (a b : string) :
  String.length (a +:+ b) = String.length a + String.length b.
Proof. induction a as [|c a IH]; simpl; [reflexivity | now rewrite IH]. Qed.

Lemma endsWith_cons (c : ascii) (s suf : string) :
  Str.endsWith (String c s) suf
  = if String.eqb (String c s) suf then true else Str.endsWith s suf.
Proof. reflexivity. Qed.

(** A suffix no longer than the second part is looked for in that part. *)
Lemma endsWith_append (s t suf : string) :
  String.length suf <= String.length t ->
  Str.endsWith (s +:+ t) suf = Str.endsWith t suf.
Proof.
  intros Hlen. induction s as [|c s IH]; [reflexivity|].
  change (String c s +:+ t) with (String c (s +:+ t)). rewrite endsWith_cons.
  destruct (String.eqb (String c (s +:+ t)) suf) eqn:E; [|exact IH].
  apply eqb_length in E. cbn [String.length] in E. rewrite length_append in E. lia.
Qed.

Lemma strip_empty_or (s : string) :
  Str.stripTrailingSlashes s = EmptyString
  \/ exists c r, Str.stripTrailingSlashes s = String c r.
Proof. destruct (Str.stripTrailingSlashes s) as [|c r]; eauto. Qed.

(** What is left after the trailing slashes are dropped ends with none. *)
Lemma strip_no_trailing_slash (s : string) :
  Str.endsWith (Str.stripTrailingSlashes s) "/" = false.
Proof.
  induction s as [|c s IH]; [reflexivity|].
  cbn [Str.stripTrailingSlashes].
  destruct (Str.stripTrailingSlashes s) as [|c' r] eqn:E.
  - destruct (Ascii.eqb c "/") eqn:Ec; [reflexivity|].
    rewrite endsWith_cons. cbn [String.eqb]. rewrite Ec. reflexivity.
  - rewrite endsWith_cons, IH.
    cbn [String.eqb]. destruct (Ascii.eqb c "/"); reflexivity.
Qed.

(** Dropping the trailing slashes a second time changes nothing. *)
Lemma strip_idempotent (s : string) :
  Str.stripTrailingSlashes (Str.stripTrailingSlashes s) = Str.stripTrailingSlashes s.
Proof.
  induction s as [|c s IH]; [reflexivity|].
  cbn [Str.stripTrailingSlashes].
  destruct (Str.stripTrailingSlashes s) as [|c' r] eqn:E.
  - destruct (Ascii.eqb c "/") eqn:Ec; [reflexivity|].
    cbn [Str.stripTrailingSlashes]. now rewrite Ec.
  - cbn [Str.stripTrailingSlashes]. cbn [Str.stripTrailingSlashes] in IH.
    now rewrite IH.
Qed.

(** A string whose last part is kept by the normalization is kept too. *)
Lemma strip_append (s t : string) :
  Str.stripTrailingSlashes t = t -> t <> EmptyString ->
  Str.stripTrailingSlashes (s +:+ t) = s +:+ t /\ s +:+ t <> EmptyString.
Proof.
  intros Ht Hne. induction s as [|c s [IH IHne]]; [now split|].
  change (String c s +:+ t) with (String c (s +:+ t)). split; [|discriminate].
  cbn [Str.stripTrailingSlashes]. rewrite IH.
  destruct (s +:+ t); [congruence | reflexivity].
Qed.

Lemma endsWith_nonempty (s suf : string) :
  suf <> EmptyString -> Str.endsWith s suf = true -> s <> EmptyString.
Proof.
  intros Hsuf H ->. cbn in H. destruct suf; [congruence | discriminate].
Qed.

End StringFacts.

Section ReconcilerCover.
Import Env EnvSpec EnvCover.

Lemma truthyS_nonempty (v : option string) (s : string) :
  v = Some s -> truthyS v = true -> s <> EmptyString.
Proof. intros -> H ->. discriminate. Qed.

Lemma clean_empty : clean ∅.
Proof. intros name value H. rewrite lookup_empty in H. discriminate. Qed.

Lemma clean_setIf (name : string) (v : option string) (m : gmap string string) :
  In name forwarded -> clean m -> clean (setIf name v m).
Proof.
  intros Hin Hm k value. unfold setIf. destruct v as [s|]; [|apply Hm].
  destruct (truthyS (Some s)) eqn:Ht; [|apply Hm].
  destruct (decide (name = k)) as [<-|Hne].
  - rewrite lookup_insert_eq. intros [= <-]. split; [exact Hin|].
    now apply (truthyS_nonempty (Some s)).
  - rewrite lookup_insert_ne by exact Hne. apply Hm.
Qed.

Lemma clean_setIfUnset (name : string) (v : option string) (m : gmap string string) :
  In name forwarded -> clean m -> clean (setIfUnset name v m).
Proof.
  intros Hin Hm. unfold setIfUnset. destruct (negb _); [|exact Hm].
  now apply clean_setIf.
Qed.

Lemma clean_buildEnvVars (env : MoltbotEnv) : clean (buildEnvVars env).
Proof.
  unfold buildEnvVars, passThrough, passBaseUrl, fallbackKeys, routeApiKey. cbv zeta.
  repeat match goal with
         | |- clean (setIf _ _ _) => apply clean_setIf; [unfold forwarded; cbn [In]; tauto|]
         | |- clean (setIfUnset _ _ _) =>
             apply clean_setIfUnset; [unfold forwarded; cbn [In]; tauto|]
         | |- clean (if ?b then _ else _) => destruct b
         | |- clean ∅ => apply clean_empty
         end.
Qed.

(** X6. Only the listed names are ever set, and never to the empty string:
    whatever the worker's bindings are, the variables handed to the container
    are among the eighteen forwarded names, so that [E2E_TEST_MODE], the
    Cloudflare Access settings and the gateway identifier are never passed on,
    the gateway token and the dev-mode flag only under their [CLAWDBOT_] names,
    and a binding that is the empty string is left out. *)
Theorem forwarded_names_only (env : MoltbotEnv) (name value : string) :
  buildEnvVars env !! name = Some value ->
  In name forwarded /\ value <> EmptyString.
Proof. intros H. exact (clean_buildEnvVars env name value H). Qed.

Lemma forwarded_names_only_witness :
  In "CLAWDBOT_GATEWAY_TOKEN" forwarded /\ "secret" <> EmptyString.
Proof.
  apply (forwarded_names_only accessEnv "CLAWDBOT_GATEWAY_TOKEN" "secret").
  vm_compute. reflexivity.
Defined.


(** The map before the pass-through block holds nothing under a name of
    that block. *)
Lemma keys_and_urls_only (env : MoltbotEnv) (k : string) :
  k <> "OPENAI_API_KEY" -> k <> "ANTHROPIC_API_KEY" -> k <> "AI_GATEWAY_BASE_URL" ->
  k <> "OPENAI_BASE_URL" -> k <> "ANTHROPIC_BASE_URL" ->
  passBaseUrl env (fallbackKeys env (routeApiKey env ∅)) !! k = None.
Proof.
  intros H1 H2 H3 H4 H5.
  unfold passBaseUrl, fallbackKeys, routeApiKey. cbv zeta.
  repeat match goal with |- context [if ?b then _ else _] => destruct b end;
    repeat first [ rewrite setIf_lookup_ne by congruence
                 | rewrite setIfUnset_lookup_ne by congruence ];
    apply lookup_empty.
Qed.

(** The keys leave the map empty under the names of the base URL. *)
Lemma keys_only (env : MoltbotEnv) (k : string) :
  k <> "OPENAI_API_KEY" -> k <> "ANTHROPIC_API_KEY" ->
  fallbackKeys env (routeApiKey env ∅) !! k = None.
Proof.
  intros H1 H2. unfold fallbackKeys, routeApiKey. cbv zeta.
  repeat match goal with |- context [if ?b then _ else _] => destruct b end;
    repeat first [ rewrite setIf_lookup_ne by congruence
                 | rewrite setIfUnset_lookup_ne by congruence ];
    apply lookup_empty.
Qed.

Lemma isOpenAIGateway_truthy (env : MoltbotEnv) :
  isOpenAIGateway env = true -> truthyS (normalizedBaseUrl env) = true.
Proof.
  unfold isOpenAIGateway. destruct (normalizedBaseUrl env) as [u|]; [|discriminate].
  intros H. cbn [truthyS]. apply negb_true_iff, String.eqb_neq.
  apply (endsWith_nonempty u "/openai"); [discriminate | exact H].
Qed.

(** The lookups of the three base-URL variables, for every environment. *)
Lemma base_urls (env : MoltbotEnv) :
  buildEnvVars env !! "AI_GATEWAY_BASE_URL" = present (normalizedBaseUrl env)
  /\ buildEnvVars env !! "OPENAI_BASE_URL"
     = (if isOpenAIGateway env then normalizedBaseUrl env else None)
  /\ buildEnvVars env !! "ANTHROPIC_BASE_URL"
     = (if truthyS (normalizedBaseUrl env)
        then if isOpenAIGateway env then None else normalizedBaseUrl env
        else present (ANTHROPIC_BASE_URL env)).
Proof.
  pose proof (isOpenAIGateway_truthy env) as Hopen.
  unfold buildEnvVars, passThrough. cbv zeta.
  rewrite !setIf_lookup_ne by discriminate.
  unfold passBaseUrl, present. cbv zeta.
  destruct (truthyS (normalizedBaseUrl env)) eqn:Hn.
  - destruct (isOpenAIGateway env);
      repeat first [ rewrite setIf_lookup_ne by discriminate
                   | rewrite setIf_lookup_eq
                   | rewrite keys_only by discriminate
                   | rewrite Hn ];
      auto.
  - destruct (isOpenAIGateway env); [now specialize (Hopen eq_refl)|].
    destruct (truthyS (ANTHROPIC_BASE_URL env)) eqn:Ha;
      repeat first [ rewrite setIf_lookup_ne by discriminate
                   | rewrite setIf_lookup_eq
                   | rewrite keys_only by discriminate
                   | rewrite Ha ];
      auto.
Qed.

(** X8. A gateway URL that is handed on is normalized: under its generic name
    and under [OPENAI_BASE_URL] it never ends with a slash, normalizing it
    again gives it back, and under [OPENAI_BASE_URL] it ends with [/openai]. *)
Theorem forwarded_url_is_normalized (env : MoltbotEnv) (name url : string) :
  name = "AI_GATEWAY_BASE_URL" \/ name = "OPENAI_BASE_URL" ->
  buildEnvVars env !! name = Some url ->
  Str.endsWith url "/" = false
  /\ Str.stripTrailingSlashes url = url
  /\ url <> EmptyString
  /\ (name = "OPENAI_BASE_URL" -> Str.endsWith url "/openai" = true).
Proof.
  intros Hname Hlook. destruct (base_urls env) as (Hg & Ho & _).
  assert (Hn : normalizedBaseUrl env = Some url
               /\ (name = "OPENAI_BASE_URL" -> Str.endsWith url "/openai" = true)).
  { destruct Hname as [-> | ->].
    - rewrite Hg in Hlook. unfold present in Hlook.
      destruct (truthyS (normalizedBaseUrl env)); [|discriminate].
      split; [exact Hlook | discriminate].
    - rewrite Ho in Hlook. unfold isOpenAIGateway in *.
      destruct (normalizedBaseUrl env) as [u|]; [|discriminate].
      destruct (Str.endsWith u "/openai") eqn:E; [|discriminate].
      injection Hlook as ->. auto. }
  destruct Hn as [Hn Hopen].
  assert (Hne : url <> EmptyString).
  { apply (clean_buildEnvVars env name url Hlook). }
  unfold normalizedBaseUrl in Hn.
  destruct (resolvedBaseUrl env) as [raw|]; [|discriminate].
  cbn in Hn. injection Hn as <-.
  split; [apply strip_no_trailing_slash|]. split; [apply strip_idempotent|].
  split; assumption.
Qed.


Lemma forwarded_url_is_normalized_witness :
  Str.endsWith "https://gateway.ai.cloudflare.com/v1/acc/gw/openai" "/" = false
  /\ Str.stripTrailingSlashes "https://gateway.ai.cloudflare.com/v1/acc/gw/openai"
     = "https://gateway.ai.cloudflare.com/v1/acc/gw/openai"
  /\ "https://gateway.ai.cloudflare.com/v1/acc/gw/openai" <> EmptyString
  /\ ("OPENAI_BASE_URL" = "OPENAI_BASE_URL" ->
      Str.endsWith "https://gateway.ai.cloudflare.com/v1/acc/gw/openai" "/openai" = true).
Proof.
  apply (forwarded_url_is_normalized sampleGatewayEnv "OPENAI_BASE_URL").
  - right. reflexivity.
  - vm_compute. reflexivity.
Defined.

(** The URL built from the two identifiers, and what the normalization
    and the [/openai] test make of it. *)
Lemma constructed_url (account gateway provider : string) :
  provider = "openai" \/ provider = "anthropic" ->
  let url := "https://gateway.ai.cloudflare.com/v1/" +:+ account +:+ "/"
               +:+ gateway +:+ "/" +:+ provider in
  Str.stripTrailingSlashes url = url
  /\ url <> EmptyString
  /\ Str.endsWith url "/openai" = String.eqb provider "openai".
Proof.
  intros Hp url. subst url.
  assert (Hlast : Str.stripTrailingSlashes ("/" +:+ provider) = "/" +:+ provider
                  /\ "/" +:+ provider <> EmptyString
                  /\ Str.endsWith ("/" +:+ provider) "/openai" = String.eqb provider "openai"
                  /\ String.length "/openai" <= String.length ("/" +:+ provider)).
  { destruct Hp as [-> | ->]; repeat split; try discriminate; vm_compute; lia. }
  destruct Hlast as (Hs & Hne & He & Hlen).
  destruct (strip_append gateway _ Hs Hne) as [Hs1 Hne1].
  destruct (strip_append "/" _ Hs1 Hne1) as [Hs2 Hne2].
  destruct (strip_append account _ Hs2 Hne2) as [Hs3 Hne3].
  destruct (strip_append "https://gateway.ai.cloudflare.com/v1/" _ Hs3 Hne3) as [Hs4 Hne4].
  split; [exact Hs4|]. split; [exact Hne4|].
  rewrite <- He. rewrite length_append in Hlen.
  rewrite endsWith_append by (rewrite !length_append; lia).
  rewrite endsWith_append by (rewrite !length_append; lia).
  rewrite endsWith_append by (rewrite !length_append; lia).
  now rewrite endsWith_append by (rewrite !length_append; lia).
Qed.

(** X9. With no explicit gateway URL and both identifiers bound, the gateway
    URL is built from them, with the provider segment [openai] when the model
    starts with [google/] or contains [gemini] and [anthropic] otherwise; it is
    handed on as built, and the gateway counts as an OpenAI one exactly for
    those models. *)
Theorem constructed_gateway_url (env : MoltbotEnv) (account gateway : string) :
  truthyS (AI_GATEWAY_BASE_URL env) = false ->
  CF_ACCOUNT_ID env = Some account -> account <> EmptyString ->
  CLOUDFLARE_AI_GATEWAY_ID env = Some gateway -> gateway <> EmptyString ->
  buildEnvVars env !! "AI_GATEWAY_BASE_URL"
  = Some ("https://gateway.ai.cloudflare.com/v1/" +:+ account +:+ "/" +:+ gateway +:+ "/"
            +:+ (if modelIsGoogle env then "openai" else "anthropic"))
  /\ isOpenAIGateway env = modelIsGoogle env
  /\ buildEnvVars env !! (if modelIsGoogle env then "OPENAI_BASE_URL" else "ANTHROPIC_BASE_URL")
     = buildEnvVars env !! "AI_GATEWAY_BASE_URL"
  /\ buildEnvVars env !! (if modelIsGoogle env then "ANTHROPIC_BASE_URL" else "OPENAI_BASE_URL")
     = None.
Proof.
  intros Hurl Hacc Hacc_ne Hgw Hgw_ne.
  set (provider := if modelIsGoogle env then "openai" else "anthropic").
  assert (Hp : provider = "openai" \/ provider = "anthropic").
  { unfold provider. destruct (modelIsGoogle env); auto. }
  destruct (constructed_url account gateway provider Hp) as (Hs & Hne & He).
  cbv zeta in Hs, Hne, He.
  assert (Hres : resolvedBaseUrl env
                 = Some ("https://gateway.ai.cloudflare.com/v1/" +:+ account +:+ "/"
                           +:+ gateway +:+ "/" +:+ provider)).
  { unfold resolvedBaseUrl. cbv zeta. rewrite Hurl, Hacc, Hgw. cbn [negb truthyS].
    apply String.eqb_neq in Hacc_ne, Hgw_ne. rewrite Hacc_ne, Hgw_ne. reflexivity. }
  assert (Hn : normalizedBaseUrl env
               = Some ("https://gateway.ai.cloudflare.com/v1/" +:+ account +:+ "/"
                         +:+ gateway +:+ "/" +:+ provider)).
  { unfold normalizedBaseUrl. rewrite Hres. cbn. now rewrite Hs. }
  assert (Ht : truthyS (normalizedBaseUrl env) = true).
  { rewrite Hn. cbn [truthyS]. now apply negb_true_iff, String.eqb_neq. }
  assert (Ho : isOpenAIGateway env = modelIsGoogle env).
  { unfold isOpenAIGateway. rewrite Hn, He. unfold provider.
    now destruct (modelIsGoogle env). }
  destruct (base_urls env) as (Hg & Hopen & Hanth).
  rewrite Ht, Ho in Hanth. rewrite Ho in Hopen. unfold present in Hg.
  rewrite Ht in Hg. rewrite Hg. split; [exact Hn|]. split; [exact Ho|].
  destruct (modelIsGoogle env); rewrite Hopen, Hanth; auto.
Qed.

Lemma constructed_gateway_url_witness :
  buildEnvVars (gatewayById (Some "google/gemini-3-flash")) !! "AI_GATEWAY_BASE_URL"
  = Some ("https://gateway.ai.cloudflare.com/v1/" +:+ "acc" +:+ "/" +:+ "gw" +:+ "/"
            +:+ (if modelIsGoogle (gatewayById (Some "google/gemini-3-flash"))
                 then "openai" else "anthropic"))
  /\ isOpenAIGateway (gatewayById (Some "google/gemini-3-flash"))
     = modelIsGoogle (gatewayById (Some "google/gemini-3-flash"))
  /\ buildEnvVars (gatewayById (Some "google/gemini-3-flash"))
       !! (if modelIsGoogle (gatewayById (Some "google/gemini-3-flash"))
           then "OPENAI_BASE_URL" else "ANTHROPIC_BASE_URL")
     = buildEnvVars (gatewayById (Some "google/gemini-3-flash")) !! "AI_GATEWAY_BASE_URL"
  /\ buildEnvVars (gatewayById (Some "google/gemini-3-flash"))
       !! (if modelIsGoogle (gatewayById (Some "google/gemini-3-flash"))
           then "ANTHROPIC_BASE_URL" else "OPENAI_BASE_URL")
     = None.
Proof.
  apply (constructed_gateway_url (gatewayById (Some "google/gemini-3-flash")) "acc" "gw");
    (reflexivity || discriminate).
Defined.

(** X10. The bindings of the pass-through block reach the container under the
    names of that block whenever they are non-empty, and only then: the gateway
    token as [CLAWDBOT_GATEWAY_TOKEN], the dev-mode flag as
    [CLAWDBOT_DEV_MODE], the others under their own names. Nothing that is set
    before the block stands under one of these names. *)
Theorem pass_through_bindings (env : MoltbotEnv) :
  buildEnvVars env !! "CLAWDBOT_GATEWAY_TOKEN" = present (MOLTBOT_GATEWAY_TOKEN env)
  /\ buildEnvVars env !! "CLAWDBOT_DEV_MODE" = present (DEV_MODE env)
  /\ buildEnvVars env !! "CLAWDBOT_BIND_MODE" = present (CLAWDBOT_BIND_MODE env)
  /\ buildEnvVars env !! "TELEGRAM_BOT_TOKEN" = present (TELEGRAM_BOT_TOKEN env)
  /\ buildEnvVars env !! "TELEGRAM_DM_POLICY" = present (TELEGRAM_DM_POLICY env)
  /\ buildEnvVars env !! "DISCORD_BOT_TOKEN" = present (DISCORD_BOT_TOKEN env)
  /\ buildEnvVars env !! "DISCORD_DM_POLICY" = present (DISCORD_DM_POLICY env)
  /\ buildEnvVars env !! "SLACK_BOT_TOKEN" = present (SLACK_BOT_TOKEN env)
  /\ buildEnvVars env !! "SLACK_APP_TOKEN" = present (SLACK_APP_TOKEN env)
  /\ buildEnvVars env !! "CDP_SECRET" = present (CDP_SECRET env)
  /\ buildEnvVars env !! "WORKER_URL" = present (WORKER_URL env)
  /\ buildEnvVars env !! "CF_ACCOUNT_ID" = present (CF_ACCOUNT_ID env)
  /\ buildEnvVars env !! "CF_AI_GATEWAY_MODEL" = present (CF_AI_GATEWAY_MODEL env).
Proof.
  unfold buildEnvVars, passThrough, present. cbv zeta.
  repeat split;
    repeat first [ rewrite setIf_lookup_ne by discriminate
                 | rewrite setIf_lookup_eq
                 | rewrite keys_and_urls_only by discriminate ];
    repeat match goal with |- context [if ?b then _ else _] => destruct b end;
    reflexivity.
Qed.

End ReconcilerCover.

(** ** The access middleware: every request *)

Section AccessCoverage.
Import Env Access AccessSpec AccessCover.

(** The middleware follows its decision table, for every request. *)
Lemma middleware_run (options : AccessMiddlewareOptions) (c : Context) :
  Prog.run (createAccessMiddleware options c) = decision options c.
Proof.
  unfold decision, shortcut, tokenMatches, accessConfigured, presentedJWT, comparison,
    downstream, teamDomainOf, audienceOf.
  unfold Prog.run, createAccessMiddleware.
  destruct (isDevMode (env c) || isE2ETestMode (env c)).
  { unfold callNext, Prog.bind, Prog.call, Prog.emit, Prog.ret. cbn [app].
    now destruct (next c) as [[]|e]. }
  assert (Hcheck : forall tr,
    checkAccess options c tr
    = (let '(r, ext) :=
         if negb (truthyS (CF_ACCESS_TEAM_DOMAIN (env c)) && truthyS (CF_ACCESS_AUD (env c)))
         then (Ok (Some (notConfigured options (MOLTBOT_GATEWAY_TOKEN (env c)))), [])
         else
           match match extractJWT c with
                 | Some jwt => if truthyS (Some jwt) then Some jwt else None
                 | None => None
                 end with
           | None => (Ok (Some (missingJWT options
                                  (default EmptyString (CF_ACCESS_TEAM_DOMAIN (env c))))), [])
           | Some jwt =>
               match verifyAccessJWT c jwt
                       (default EmptyString (CF_ACCESS_TEAM_DOMAIN (env c)))
                       (default EmptyString (CF_ACCESS_AUD (env c))) with
               | Throw err =>
                   (Ok (Some (invalidJWT options
                                (default EmptyString (CF_ACCESS_TEAM_DOMAIN (env c))) err)),
                    [EvVerifyJWT jwt (default EmptyString (CF_ACCESS_TEAM_DOMAIN (env c)))
                       (default EmptyString (CF_ACCESS_AUD (env c)));
                     EvLogError "Access JWT verification failed:"])
               | Ok user =>
                   match next c with
                   | Ok _ =>
                       (Ok None,
                        [EvVerifyJWT jwt (default EmptyString (CF_ACCESS_TEAM_DOMAIN (env c)))
                           (default EmptyString (CF_ACCESS_AUD (env c)));
                         EvSetAccessUser user; EvNext])
                   | Throw err =>
                       (Ok (Some (invalidJWT options
                                    (default EmptyString (CF_ACCESS_TEAM_DOMAIN (env c))) err)),
                        [EvVerifyJWT jwt (default EmptyString (CF_ACCESS_TEAM_DOMAIN (env c)))
                           (default EmptyString (CF_ACCESS_AUD (env c)));
                         EvSetAccessUser user; EvNext;
                         EvLogError "Access JWT verification failed:"])
                   end
               end
           end in
       (r, tr ++ ext))).
  { intros tr. unfold checkAccess, callNext, Prog.try_catch, Prog.bind, Prog.call,
      Prog.emit, Prog.ret. cbv zeta.
    rewrite negb_andb.
    destruct (negb (truthyS (CF_ACCESS_TEAM_DOMAIN (env c)))
              || negb (truthyS (CF_ACCESS_AUD (env c)))); [now rewrite app_nil_r|].
    destruct (extractJWT c) as [jwt|]; [|now rewrite app_nil_r].
    destruct (truthyS (Some jwt)); cbn [negb]; [|now rewrite app_nil_r].
    change (default EmptyString (Some jwt)) with jwt.
    destruct (verifyAccessJWT c jwt _ _) as [user|err]; [|now rewrite <- !app_assoc].
    destruct (next c) as [[]|err]; now rewrite <- !app_assoc. }
  unfold authenticate.
  destruct (MOLTBOT_GATEWAY_TOKEN (env c)) as [gatewayToken|].
  - destruct (truthyS (Some gatewayToken)); cbn [andb].
    + unfold Prog.bind at 1, Prog.emit at 1. cbn [app].
      destruct (strictEq (queryToken (req c)) gatewayToken
                || strictEq (cookieToken c) gatewayToken).
      * unfold callNext, Prog.bind, Prog.call, Prog.emit, Prog.ret. cbn [app].
        now destruct (next c) as [[]|e].
      * rewrite Hcheck.
        repeat match goal with
               | |- context [match ?x with _ => _ end] =>
                   lazymatch x with
                   | context [match _ with _ => _ end] => fail
                   | _ => destruct x
                   end
               end; reflexivity.
    + rewrite Hcheck.
      repeat match goal with
             | |- context [match ?x with _ => _ end] =>
                 lazymatch x with
                 | context [match _ with _ => _ end] => fail
                 | _ => destruct x
                 end
             end; reflexivity.
  - rewrite Hcheck.
    repeat match goal with
           | |- context [match ?x with _ => _ end] =>
               lazymatch x with
               | context [match _ with _ => _ end] => fail
               | _ => destruct x
               end
           end; reflexivity.
Qed.


Lemma nextCalls_app (a b : list event) : nextCalls (a ++ b) = nextCalls a + nextCalls b.
Proof. unfold nextCalls. now rewrite List.filter_app, length_app. Qed.

Lemma comparison_quiet (c : Context) :
  nextCalls (comparison c) = 0 /\ verifications (comparison c) = []
  /\ ~ In EvNext (comparison c)
  /\ forall rest, userSetBeforeNext (comparison c ++ rest) = userSetBeforeNext rest.
Proof.
  unfold comparison. destruct (MOLTBOT_GATEWAY_TOKEN (env c)) as [t|].
  - destruct (truthyS (Some t)); cbn; intuition discriminate.
  - cbn. intuition.
Qed.

(** X13. The refusals of the middleware: a response it answers itself has
    status 401, 500 or 302. It is 500 only when Cloudflare Access is not
    configured and no gateway token is configured either; it is the redirect
    302 only on an HTML route with [redirectOnMissing], when Cloudflare Access
    is configured and the request carries no JWT. No response is answered under
    the dev-mode shortcut or for a request that carries the gateway token. *)
Theorem refusal_statuses (options : AccessMiddlewareOptions) (c : Context)
    (response : Response) :
  fst (Prog.run (createAccessMiddleware options c)) = Ok (Some response) ->
  shortcut c = false /\ tokenMatches c = false
  /\ (statusOf response = 401 \/ statusOf response = 500 \/ statusOf response = 302)%Z
  /\ (statusOf response = 500%Z ->
      accessConfigured c = false /\ truthyS (MOLTBOT_GATEWAY_TOKEN (env c)) = false)
  /\ (statusOf response = 302%Z ->
      type options = html /\ redirectOnMissing options = true
      /\ accessConfigured c = true /\ presentedJWT c = None
      /\ response = RedirectResponse ("https://" +:+ teamDomainOf c) 302).
Proof.
  rewrite middleware_run. unfold decision, downstream.
  destruct (shortcut c); [destruct (next c); discriminate|].
  destruct (tokenMatches c); [destruct (next c); discriminate|].
  destruct (accessConfigured c); cbn [negb fst].
  - destruct (presentedJWT c) as [jwt|].
    + destruct (verifyAccessJWT c jwt _ _) as [user|err];
        [destruct (next c) as [[]|err]; [discriminate|]|];
        cbn [fst]; intros [= <-]; unfold invalidJWT;
        destruct (type options); cbn; intuition discriminate.
    + intros [= <-]. unfold missingJWT.
      destruct (type options), (redirectOnMissing options); cbn;
        intuition discriminate.
  - intros [= <-]. unfold notConfigured.
    destruct (truthyS (MOLTBOT_GATEWAY_TOKEN (env c))), (type options); cbn;
      intuition discriminate.
Qed.

Lemma refusal_statuses_witness :
  shortcut (request None None None (fun _ _ _ => Ok alice) (Ok tt)) = false
  /\ tokenMatches (request None None None (fun _ _ _ => Ok alice) (Ok tt)) = false
  /\ (statusOf (RedirectResponse "https://team.example" 302) = 401
      \/ statusOf (RedirectResponse "https://team.example" 302) = 500
      \/ statusOf (RedirectResponse "https://team.example" 302) = 302)%Z
  /\ (statusOf (RedirectResponse "https://team.example" 302) = 500%Z ->
      accessConfigured (request None None None (fun _ _ _ => Ok alice) (Ok tt)) = false
      /\ truthyS (MOLTBOT_GATEWAY_TOKEN
                    (env (request None None None (fun _ _ _ => Ok alice) (Ok tt)))) = false)
  /\ (statusOf (RedirectResponse "https://team.example" 302) = 302%Z ->
      type htmlRedirect = html /\ redirectOnMissing htmlRedirect = true
      /\ accessConfigured (request None None None (fun _ _ _ => Ok alice) (Ok tt)) = true
      /\ presentedJWT (request None None None (fun _ _ _ => Ok alice) (Ok tt)) = None
      /\ RedirectResponse "https://team.example" 302
         = RedirectResponse
             ("https://" +:+ teamDomainOf (request None None None (fun _ _ _ => Ok alice) (Ok tt)))
             302).
Proof.
  apply (refusal_statuses htmlRedirect
           (request None None None (fun _ _ _ => Ok alice) (Ok tt))).
  reflexivity.
Defined.

(** X15. In every run of the middleware [next] is called at most once, and only
    right after the access user was set; at most one JWT is verified, and then
    it is the non-empty JWT of the request, checked against the configured team
    domain and audience, for a request that did not carry the gateway token. *)
Theorem one_verification_one_call (options : AccessMiddlewareOptions) (c : Context) :
  nextCalls (snd (Prog.run (createAccessMiddleware options c))) <= 1
  /\ userSetBeforeNext (snd (Prog.run (createAccessMiddleware options c))) = true
  /\ length (verifications (snd (Prog.run (createAccessMiddleware options c)))) <= 1
  /\ (forall jwt teamDomain expectedAud,
        In (EvVerifyJWT jwt teamDomain expectedAud)
           (snd (Prog.run (createAccessMiddleware options c))) ->
        extractJWT c = Some jwt /\ jwt <> EmptyString
        /\ CF_ACCESS_TEAM_DOMAIN (env c) = Some teamDomain /\ teamDomain <> EmptyString
        /\ CF_ACCESS_AUD (env c) = Some expectedAud /\ expectedAud <> EmptyString
        /\ shortcut c = false /\ tokenMatches c = false).
Proof.
  rewrite middleware_run. unfold decision.
  destruct (comparison_quiet c) as (Hn & Hv & Hcmp & Hu).
  assert (Hnot : forall jwt t a, ~ In (EvVerifyJWT jwt t a) (comparison c)).
  { intros jwt t a Hin.
    assert (Hin' : In (EvVerifyJWT jwt t a) (verifications (comparison c))).
    { unfold verifications. apply filter_In. now split. }
    rewrite Hv in Hin'. destruct Hin'. }
  destruct (shortcut c);
    [cbn; split; [|split; [|split]]; try lia; try reflexivity; intros ? ? ? H; cbn in H; intuition discriminate|].
  destruct (tokenMatches c).
  { cbn [snd]. unfold verifications. rewrite nextCalls_app, List.filter_app, length_app, Hu, Hn.
    fold (verifications (comparison c)). rewrite Hv. cbn.
    split; [|split; [|split]]; try lia; try reflexivity.
    intros jwt t a H. apply in_app_or in H. destruct H as [H|H];
      [now apply Hnot in H | cbn in H; intuition discriminate]. }
  destruct (accessConfigured c) eqn:Hconf; cbn [negb].
  2:{ cbn [snd]. rewrite Hn, Hv, <- (app_nil_r (comparison c)), Hu. cbn.
      split; [|split; [|split]]; try lia; try reflexivity. intros jwt t a H. rewrite app_nil_r in H.
      now apply Hnot in H. }
  assert (Hcfg : CF_ACCESS_TEAM_DOMAIN (env c) = Some (teamDomainOf c)
                 /\ teamDomainOf c <> EmptyString
                 /\ CF_ACCESS_AUD (env c) = Some (audienceOf c)
                 /\ audienceOf c <> EmptyString).
  { unfold accessConfigured, teamDomainOf, audienceOf in *.
    apply andb_true_iff in Hconf. destruct Hconf as [H1 H2].
    destruct (CF_ACCESS_TEAM_DOMAIN (env c)) as [t|]; [|discriminate].
    destruct (CF_ACCESS_AUD (env c)) as [a|]; [|discriminate].
    cbn in *. apply negb_true_iff, String.eqb_neq in H1, H2. auto. }
  destruct (presentedJWT c) as [jwt|] eqn:Hjwt.
  2:{ cbn [snd]. rewrite Hn, Hv, <- (app_nil_r (comparison c)), Hu. cbn.
      split; [|split; [|split]]; try lia; try reflexivity. intros jwt t a H. rewrite app_nil_r in H.
      now apply Hnot in H. }
  assert (Hpres : extractJWT c = Some jwt /\ jwt <> EmptyString).
  { unfold presentedJWT in Hjwt. destruct (extractJWT c) as [j|]; [|discriminate].
    destruct (truthyS (Some j)) eqn:Ht; [|discriminate]. injection Hjwt as ->.
    cbn in Ht. apply negb_true_iff, String.eqb_neq in Ht. auto. }
  destruct (verifyAccessJWT c jwt _ _) as [user|err];
    [destruct (next c) as [[]|err]|];
    cbn [snd]; unfold verifications;
    rewrite nextCalls_app, List.filter_app, length_app, Hu, Hn;
    fold (verifications (comparison c)); rewrite Hv; cbn;
    (split; [|split; [|split]]; try lia; try reflexivity;
     intros j t a H; apply in_app_or in H; destruct H as [H|H];
     [now apply Hnot in H|];
     cbn in H;
     repeat match goal with
            | H0 : _ \/ _ |- _ => destruct H0 as [H0|H0]
            | H0 : False |- _ => destruct H0
            end; try discriminate;
     match goal with H0 : EvVerifyJWT _ _ _ = _ |- _ => injection H0 as <- <- <- end;
     tauto).
Qed.

End AccessCoverage.

(** ** The access middleware: reading the cookies *)

Section Cookies.
Import Env Access AccessSpec AccessCover CookieCover.

Lemma append_assoc (a b c : string) : (a +:+ b) +:+ c = a +:+ (b +:+ c).
Proof.
  induction a as [|x a IH]; [reflexivity|].
  change ((String x a +:+ b) +:+ c) with (String x ((a +:+ b) +:+ c)).
  now rewrite IH.
Qed.

Lemma hasChar_append (ch : ascii) (a b : string) :
  hasChar ch (a +:+ b) = hasChar ch a || hasChar ch b.
Proof.
  induction a as [|x a IH]; [reflexivity|].
  change (String x a +:+ b) with (String x (a +:+ b)). cbn [hasChar].
  now rewrite IH, orb_assoc.
Qed.

Lemma spaceless_append (a b : string) :
  spaceless (a +:+ b) = spaceless a && spaceless b.
Proof.
  induction a as [|x a IH]; [reflexivity|].
  change (String x a +:+ b) with (String x (a +:+ b)). cbn [spaceless].
  now rewrite IH, andb_assoc.
Qed.

(** A string without the separator is one segment. *)
Lemma split_one (sep : ascii) (s : string) :
  hasChar sep s = false -> Str.split sep s = [s].
Proof.
  induction s as [|c s IH]; [reflexivity|].
  cbn [hasChar Str.split]. intros H. apply orb_false_iff in H. destruct H as [Hc Hs].
  rewrite Hc, (IH Hs). reflexivity.
Qed.

(** The first separator ends the first segment. *)
Lemma split_first (sep : ascii) (a b : string) :
  hasChar sep a = false ->
  Str.split sep (a +:+ String sep b) = a :: Str.split sep b.
Proof.
  induction a as [|c a IH]; intros H.
  - change (EmptyString +:+ String sep b) with (String sep b).
    cbn [Str.split]. now rewrite Ascii.eqb_refl.
  - change (String c a +:+ String sep b) with (String c (a +:+ String sep b)).
    cbn [hasChar] in H. apply orb_false_iff in H. destruct H as [Hc Ha].
    cbn [Str.split]. rewrite Hc, (IH Ha). reflexivity.
Qed.

(** White space is trimmed off a string that has none without a change. *)
Lemma trimEnd_spaceless (s : string) : spaceless s = true -> Str.trimEnd s = s.
Proof.
  induction s as [|c s IH]; [reflexivity|].
  cbn [spaceless Str.trimEnd]. intros H. apply andb_true_iff in H. destruct H as [Hc Hs].
  rewrite (IH Hs). apply negb_true_iff in Hc. rewrite Hc. now destruct s.
Qed.

Lemma trimStart_spaceless (s : string) : spaceless s = true -> Str.trimStart s = s.
Proof.
  destruct s as [|c s]; [reflexivity|].
  cbn [spaceless Str.trimStart]. intros H. apply andb_true_iff in H. destruct H as [Hc _].
  apply negb_true_iff in Hc. now rewrite Hc.
Qed.

Lemma trim_spaceless (s : string) : spaceless s = true -> Str.trim s = s.
Proof.
  intros H. unfold Str.trim. now rewrite (trimStart_spaceless s H), trimEnd_spaceless.
Qed.

Lemma trim_after_space (s : string) : Str.trim (" " +:+ s) = Str.trim s.
Proof. reflexivity. Qed.

Lemma plain_parts (s : string) :
  plain s = true ->
  hasChar ";" s = false /\ hasChar "=" s = false /\ spaceless s = true.
Proof.
  unfold plain. intros H. apply andb_true_iff in H. destruct H as [H H3].
  apply andb_true_iff in H. destruct H as [H1 H2].
  apply negb_true_iff in H1, H2. auto.
Qed.

Lemma pair_spaceless (cookie : string * string) :
  plain (fst cookie) = true -> plain (snd cookie) = true -> spaceless (pair cookie) = true.
Proof.
  intros Hn Hv. apply plain_parts in Hn, Hv. unfold pair.
  rewrite !spaceless_append. now rewrite (proj2 (proj2 Hn)), (proj2 (proj2 Hv)).
Qed.

Lemma pair_no_semicolon (cookie : string * string) :
  plain (fst cookie) = true -> plain (snd cookie) = true ->
  hasChar ";" (pair cookie) = false.
Proof.
  intros Hn Hv. apply plain_parts in Hn, Hv. unfold pair.
  rewrite !hasChar_append. now rewrite (proj1 Hn), (proj1 Hv).
Qed.

Lemma cookieLine_cons (cookie next : string * string) (rest : list (string * string)) :
  cookieLine (cookie :: next :: rest)
  = pair cookie +:+ String ";" (" " +:+ cookieLine (next :: rest)).
Proof. reflexivity. Qed.

(** The segments of the header between the semicolons. *)
Lemma split_cookieLine (pre : string) (cookie : string * string)
    (cookies : list (string * string)) :
  hasChar ";" pre = false ->
  wellFormed (cookie :: cookies) = true ->
  Str.split ";" (pre +:+ cookieLine (cookie :: cookies))
  = (pre +:+ pair cookie) :: map (fun later => " " +:+ pair later) cookies.
Proof.
  revert pre cookie. induction cookies as [|next rest IH]; intros pre cookie Hpre Hwf.
  - cbn [wellFormed forallb] in Hwf. rewrite andb_true_r in Hwf.
    apply andb_true_iff in Hwf. destruct Hwf as [Hn Hv].
    unfold cookieLine. cbn [map String.concat].
    apply split_one. rewrite hasChar_append, Hpre. now apply pair_no_semicolon.
  - cbn [wellFormed forallb] in Hwf. apply andb_true_iff in Hwf.
    destruct Hwf as [Hc Hwf]. apply andb_true_iff in Hc. destruct Hc as [Hn Hv].
    rewrite cookieLine_cons, <- append_assoc.
    rewrite split_first
      by (rewrite hasChar_append, Hpre; now apply pair_no_semicolon).
    rewrite (IH " " next eq_refl Hwf). reflexivity.
Qed.

(** A cookie starts with [name=] exactly when it has that name. *)
Lemma startsWith_name (n v name : string) :
  hasChar "=" n = false -> hasChar "=" name = false ->
  Str.startsWith (n +:+ "=" +:+ v) (name +:+ "=") = String.eqb n name.
Proof.
  revert name. induction n as [|d n IH]; intros [|c name] Hn Hname.
  - now destruct v.
  - cbn [hasChar] in Hname. apply orb_false_iff in Hname. destruct Hname as [Hc _].
    change (Str.startsWith (String "=" v) (String c (name +:+ "=")) = false).
    cbn [Str.startsWith]. now rewrite Hc.
  - cbn [hasChar] in Hn. apply orb_false_iff in Hn. destruct Hn as [Hd _].
    change (Str.startsWith (String d (n +:+ "=" +:+ v)) (String "=" EmptyString) = false).
    cbn [Str.startsWith]. rewrite Ascii.eqb_sym. now rewrite Hd.
  - cbn [hasChar] in Hn, Hname. apply orb_false_iff in Hn, Hname.
    destruct Hn as [_ Hn], Hname as [_ Hname].
    change (Str.startsWith (String d (n +:+ "=" +:+ v)) (String c (name +:+ "="))
            = String.eqb (String d n) (String c name)).
    cbn [Str.startsWith String.eqb]. rewrite (Ascii.eqb_sym c d).
    destruct (Ascii.eqb d c); [now apply IH | reflexivity].
Qed.

(** The value of a cookie is what follows its first [=]. *)
Lemma cookieValue_pair (pre : string) (cookie : string * string) :
  hasChar "=" pre = false ->
  plain (fst cookie) = true -> plain (snd cookie) = true ->
  cookieValue (pre +:+ pair cookie) = Some (snd cookie).
Proof.
  intros Hpre Hn Hv. apply plain_parts in Hn, Hv. unfold cookieValue, pair.
  rewrite <- append_assoc.
  change ("=" +:+ snd cookie) with (String "=" (snd cookie)).
  rewrite split_first by (rewrite hasChar_append, Hpre; tauto).
  rewrite split_one by tauto. reflexivity.
Qed.

(** The search for a cookie by its name, in the segments of the header:
    a segment is a cookie, with or without a space before it. *)
Lemma find_cookie (name : string) (segments : list string)
    (cookies : list (string * string)) :
  hasChar "=" name = false ->
  Forall2 (fun segment cookie => segment = pair cookie \/ segment = " " +:+ pair cookie)
    segments cookies ->
  wellFormed cookies = true ->
  match find (fun cookie => Str.startsWith (Str.trim cookie) (name +:+ "=")) segments with
  | Some cookie => cookieValue cookie
  | None => None
  end = cookieNamed name cookies
  /\ match find (fun cookie => Str.startsWith cookie (name +:+ "="))
                (map Str.trim segments) with
     | Some cookie => cookieValue cookie
     | None => None
     end = cookieNamed name cookies.
Proof.
  intros Hname Hseg. induction Hseg as [|segment [n v] segments rest Hhead _ IH];
    intros Hwf; [now split|].
  cbn [wellFormed forallb] in Hwf. apply andb_true_iff in Hwf.
  destruct Hwf as [Hc Hwf]. apply andb_true_iff in Hc. destruct Hc as [Hn Hv].
  cbn [fst snd] in Hn, Hv. destruct (IH Hwf) as [IH1 IH2].
  assert (Htrim : Str.trim segment = pair (n, v)).
  { destruct Hhead as [-> | ->]; [|rewrite trim_after_space];
      apply trim_spaceless; now apply pair_spaceless. }
  assert (Hvalue : cookieValue segment = Some v /\ cookieValue (pair (n, v)) = Some v).
  { split; [destruct Hhead as [-> | ->]|].
    - now apply (cookieValue_pair EmptyString (n, v)).
    - now apply (cookieValue_pair " " (n, v)).
    - now apply (cookieValue_pair EmptyString (n, v)). }
  assert (Hstart : Str.startsWith (pair (n, v)) (name +:+ "=") = String.eqb n name).
  { apply startsWith_name; [apply (plain_parts n Hn) | exact Hname]. }
  cbn [map find cookieNamed]. rewrite Htrim, Hstart.
  destruct (String.eqb n name); [exact Hvalue | split; assumption].
Qed.

(** The segments of a header are its cookies. *)
Lemma segments_of_cookieLine (cookies : list (string * string)) :
  wellFormed cookies = true ->
  cookies <> [] ->
  Forall2 (fun segment cookie => segment = pair cookie \/ segment = " " +:+ pair cookie)
    (Str.split ";" (cookieLine cookies)) cookies.
Proof.
  intros Hwf Hne. destruct cookies as [|cookie rest]; [congruence|].
  change (cookieLine (cookie :: rest)) with (EmptyString +:+ cookieLine (cookie :: rest)).
  rewrite (split_cookieLine EmptyString cookie rest eq_refl Hwf).
  constructor; [now left|]. clear. induction rest as [|next rest IH]; constructor; auto.
Qed.

(** X16. The cookies of a request are read back from its [Cookie] header. For a
    header built from cookies whose names and values hold no [;], no [=] and no
    white space, the gateway-token check finds the value of the first cookie
    named [moltbot-token], and the JWT extraction that of the first cookie
    named [CF_Authorization], wherever they stand in the header; a non-empty
    [CF-Access-JWT-Assertion] header goes before the cookie. *)
Theorem cookies_are_read_back (c : Context) (cookies : list (string * string)) :
  wellFormed cookies = true ->
  cookieHeader (req c) = Some (cookieLine cookies) ->
  cookieToken c = cookieNamed "moltbot-token" cookies
  /\ jwtCookie c = cookieNamed "CF_Authorization" cookies
  /\ extractJWT c
     = (if truthyS (jwtHeader (req c)) then jwtHeader (req c)
        else if truthyS (cookieNamed "CF_Authorization" cookies)
             then cookieNamed "CF_Authorization" cookies
             else None).
Proof.
  intros Hwf Hheader.
  assert (Hboth : cookieToken c = cookieNamed "moltbot-token" cookies
                  /\ jwtCookie c = cookieNamed "CF_Authorization" cookies).
  { unfold cookieToken, jwtCookie. rewrite Hheader.
    destruct cookies as [|cookie rest]; [now split|].
    pose proof (segments_of_cookieLine (cookie :: rest) Hwf ltac:(discriminate)) as Hseg.
    split.
    - exact (proj2 (find_cookie "moltbot-token" _ _ eq_refl Hseg Hwf)).
    - exact (proj1 (find_cookie "CF_Authorization" _ _ eq_refl Hseg Hwf)). }
  destruct Hboth as [Htoken Hjwt]. split; [exact Htoken|]. split; [exact Hjwt|].
  unfold extractJWT, orS. rewrite Hjwt.
  destruct (truthyS (jwtHeader (req c))) eqn:Hh; rewrite ?Hh; [reflexivity|].
  now destruct (truthyS (cookieNamed "CF_Authorization" cookies)) eqn:Hc; rewrite ?Hc.
Qed.

Lemma cookies_are_read_back_witness :
  cookieToken (request None (Some "theme=dark; moltbot-token=secret; CF_Authorization=a.b.c")
                 None (fun _ _ _ => Ok alice) (Ok tt))
  = cookieNamed "moltbot-token"
      [("theme", "dark"); ("moltbot-token", "secret"); ("CF_Authorization", "a.b.c")]
  /\ jwtCookie (request None (Some "theme=dark; moltbot-token=secret; CF_Authorization=a.b.c")
                  None (fun _ _ _ => Ok alice) (Ok tt))
     = cookieNamed "CF_Authorization"
         [("theme", "dark"); ("moltbot-token", "secret"); ("CF_Authorization", "a.b.c")]
  /\ extractJWT (request None (Some "theme=dark; moltbot-token=secret; CF_Authorization=a.b.c")
                   None (fun _ _ _ => Ok alice) (Ok tt))
     = (if truthyS (jwtHeader (req (request None
                      (Some "theme=dark; moltbot-token=secret; CF_Authorization=a.b.c")
                      None (fun _ _ _ => Ok alice) (Ok tt))))
        then jwtHeader (req (request None
                      (Some "theme=dark; moltbot-token=secret; CF_Authorization=a.b.c")
                      None (fun _ _ _ => Ok alice) (Ok tt)))
        else if truthyS (cookieNamed "CF_Authorization"
                           [("theme", "dark"); ("moltbot-token", "secret");
                            ("CF_Authorization", "a.b.c")])
             then cookieNamed "CF_Authorization"
                    [("theme", "dark"); ("moltbot-token", "secret");
                     ("CF_Authorization", "a.b.c")]
             else None).
Proof.
  apply (cookies_are_read_back
           (request None (Some "theme=dark; moltbot-token=secret; CF_Authorization=a.b.c")
              None (fun _ _ _ => Ok alice) (Ok tt))
           [("theme", "dark"); ("moltbot-token", "secret"); ("CF_Authorization", "a.b.c")]).
  - reflexivity.
  - reflexivity.
Defined.

(** A cookie value is cut at its first [=]: what follows it is not part
    of the value the middleware reads. *)
Lemma cookieValue_cut (name value rest : string) :
  hasChar "=" name = false -> hasChar "=" value = false ->
  cookieValue (name +:+ "=" +:+ value +:+ "=" +:+ rest) = Some value.
Proof.
  intros Hn Hv. unfold cookieValue.
  change ("=" +:+ value +:+ "=" +:+ rest) with (String "=" (value +:+ String "=" rest)).
  rewrite split_first by exact Hn. now rewrite split_first by exact Hv.
Qed.

End Cookies.

(** ** The restore block and the initial configuration *)

Section BootBlocks.
Import Script ScriptSpec Boot BootCover.
Variable date : string -> option Z.

(** After a manifest was copied over the local one, the function no longer
    chooses to restore. *)
Lemma same_manifest_no_restore (r : option string) :
  Z.eqb (should_restore_from_r2 date {| R2_SYNC_FILE := r; LOCAL_SYNC_FILE := r |}) 0
  = false.
Proof.
  unfold should_restore_from_r2. cbv [R2_SYNC_FILE LOCAL_SYNC_FILE].
  destruct r as [t|]; [|reflexivity]. cbv zeta. rewrite Z.gtb_ltb, Z.ltb_irrefl.
  reflexivity.
Qed.

Lemma no_manifest_no_restore (l : option string) :
  Z.eqb (should_restore_from_r2 date {| R2_SYNC_FILE := None; LOCAL_SYNC_FILE := l |}) 0
  = false.
Proof. reflexivity. Qed.

(** X17. A run that restores the configuration does not restore the skills. The
    restore of the configuration ends by copying the backup's manifest over the
    local one; the decision for the skills is taken after that, by the same
    function, which then finds the two timestamps equal. This holds for the
    legacy format always (its copy brings the manifest along) and for the
    nested format whenever the copy of the manifest succeeded. *)
Theorem skills_skipped_after_config_restore (vol : Volume) (copied : bool)
    (source : string) :
  In (CopyConfig source) (prepare date vol copied) ->
  copied = true \/ nestedBackup vol = false ->
  List.filter isCopySkills (prepare date vol copied) = [].
Proof.
  unfold prepare, restoreConfig, restoreSkills, initConfig. cbv zeta.
  intros Hin Hcopied.
  destruct (Z.eqb (should_restore_from_r2 date (manifests vol)) 0) eqn:Hr.
  - assert (Hnested : Z.eqb (should_restore_from_r2 date
                               (copyManifest true
                                  (bringNested (nestedManifest vol) (manifests vol)))) 0
                      = false).
    { unfold copyManifest. apply same_manifest_no_restore. }
    assert (Hlegacy : Z.eqb (should_restore_from_r2 date
                               (copyManifest copied (bringAll (manifests vol)))) 0
                      = false).
    { unfold copyManifest, bringAll. destruct copied; apply same_manifest_no_restore. }
    destruct (nestedBackup vol).
    + destruct Hcopied as [-> | ?]; [|discriminate].
      cbv iota beta. rewrite Hnested. now destruct (skillsBackup vol).
    + destruct (legacyBackup vol).
      * cbv iota beta. rewrite Hlegacy. now destruct (skillsBackup vol).
      * exfalso. cbv iota beta in Hin. rewrite Hr in Hin.
        destruct (skillsBackup vol), (configFile vol), (templateFile vol);
          cbn in Hin; intuition discriminate.
  - exfalso.
    destruct (nestedBackup vol), (legacyBackup vol); cbv iota beta in Hin;
      rewrite Hr in Hin;
      destruct (skillsBackup vol), (configFile vol), (templateFile vol);
      cbn in Hin; intuition discriminate.
Qed.

(** X18. Without a manifest in the backup nothing is copied from it, whatever
    the backup holds: neither a configuration in one of the two formats nor the
    skills. The script then goes on with the configuration file it has, or
    creates one. *)
Theorem no_copy_without_backup_manifest (vol : Volume) (copied : bool) :
  R2_SYNC_FILE (manifests vol) = None ->
  prepare date vol copied = initConfig vol (configFile vol).
Proof.
  intros Hnone. unfold prepare, restoreConfig, restoreSkills. cbv zeta.
  assert (Hno : Z.eqb (should_restore_from_r2 date (manifests vol)) 0 = false).
  { unfold should_restore_from_r2. now rewrite Hnone. }
  rewrite Hno.
  destruct (nestedBackup vol), (legacyBackup vol), (skillsBackup vol);
    cbv iota beta; rewrite ?Hno; reflexivity.
Qed.

(** X19. The configuration is restored from one source at most, and the nested
    format goes first: when the function chooses to restore, the nested backup
    is copied if there is one, else the legacy one if there is one. The legacy
    backup is not looked at when a nested one exists, also when that one is not
    restored. *)
Theorem one_restore_source (vol : Volume) (copied : bool) :
  List.filter isCopyConfig (prepare date vol copied)
  = if restores date (manifests vol) then
      if nestedBackup vol then [CopyConfig "/data/moltbot/clawdbot/."]
      else if legacyBackup vol then [CopyConfig "/data/moltbot/."]
      else []
    else [].
Proof.
  unfold prepare, restoreConfig, restoreSkills, initConfig, restores. cbv zeta.
  destruct (nestedBackup vol), (legacyBackup vol);
    destruct (Z.eqb (should_restore_from_r2 date (manifests vol)) 0);
    cbv iota beta; rewrite ?List.filter_app;
    repeat match goal with
           | |- context [if ?b then _ else _] => destruct b
           end; reflexivity.
Qed.

(** X20. A configuration file is created only when there is none after the
    restore: from the template when there is one, else the minimal
    configuration. A file that exists or was just restored is left as it is; so
    the node program always finds a file. *)
Theorem config_created_when_missing (vol : Volume) (copied : bool) :
  List.filter isInit (prepare date vol copied)
  = if configFile vol
       || (restores date (manifests vol) && (nestedBackup vol || legacyBackup vol))
    then []
    else if templateFile vol then [CopyTemplate] else [WriteMinimalConfig].
Proof.
  unfold prepare, restoreConfig, restoreSkills, initConfig, restores. cbv zeta.
  destruct (nestedBackup vol), (legacyBackup vol);
    destruct (Z.eqb (should_restore_from_r2 date (manifests vol)) 0);
    cbv iota beta; rewrite ?List.filter_app;
    destruct (configFile vol), (templateFile vol); cbn [negb orb andb];
    repeat match goal with
           | |- context [if ?b then _ else _] => destruct b
           end; reflexivity.
Qed.

End BootBlocks.

Section BootWitnesses.
Import Script ScriptSpec Boot BootCover.

Lemma skills_skipped_after_config_restore_witness :
  List.filter isCopySkills (prepare sampleDate fullVolume true) = [].
Proof.
  apply (skills_skipped_after_config_restore sampleDate fullVolume true
           "/data/moltbot/clawdbot/.").
  - vm_compute. tauto.
  - left. reflexivity.
Defined.

Lemma no_copy_without_backup_manifest_witness :
  prepare sampleDate
    {| nestedBackup := true; legacyBackup := true; skillsBackup := true;
       manifests := {| R2_SYNC_FILE := None; LOCAL_SYNC_FILE := None |};
       nestedManifest := None; configFile := false; templateFile := false |} false
  = initConfig
      {| nestedBackup := true; legacyBackup := true; skillsBackup := true;
         manifests := {| R2_SYNC_FILE := None; LOCAL_SYNC_FILE := None |};
         nestedManifest := None; configFile := false; templateFile := false |} false.
Proof.
  apply (no_copy_without_backup_manifest sampleDate
           {| nestedBackup := true; legacyBackup := true; skillsBackup := true;
              manifests := {| R2_SYNC_FILE := None; LOCAL_SYNC_FILE := None |};
              nestedManifest := None; configFile := false; templateFile := false |} false).
  reflexivity.
Defined.

End BootWitnesses.

(** ** The node program: what a run leaves alone *)

Section Footprint.
Import Node Synth SynthSpec SynthCover.

Lemma bind_inv {A B} (m : Node.t A) (k : A -> Node.t B) (v v' : value) (b : B) :
  Node.bind m k v = Ok (b, v') ->
  exists a v0, m v = Ok (a, v0) /\ k a v0 = Ok (b, v').
Proof.
  unfold Node.bind. destruct (m v) as [[a v0]|e]; [eauto | discriminate].
Qed.

(** A read that returns finds what stands at the path. *)
Lemma read_ok_nav (v : value) (q : path) (o : option value) :
  read v q = Ok o -> nav v q = o.
Proof.
  revert v. induction q as [|k q IH]; intros v H.
  - cbn in H. now injection H as <-.
  - cbn [nav]. destruct v; cbn [read] in H; try discriminate;
      (destruct (getOwn _ k) as [c|];
       [ now apply IH | destruct q; [now injection H as <- | discriminate] ]).
Qed.

Lemma assign_cons_eq (v c : value) (k k' : string) (q : path) (x : value) :
  getOwn v k = Some c ->
  assign v (k :: k' :: q) x
  = match assign c (k' :: q) x with
    | Ok c' => Ok (setOwn v k c')
    | Throw e => Throw e
    end.
Proof.
  intros Hg. destruct v; try discriminate Hg;
    change (assign ?w (k :: k' :: q) x)
      with (match getOwn w k with
            | Some c =>
                match assign c (k' :: q) x with
                | Ok c' => Ok (setOwn w k c')
                | Throw e => Throw e
                end
            | None =>
                Throw (match q with
                       | [] => cannotSet "undefined" k'
                       | _ => cannotRead "undefined" k'
                       end)
            end);
    now rewrite Hg.
Qed.

(** Assigning to a path the value that stands there changes nothing. *)
Lemma assign_same (v : value) (q : path) (x : value) :
  q <> [] -> nav v q = Some x -> assign v q x = Ok v.
Proof.
  revert v. induction q as [|k q IH]; intros v Hq Hn; [congruence|].
  cbn [nav] in Hn. destruct (getOwn v k) as [c|] eqn:Hg; [|discriminate].
  destruct q as [|k' q'].
  - cbn in Hn. injection Hn as ->.
    destruct v; cbn in Hg |- *; try discriminate; now rewrite setKey_same.
  - assert (Hc : assign c (k' :: q') x = Ok c) by (apply IH; [discriminate | exact Hn]).
    rewrite (assign_cons_eq v c k k' q' x Hg), Hc.
    destruct v; cbn in Hg |- *; try discriminate; now rewrite setKey_same.
Qed.

(** An assignment that returns has stored the value, or has silently done
    nothing (on a primitive). *)
Lemma assign_result (v v' : value) (q : path) (x : value) :
  q <> [] -> assign v q x = Ok v' -> nav v' q = Some x \/ v' = v.
Proof.
  revert v v'. induction q as [|k q IH]; intros v v' Hq Ha; [congruence|].
  destruct q as [|k' q'].
  - apply assign_single_inv in Ha. subst v'.
    destruct v; cbn; auto; left; now rewrite lookup_setKey_same.
  - apply assign_cons_inv in Ha. destruct Ha as (c & c' & Hg & Hc & ->).
    destruct (IH c c' ltac:(discriminate) Hc) as [Hn | ->].
    + left. cbn [nav]. now rewrite (getOwn_setOwn_same v c k c' Hg).
    + right. destruct v; cbn in Hg |- *; try discriminate; now rewrite setKey_same.
Qed.

Lemma remove_single_inv (v v' : value) (k : string) :
  remove v [k] = Ok v' -> v' = deleteOwn v k.
Proof. destruct v; simpl; congruence. Qed.

Lemma remove_cons_inv (v v' : value) (k k' : string) (q : path) :
  remove v (k :: k' :: q) = Ok v' ->
  exists c c', getOwn v k = Some c /\ remove c (k' :: q) = Ok c'
               /\ v' = setOwn v k c'.
Proof.
  assert (E : remove v (k :: k' :: q)
              = match v with
                | VNull => Throw (cannotRead "null" k)
                | _ =>
                    match getOwn v k with
                    | Some c =>
                        match remove c (k' :: q) with
                        | Ok c' => Ok (setOwn v k c')
                        | Throw e => Throw e
                        end
                    | None =>
                        Throw (match q with
                               | [] => TypeError "Cannot convert undefined or null to object"
                               | _ => cannotRead "undefined" k'
                               end)
                    end
                end) by now destruct v.
  rewrite E. clear E. intros H.
  destruct v; cbv beta iota in H; try discriminate;
    (destruct (getOwn _ k) as [c|] eqn:Hg; [|discriminate];
     destruct (remove c (k' :: q)) as [c'|e] eqn:Hc; [|discriminate];
     exists c, c'; repeat split; congruence).
Qed.

Lemma remove_nav_diverge_any (v v' : value) (q r : path) :
  remove v q = Ok v' -> diverge r q = true -> nav v' r = nav v r.
Proof.
  revert v v' r. induction q as [|k q IH]; intros v v' r Ha Hd.
  - now destruct r.
  - destruct r as [|a r]; [discriminate|]. cbn [diverge] in Hd.
    destruct q as [|k' q'].
    + apply remove_single_inv in Ha. subst v'.
      destruct (String.eqb a k) eqn:E; [now destruct r|].
      cbn [nav]. now rewrite getOwn_deleteOwn_other.
    + apply remove_cons_inv in Ha. destruct Ha as (c & c' & Hg & Hc & ->).
      cbn [nav]. destruct (String.eqb a k) eqn:E.
      * apply String.eqb_eq in E. subst a.
        rewrite (getOwn_setOwn_same v c k c' Hg), Hg. now apply (IH c c').
      * now rewrite getOwn_setOwn_other.
Qed.

(** *** What each kind of statement leaves alone *)

Lemma leaves_ret {A} (r : path) (a : A) : leaves r (Node.ret a).
Proof. intros v a' v' H. cbv in H. now injection H as _ <-. Qed.

Lemma leaves_bind {A B} (r : path) (m : Node.t A) (k : A -> Node.t B) :
  leaves r m -> (forall a, leaves r (k a)) -> leaves r (Node.bind m k).
Proof.
  intros Hm Hk v b v' H. apply bind_inv in H. destruct H as (a & v0 & H1 & H2).
  rewrite (Hk a v0 b v' H2). exact (Hm v a v0 H1).
Qed.

Lemma leaves_rd (r p : path) : leaves r (rd p).
Proof.
  intros v a v' H. unfold rd, lift in H. destruct (read v p); [|discriminate].
  now injection H as _ <-.
Qed.

Lemma leaves_lift {A} (r : path) (x : result A) : leaves r (lift x).
Proof.
  intros v a v' H. unfold lift in H. destruct x; [|discriminate].
  now injection H as _ <-.
Qed.

Lemma leaves_wr (r q : path) (x : value) :
  diverge r q = true -> leaves r (wr q x).
Proof.
  intros Hd v a v' H. unfold wr in H.
  destruct (assign v q x) as [w|e] eqn:Ha; [|discriminate]. injection H as _ <-.
  now apply (assign_nav_diverge v w q r x).
Qed.

Lemma leaves_del (r q : path) :
  diverge r q = true -> leaves r (del q).
Proof.
  intros Hd v a v' H. unfold del in H.
  destruct (remove v q) as [w|e] eqn:Ha; [|discriminate]. injection H as _ <-.
  now apply (remove_nav_diverge_any v w q r).
Qed.

(** [x = x || {}] changes at most the value at the path itself, and what
    contains it. *)
Lemma leaves_ensure (r q : path) :
  q <> [] -> is_prefix r q = false -> leaves r (ensure q).
Proof.
  intros Hq Hp v a v' H. unfold ensure in H.
  apply bind_inv in H. destruct H as (o & v0 & Hrd & Hwr).
  unfold rd, lift in Hrd. destruct (read v q) as [o'|e] eqn:Hread; [|discriminate].
  injection Hrd as -> ->. apply read_ok_nav in Hread.
  unfold wr in Hwr. destruct (assign v0 q (orEmpty o)) as [w|e] eqn:Ha; [|discriminate].
  injection Hwr as _ <-.
  destruct (truthy o) eqn:Ht.
  - destruct o as [x|]; [|discriminate]. unfold orEmpty in Ha. rewrite Ht in Ha.
    rewrite (assign_same v0 q x Hq Hread) in Ha. now injection Ha as <-.
  - assert (Hor : orEmpty o = VObj []).
    { destruct o as [x|]; [|reflexivity]. unfold orEmpty. now rewrite Ht. }
    rewrite Hor in Ha.
    destruct (prefix_cases r q Hp) as [Hd | (k & r' & ->)].
    + now apply (assign_nav_diverge v0 w q r (VObj [])).
    + destruct (assign_result v0 w q (VObj []) Hq Ha) as [Hn | ->]; [|reflexivity].
      rewrite !nav_app, Hn, Hread. cbn [nav getOwn lookupKey].
      destruct o as [x|]; [|reflexivity]. symmetry. now apply falsy_no_child.
Qed.

Lemma leaves_when (r : path) (b : bool) (m : Node.t unit) :
  (b = true -> leaves r m) -> leaves r (Node.when b m).
Proof. destruct b; intros H; [now apply H | apply leaves_ret]. Qed.

Lemma leaves_forEach {A} (r : path) (xs : list A) (body : A -> Node.t unit) :
  (forall x, In x xs -> leaves r (body x)) -> leaves r (Node.forEach xs body).
Proof.
  induction xs as [|x xs IH]; intros H; [apply leaves_ret|].
  cbn [Node.forEach]. apply leaves_bind; [apply H; now left|].
  intros _. apply IH. intros y Hy. apply H. now right.
Qed.

End Footprint.

(** The side condition of a frame step: two paths part ways, or one is no
    prefix of the other; keys that are variables are told apart by the
    hypotheses. *)
Ltac apart :=
  cbn [SynthSpec.diverge SynthSpec.is_prefix];
  repeat match goal with
         | H : String.eqb _ _ = false |- _ => rewrite H
         end;
  cbn [andb]; reflexivity.

(** What a program leaves alone, statement by statement; [side] settles
    that the path and the target of a statement are apart. *)
Ltac frame_by side :=
  repeat first
    [ apply leaves_ret
    | apply leaves_rd
    | apply leaves_lift
    | apply leaves_wr; side
    | apply leaves_ensure; [discriminate | side]
    | apply leaves_del; side
    | apply leaves_bind; [|intros ?]
    | match goal with
      | |- SynthCover.leaves _ (if ?b then _ else _) => destruct b eqn:?
      | |- SynthCover.leaves _ (match ?x with _ => _ end) => destruct x eqn:?
      end ].

Ltac frame := frame_by apart.

Ltac unfold_program :=
  unfold Synth.updateConfig, Synth.ensureNested, Synth.purgeBrokenAnthropic,
    Synth.gatewaySection, Synth.telegramSection, Synth.discordSection,
    Synth.slackSection, Synth.providerSection, Synth.googleBranch, Synth.openaiBranch,
    Synth.anthropicBranch, Synth.setPrimary, Synth.allow, Node.when,
    Synth.googleModels, Synth.openaiModels, Synth.anthropicModels;
  cbn [Node.forEach]; cbv zeta.

(** Split the boolean conjunctions among the hypotheses. *)
Ltac conjuncts :=
  repeat match goal with
         | H : _ && _ = true |- _ => apply andb_true_iff in H; destruct H
         | H : true = true |- _ => clear H
         end.

(** The containers above a path are slots of the program. *)
Ltac along_slots :=
  let v := fresh "v" in
  let Hs := fresh "Hs" in
  intros v Hs; unfold SynthSpec.shaped, SynthSpec.slots in Hs; cbn [forallb] in Hs;
  cbn [SynthSpec.alongOk app];
  conjuncts;
  repeat (apply andb_true_iff; split); try reflexivity; assumption.

Section Survival.
Import Node Synth SynthSpec SynthCover.

Lemma nav_single (v : value) (k : string) : nav v [k] = getOwn v k.
Proof. cbn. now destruct (getOwn v k). Qed.

(** The program never touches what stands under another top-level key
    than its four. *)
Lemma updateConfig_leaves_root (env : ProcessEnv) (k : string) (r : path) :
  existsb (String.eqb k) managedRoots = false ->
  leaves (k :: r) (updateConfig env).
Proof.
  intros Hk. cbn in Hk. rewrite !orb_false_iff in Hk.
  destruct Hk as (Ha & Hg & Hc & Hm & _).
  unfold_program. frame.
Qed.

(** X21. Settings the program does not manage survive a run. Whatever stands in
    the configuration under a top-level key other than [agents], [gateway],
    [channels] and [models] is written back as it was read, for every
    environment. *)
Theorem unmanaged_keys_survive (env : ProcessEnv) (config : value) (k : string) :
  wellShaped config = true ->
  existsb (String.eqb k) managedRoots = false ->
  exists out, synthesize env (Some config) = Ok out
    /\ getOwn out k = option_map toJSON (getOwn config k).
Proof.
  intros Hwf Hk.
  destruct (updateConfig_ok env config Hwf) as (v' & Hrun & _ & Hobj & _).
  exists (toJSON v'). unfold synthesize, loadConfig. rewrite Hrun.
  split; [reflexivity|].
  pose proof (updateConfig_leaves_root env k [] Hk config tt v' Hrun) as Hkeep.
  rewrite !nav_single in Hkeep. rewrite <- Hkeep.
  apply objs_root in Hobj. destruct v'; try discriminate.
  cbn [toJSON getOwn]. apply lookup_toJSON.
Qed.

Lemma unmanaged_keys_survive_witness :
  exists out,
    synthesize emptyEnv (Some (VObj [("skills", VObj [("enabled", VBool true)])])) = Ok out
    /\ getOwn out "skills"
       = option_map toJSON
           (getOwn (VObj [("skills", VObj [("enabled", VBool true)])]) "skills").
Proof.
  apply (unmanaged_keys_survive emptyEnv
           (VObj [("skills", VObj [("enabled", VBool true)])]) "skills");
    reflexivity.
Defined.


(** What the program leaves alone is written back as it was read. *)
Lemma survives (env : ProcessEnv) (config : value) (r : path) :
  wellShaped config = true ->
  leaves r (updateConfig env) ->
  (forall v, shaped v = true -> alongOk v [] r = true) ->
  exists out, synthesize env (Some config) = Ok out
    /\ nav out r = option_map toJSON (nav config r).
Proof.
  intros Hwf Hleaves Halong.
  destruct (updateConfig_ok env config Hwf) as (v' & Hrun & Hshaped & Hobj & _).
  exists (toJSON v'). unfold synthesize, loadConfig. rewrite Hrun.
  split; [reflexivity|].
  rewrite <- (Hleaves config tt v' Hrun).
  apply toJSON_nav_plain.
  apply (plainTo_along v' r [] v' eq_refl); [|now apply Halong].
  apply objs_root in Hobj. now rewrite Hobj.
Qed.

(** X22. Credentials of an earlier run stay in the configuration. When the
    gateway token is no longer in the environment, [gateway.auth] is written
    back as it was, the token of the earlier run included; and when dev mode is
    no longer on, [gateway.controlUi] is written back as it was, so that
    [allowInsecureAuth] stays [true] once it was set. *)
Theorem stale_gateway_settings (env : ProcessEnv) (config : value) :
  wellShaped config = true ->
  exists out, synthesize env (Some config) = Ok out
    /\ (truthyS (CLAWDBOT_GATEWAY_TOKEN env) = false ->
        nav out ["gateway"; "auth"] = option_map toJSON (nav config ["gateway"; "auth"]))
    /\ (devMode env = false ->
        nav out ["gateway"; "controlUi"]
        = option_map toJSON (nav config ["gateway"; "controlUi"])).
Proof.
  intros Hwf.
  destruct (updateConfig_ok env config Hwf) as (v' & Hrun & _).
  exists (toJSON v'). split; [unfold synthesize, loadConfig; now rewrite Hrun|].
  split.
  - intros Htoken.
    destruct (survives env config ["gateway"; "auth"] Hwf) as (out & Hout & Hnav).
    + unfold_program. rewrite Htoken. frame.
    + along_slots.
    + unfold synthesize, loadConfig in Hout. rewrite Hrun in Hout.
      injection Hout as <-. exact Hnav.
  - intros Hdev. unfold devMode in Hdev.
    destruct (survives env config ["gateway"; "controlUi"] Hwf) as (out & Hout & Hnav).
    + unfold_program. rewrite Hdev. frame.
    + along_slots.
    + unfold synthesize, loadConfig in Hout. rewrite Hrun in Hout.
      injection Hout as <-. exact Hnav.
Qed.

Lemma stale_gateway_settings_witness :
  exists out, synthesize emptyEnv (Some earlierConfig) = Ok out
    /\ (truthyS (CLAWDBOT_GATEWAY_TOKEN emptyEnv) = false ->
        nav out ["gateway"; "auth"]
        = option_map toJSON (nav earlierConfig ["gateway"; "auth"]))
    /\ (devMode emptyEnv = false ->
        nav out ["gateway"; "controlUi"]
        = option_map toJSON (nav earlierConfig ["gateway"; "controlUi"])).
Proof. apply (stale_gateway_settings emptyEnv earlierConfig). reflexivity. Defined.

(** X23. A channel stays configured when its token is gone. Without
    [TELEGRAM_BOT_TOKEN] the program writes [channels.telegram] back as it was,
    without [DISCORD_BOT_TOKEN] [channels.discord], and unless both
    [SLACK_BOT_TOKEN] and [SLACK_APP_TOKEN] are set [channels.slack]: a channel
    that an earlier run enabled is neither removed nor disabled. *)
Theorem channel_kept_without_token (env : ProcessEnv) (config : value) :
  wellShaped config = true ->
  exists out, synthesize env (Some config) = Ok out
    /\ (truthyS (TELEGRAM_BOT_TOKEN env) = false ->
        nav out ["channels"; "telegram"]
        = option_map toJSON (nav config ["channels"; "telegram"]))
    /\ (truthyS (DISCORD_BOT_TOKEN env) = false ->
        nav out ["channels"; "discord"]
        = option_map toJSON (nav config ["channels"; "discord"]))
    /\ (truthyS (SLACK_BOT_TOKEN env) && truthyS (SLACK_APP_TOKEN env) = false ->
        nav out ["channels"; "slack"]
        = option_map toJSON (nav config ["channels"; "slack"])).
Proof.
  intros Hwf.
  destruct (updateConfig_ok env config Hwf) as (v' & Hrun & _).
  exists (toJSON v'). split; [unfold synthesize, loadConfig; now rewrite Hrun|].
  assert (Hsame : forall r,
            leaves r (updateConfig env) ->
            (forall v, shaped v = true -> alongOk v [] r = true) ->
            nav (toJSON v') r = option_map toJSON (nav config r)).
  { intros r Hl Ha. destruct (survives env config r Hwf Hl Ha) as (out & Hout & Hnav).
    unfold synthesize, loadConfig in Hout. rewrite Hrun in Hout.
    injection Hout as <-. exact Hnav. }
  split; [|split]; intros Hoff; apply Hsame; try along_slots;
    unfold_program; rewrite Hoff; frame.
Qed.

Lemma channel_kept_without_token_witness :
  exists out, synthesize emptyEnv (Some earlierConfig) = Ok out
    /\ (truthyS (TELEGRAM_BOT_TOKEN emptyEnv) = false ->
        nav out ["channels"; "telegram"]
        = option_map toJSON (nav earlierConfig ["channels"; "telegram"]))
    /\ (truthyS (DISCORD_BOT_TOKEN emptyEnv) = false ->
        nav out ["channels"; "discord"]
        = option_map toJSON (nav earlierConfig ["channels"; "discord"]))
    /\ (truthyS (SLACK_BOT_TOKEN emptyEnv) && truthyS (SLACK_APP_TOKEN emptyEnv) = false ->
        nav out ["channels"; "slack"]
        = option_map toJSON (nav earlierConfig ["channels"; "slack"])).
Proof. apply (channel_kept_without_token emptyEnv earlierConfig). reflexivity. Defined.


(** X24. What an earlier run left under [agents.defaults] stays there. A key of
    [agents.defaults] other than [model] and [models], such as the workspace,
    is written back as it was; and so is every entry of the model allowlist
    under a key that the branch taken does not register: the allowlist only
    grows, the models of a provider selected earlier stay allowed. *)
Theorem defaults_and_allowlist_survive (env : ProcessEnv) (config : value) :
  wellShaped config = true ->
  exists out, synthesize env (Some config) = Ok out
    /\ (forall k, existsb (String.eqb k) managedDefaults = false ->
          nav out ["agents"; "defaults"; k]
          = option_map toJSON (nav config ["agents"; "defaults"; k]))
    /\ (forall key, forallb (fun e => negb (String.eqb key (fst e))) (aliases env) = true ->
          allowed out key = option_map toJSON (allowed config key)).
Proof.
  intros Hwf.
  destruct (updateConfig_ok env config Hwf) as (v' & Hrun & _).
  exists (toJSON v'). split; [unfold synthesize, loadConfig; now rewrite Hrun|].
  assert (Hsame : forall r,
            leaves r (updateConfig env) ->
            (forall v, shaped v = true -> alongOk v [] r = true) ->
            nav (toJSON v') r = option_map toJSON (nav config r)).
  { intros r Hl Ha. destruct (survives env config r Hwf Hl Ha) as (out & Hout & Hnav).
    unfold synthesize, loadConfig in Hout. rewrite Hrun in Hout.
    injection Hout as <-. exact Hnav. }
  split.
  - intros k Hk. cbn in Hk. rewrite !orb_false_iff in Hk. destruct Hk as (H1 & H2 & _).
    apply Hsame; [|along_slots]. unfold_program. frame.
  - intros key Hkey. unfold allowed. apply Hsame; [|along_slots].
    assert (Hkeys : forall L, In L (map fst (aliases env)) -> String.eqb key L = false).
    { intros L HL. apply in_map_iff in HL. destruct HL as (e & <- & He).
      rewrite forallb_forall in Hkey. apply negb_true_iff. now apply Hkey. }
    clear Hkey. revert Hkeys. unfold aliases. unfold_program.
    destruct (isGoogle env);
      [destruct (Str.endsWith (baseUrl env) "/openai") | destruct (isOpenAI env)];
      intros Hkeys;
      frame_by ltac:(cbn [diverge is_prefix];
                     repeat match goal with
                            | |- context [String.eqb key ?L] =>
                                rewrite (Hkeys L) by (cbn; auto 20)
                            end;
                     reflexivity).
Qed.

Lemma defaults_and_allowlist_survive_witness :
  exists out, synthesize emptyEnv (Some earlierConfig) = Ok out
    /\ (forall k, existsb (String.eqb k) managedDefaults = false ->
          nav out ["agents"; "defaults"; k]
          = option_map toJSON (nav earlierConfig ["agents"; "defaults"; k]))
    /\ (forall key,
          forallb (fun e => negb (String.eqb key (fst e))) (aliases emptyEnv) = true ->
          allowed out key = option_map toJSON (allowed earlierConfig key)).
Proof. apply (defaults_and_allowlist_survive emptyEnv earlierConfig). reflexivity. Defined.

End Survival.

(** ** The node program: what a run writes *)

(** The facts gathered by a symbolic run close a goal made of them, or of
    implications whose premise the run has decided. *)
Ltac gathered :=
  repeat match goal with |- _ /\ _ => split end;
  intros; first [ assumption | congruence ].

Section Written.
Import Node Synth SynthSpec SynthCover.

(** What "Gateway configuration" has written when it ends. *)
Lemma gatewaySection_writes (env : ProcessEnv) (v : value) :
  objs v ["gateway"] = true ->
  slot_ok v ["gateway"; "auth"] = true ->
  slot_ok v ["gateway"; "controlUi"] = true ->
  exists v', gatewaySection env v = Ok (tt, v')
    /\ nav v' ["gateway"; "port"] = Some (VNum 18789)
    /\ nav v' ["gateway"; "mode"] = Some (VStr "local")
    /\ nav v' ["gateway"; "trustedProxies"] = Some (VArr [VStr "10.1.0.0"] [])
    /\ (truthyS (CLAWDBOT_GATEWAY_TOKEN env) = true ->
        nav v' ["gateway"; "auth"; "token"]
        = Some (VStr (default EmptyString (CLAWDBOT_GATEWAY_TOKEN env))))
    /\ (devMode env = true ->
        nav v' ["gateway"; "controlUi"; "allowInsecureAuth"] = Some (VBool true)).
Proof.
  intros O S1 S2. unfold devMode.
  unfold gatewaySection, when. step. step. step.
  destruct (truthyS (CLAWDBOT_GATEWAY_TOKEN env)).
  - rewrite bind_assoc. step. step.
    destruct (match CLAWDBOT_DEV_MODE env with Some _ => _ | None => _ end).
    + step. last_step. gathered.
    + last_step. gathered.
  - rewrite bind_ret.
    destruct (match CLAWDBOT_DEV_MODE env with Some _ => _ | None => _ end).
    + step. last_step. gathered.
    + last_step. gathered.
Qed.




(** The states between the sections of a run on a document of the expected
    shape, each with what the next section needs. *)
Lemma sections_run (env : ProcessEnv) (config : value) :
  wellShaped config = true ->
  exists mid v1 v2 v3 v4 v',
    Node.bind ensureNested (fun _ => purgeBrokenAnthropic) config = Ok (tt, mid)
    /\ gatewaySection env mid = Ok (tt, v1)
    /\ telegramSection env v1 = Ok (tt, v2)
    /\ discordSection env v2 = Ok (tt, v3)
    /\ slackSection env v3 = Ok (tt, v4)
    /\ providerSection env v4 = Ok (tt, v')
    /\ updateConfig env config = Ok (tt, v')
    /\ shaped v' = true
    /\ isObj v' = true
    /\ (objs mid ["gateway"] = true /\ slot_ok mid ["gateway"; "auth"] = true
        /\ slot_ok mid ["gateway"; "controlUi"] = true)
    /\ (objs v1 ["channels"] = true /\ slot_ok v1 ["channels"; "telegram"] = true)
    /\ (objs v2 ["channels"] = true /\ slot_ok v2 ["channels"; "discord"] = true
        /\ slot_ok v2 ["channels"; "discord"; "dm"] = true)
    /\ (objs v3 ["channels"] = true /\ slot_ok v3 ["channels"; "slack"] = true).
Proof.
  intros Hwf.
  destruct (prelude_ok config Hwf) as (mid & Hpre & Hready & Hall & _).
  unfold ready in Hready. cbn [forallb] in Hready. conjuncts.
  assert (Pre1 : objs mid ["gateway"] = true /\ slot_ok mid ["gateway"; "auth"] = true
                 /\ slot_ok mid ["gateway"; "controlUi"] = true)
    by (repeat split; assumption).
  destruct (gatewaySection_ok env mid ltac:(assumption) ltac:(assumption)
              ltac:(assumption) Hall) as (v1 & Hrun1 & Hfr1 & Hall1).
  carry_framed mid v1 Hfr1. clear Hfr1.
  assert (Pre2 : objs v1 ["channels"] = true /\ slot_ok v1 ["channels"; "telegram"] = true)
    by (split; assumption).
  destruct (telegramSection_ok env v1 ltac:(assumption) ltac:(assumption) Hall1)
    as (v2 & Hrun2 & Hfr2 & Hall2).
  carry_framed v1 v2 Hfr2. clear Hfr2.
  assert (Pre3 : objs v2 ["channels"] = true /\ slot_ok v2 ["channels"; "discord"] = true
                 /\ slot_ok v2 ["channels"; "discord"; "dm"] = true)
    by (repeat split; assumption).
  destruct (discordSection_ok env v2 ltac:(assumption) ltac:(assumption)
              ltac:(assumption) Hall2) as (v3 & Hrun3 & Hfr3 & Hall3).
  carry_framed v2 v3 Hfr3. clear Hfr3.
  assert (Pre4 : objs v3 ["channels"] = true /\ slot_ok v3 ["channels"; "slack"] = true)
    by (split; assumption).
  destruct (slackSection_ok env v3 ltac:(assumption) ltac:(assumption) Hall3)
    as (v4 & Hrun4 & Hfr4 & Hall4).
  carry_framed v3 v4 Hfr4. clear Hfr4.
  destruct (providerSection_ok env v4 ltac:(assumption) ltac:(assumption)
              ltac:(assumption) ltac:(assumption) Hall4)
    as (v' & Hrun5 & P0 & P1 & _).
  exists mid, v1, v2, v3, v4, v'.
  destruct Pre1 as (? & ? & ?), Pre2 as (? & ?), Pre3 as (? & ? & ?), Pre4 as (? & ?).
  repeat match goal with |- _ /\ _ => split end; try assumption.
  - rewrite (updateConfig_split env config mid Hpre). unfold afterCleanUp.
    rewrite (bind_run _ _ mid v1 tt Hrun1), (bind_run _ _ v1 v2 tt Hrun2),
      (bind_run _ _ v2 v3 tt Hrun3), (bind_run _ _ v3 v4 tt Hrun4).
    exact Hrun5.
  - apply objs_root in P1. exact P1.
Qed.

(** Reading the written document at a path below slots of the program. *)
Lemma output_nav (v' : value) (r : path) :
  shaped v' = true -> isObj v' = true ->
  (forall v, shaped v = true -> alongOk v [] r = true) ->
  nav (toJSON v') r = option_map toJSON (nav v' r).
Proof.
  intros Hshaped Hobj Halong. apply toJSON_nav_plain.
  apply (plainTo_along v' r [] v' eq_refl); [now rewrite Hobj | now apply Halong].
Qed.



(** Reading the output of a run at a path the later sections leave alone. *)
Lemma written_value (v v' : value) (r : path) (x : value) (m : Node.t unit) :
  m v = Ok (tt, v') ->
  leaves r m ->
  shaped v' = true -> isObj v' = true ->
  (forall w, shaped w = true -> alongOk w [] r = true) ->
  toJSON x = x ->
  nav v r = Some x ->
  nav (toJSON v') r = Some x.
Proof.
  intros Hrun Hl Hshaped Hobj Halong Hx Hn.
  rewrite (output_nav v' r Hshaped Hobj Halong), (Hl v tt v' Hrun), Hn.
  cbn [option_map]. now rewrite Hx.
Qed.

(** X25. The gateway section is rewritten on every run. Whatever the earlier
    configuration held, the written one has [gateway.port] 18789,
    [gateway.mode] ["local"] and [gateway.trustedProxies] [["10.1.0.0"]]; with
    a gateway token in the environment [gateway.auth.token] is that token, and
    in dev mode [gateway.controlUi.allowInsecureAuth] is [true]. *)
Theorem gateway_settings_forced (env : ProcessEnv) (config : value) :
  wellShaped config = true ->
  exists out, synthesize env (Some config) = Ok out
    /\ nav out ["gateway"; "port"] = Some (VNum 18789)
    /\ nav out ["gateway"; "mode"] = Some (VStr "local")
    /\ nav out ["gateway"; "trustedProxies"] = Some (VArr [VStr "10.1.0.0"] [])
    /\ (truthyS (CLAWDBOT_GATEWAY_TOKEN env) = true ->
        nav out ["gateway"; "auth"; "token"]
        = Some (VStr (default EmptyString (CLAWDBOT_GATEWAY_TOKEN env))))
    /\ (devMode env = true ->
        nav out ["gateway"; "controlUi"; "allowInsecureAuth"] = Some (VBool true)).
Proof.
  intros Hwf.
  destruct (sections_run env config Hwf)
    as (mid & v1 & v2 & v3 & v4 & v' & _ & R1 & R2 & R3 & R4 & R5 & Hrun & Hshaped & Hobj
        & (O1 & S1 & S2) & _).
  destruct (gatewaySection_writes env mid O1 S1 S2)
    as (w & Hw & Wport & Wmode & Wproxies & Wtoken & Wdev).
  rewrite R1 in Hw. injection Hw as <-.
  assert (Hrest : Node.bind (telegramSection env) (fun _ =>
                  Node.bind (discordSection env) (fun _ =>
                  Node.bind (slackSection env) (fun _ => providerSection env))) v1
                  = Ok (tt, v')).
  { now rewrite (bind_run _ _ v1 v2 tt R2), (bind_run _ _ v2 v3 tt R3),
      (bind_run _ _ v3 v4 tt R4). }
  exists (toJSON v'). split; [unfold synthesize, loadConfig; now rewrite Hrun|].
  assert (Hout : forall r x,
            leaves r (Node.bind (telegramSection env) (fun _ =>
                      Node.bind (discordSection env) (fun _ =>
                      Node.bind (slackSection env) (fun _ => providerSection env)))) ->
            (forall w, shaped w = true -> alongOk w [] r = true) ->
            toJSON x = x -> nav v1 r = Some x -> nav (toJSON v') r = Some x).
  { intros r x Hl Ha Hx Hn.
    exact (written_value v1 v' r x _ Hrest Hl Hshaped Hobj Ha Hx Hn). }
  split; [|split; [|split; [|split]]].
  - apply Hout; [unfold_program; frame | along_slots | reflexivity | exact Wport].
  - apply Hout; [unfold_program; frame | along_slots | reflexivity | exact Wmode].
  - apply Hout; [unfold_program; frame | along_slots | reflexivity | exact Wproxies].
  - intros Ht.
    apply Hout; [unfold_program; frame | along_slots | reflexivity | exact (Wtoken Ht)].
  - intros Hd.
    apply Hout; [unfold_program; frame | along_slots | reflexivity | exact (Wdev Hd)].
Qed.

Lemma gateway_settings_forced_witness :
  exists out, synthesize channelsEnv (Some earlierConfig) = Ok out
    /\ nav out ["gateway"; "port"] = Some (VNum 18789)
    /\ nav out ["gateway"; "mode"] = Some (VStr "local")
    /\ nav out ["gateway"; "trustedProxies"] = Some (VArr [VStr "10.1.0.0"] [])
    /\ (truthyS (CLAWDBOT_GATEWAY_TOKEN channelsEnv) = true ->
        nav out ["gateway"; "auth"; "token"]
        = Some (VStr (default EmptyString (CLAWDBOT_GATEWAY_TOKEN channelsEnv))))
    /\ (devMode channelsEnv = true ->
        nav out ["gateway"; "controlUi"; "allowInsecureAuth"] = Some (VBool true)).
Proof. apply (gateway_settings_forced channelsEnv earlierConfig). reflexivity. Defined.

End Written.

(** ** The node program: a root that is no object *)

Section Roots.
Import Node Synth SynthSpec SynthCover RootCover.

Variable elems : list value.

Lemma read_array (props : list (string * value)) (q : path) :
  q <> [] -> read (VArr elems props) q = read (VObj props) q.
Proof. destruct q as [|k q]; [congruence | reflexivity]. Qed.

Lemma assign_array (props : list (string * value)) (q : path) (x : value) :
  q <> [] ->
  (exists props', assign (VObj props) q x = Ok (VObj props')
                  /\ assign (VArr elems props) q x = Ok (VArr elems props'))
  \/ (exists e, assign (VObj props) q x = Throw e
                /\ assign (VArr elems props) q x = Throw e).
Proof.
  intros Hq. destruct q as [|k [|k' q]]; [congruence| |].
  - left. eexists. split; reflexivity.
  - assert (E : forall w, getOwn w k = lookupKey k props -> nonNull w = true ->
                 assign w (k :: k' :: q) x
                 = match lookupKey k props with
                   | Some c =>
                       match assign c (k' :: q) x with
                       | Ok c' => Ok (setOwn w k c')
                       | Throw e => Throw e
                       end
                   | None =>
                       Throw (match q with
                              | [] => cannotSet "undefined" k'
                              | _ => cannotRead "undefined" k'
                              end)
                   end).
    { intros w Hw Hnn. rewrite <- Hw. now destruct w. }
    rewrite (E (VObj props) eq_refl eq_refl), (E (VArr elems props) eq_refl eq_refl).
    destruct (lookupKey k props) as [c|].
    + destruct (assign c (k' :: q) x) as [c'|e].
      * left. eexists. split; reflexivity.
      * right. eexists. split; reflexivity.
    + right. eexists. split; reflexivity.
Qed.

Lemma remove_array (props : list (string * value)) (q : path) :
  q <> [] ->
  (exists props', remove (VObj props) q = Ok (VObj props')
                  /\ remove (VArr elems props) q = Ok (VArr elems props'))
  \/ (exists e, remove (VObj props) q = Throw e
                /\ remove (VArr elems props) q = Throw e).
Proof.
  intros Hq. destruct q as [|k [|k' q]]; [congruence| |].
  - left. eexists. split; reflexivity.
  - assert (E : forall w, getOwn w k = lookupKey k props -> nonNull w = true ->
                 remove w (k :: k' :: q)
                 = match lookupKey k props with
                   | Some c =>
                       match remove c (k' :: q) with
                       | Ok c' => Ok (setOwn w k c')
                       | Throw e => Throw e
                       end
                   | None =>
                       Throw (match q with
                              | [] => TypeError "Cannot convert undefined or null to object"
                              | _ => cannotRead "undefined" k'
                              end)
                   end).
    { intros w Hw Hnn. rewrite <- Hw. now destruct w. }
    rewrite (E (VObj props) eq_refl eq_refl), (E (VArr elems props) eq_refl eq_refl).
    destruct (lookupKey k props) as [c|].
    + destruct (remove c (k' :: q)) as [c'|e].
      * left. eexists. split; reflexivity.
      * right. eexists. split; reflexivity.
    + right. eexists. split; reflexivity.
Qed.

Lemma rootBlind_ret {A} (a : A) : rootBlind elems (Node.ret a).
Proof.
  intros props. split; [reflexivity|].
  intros a' v' H. cbv in H. now injection H as _ <-.
Qed.

Lemma rootBlind_lift {A} (x : result A) : rootBlind elems (lift x).
Proof.
  intros props. unfold lift. destruct x as [a|e].
  - split; [reflexivity|]. intros a' v' H. now injection H as _ <-.
  - split; [reflexivity | discriminate].
Qed.

Lemma rootBlind_rd (q : path) : q <> [] -> rootBlind elems (rd q).
Proof.
  intros Hq props. unfold rd, lift. rewrite (read_array props q Hq).
  destruct (read (VObj props) q) as [o|e].
  - split; [reflexivity|]. intros a' v' H. now injection H as _ <-.
  - split; [reflexivity | discriminate].
Qed.

Lemma rootBlind_wr (q : path) (x : value) : q <> [] -> rootBlind elems (wr q x).
Proof.
  intros Hq props. unfold wr.
  destruct (assign_array props q x Hq) as [(p' & -> & ->) | (e & -> & ->)].
  - split; [reflexivity|]. intros a' v' H. now injection H as _ <-.
  - split; [reflexivity | discriminate].
Qed.

Lemma rootBlind_del (q : path) : q <> [] -> rootBlind elems (del q).
Proof.
  intros Hq props. unfold del.
  destruct (remove_array props q Hq) as [(p' & -> & ->) | (e & -> & ->)].
  - split; [reflexivity|]. intros a' v' H. now injection H as _ <-.
  - split; [reflexivity | discriminate].
Qed.

Lemma rootBlind_bind {A B} (m : Node.t A) (k : A -> Node.t B) :
  rootBlind elems m -> (forall a, rootBlind elems (k a)) ->
  rootBlind elems (Node.bind m k).
Proof.
  intros Hm Hk props. destruct (Hm props) as [Harr Hobj]. unfold Node.bind.
  rewrite Harr. destruct (m (VObj props)) as [[a v0]|e] eqn:Hrun.
  - specialize (Hobj a v0 eq_refl). destruct v0; try discriminate Hobj.
    cbn [onArray]. exact (Hk a props0).
  - split; [reflexivity | discriminate].
Qed.

Lemma rootBlind_ensure (q : path) : q <> [] -> rootBlind elems (ensure q).
Proof.
  intros Hq. unfold ensure. apply rootBlind_bind; [now apply rootBlind_rd|].
  intros o. now apply rootBlind_wr.
Qed.

Lemma rootBlind_forEach {A} (xs : list A) (body : A -> Node.t unit) :
  (forall x, rootBlind elems (body x)) -> rootBlind elems (Node.forEach xs body).
Proof.
  intros H. induction xs as [|x xs IH]; [apply rootBlind_ret|].
  cbn [Node.forEach]. apply rootBlind_bind; [apply H | intros _; exact IH].
Qed.

End Roots.

(** A program made of statements on paths below the root is blind to the
    kind of root. *)
Ltac root_blind :=
  repeat first
    [ apply rootBlind_ret
    | apply rootBlind_lift
    | apply rootBlind_rd; discriminate
    | apply rootBlind_wr; discriminate
    | apply rootBlind_del; discriminate
    | apply rootBlind_ensure; discriminate
    | apply rootBlind_bind; [|intros ?]
    | match goal with
      | |- RootCover.rootBlind _ (if ?b then _ else _) => destruct b
      | |- RootCover.rootBlind _ (match ?x with _ => _ end) => destruct x
      end ].

Section RootKinds.
Import Node Synth SynthSpec SynthCover RootCover.

Lemma updateConfig_rootBlind (elems : list value) (env : ProcessEnv) :
  rootBlind elems (updateConfig env).
Proof. unfold_program. root_blind. Qed.

(** X28. A configuration file that holds a JSON primitive stops the program. On
    [null] the first statement throws; on a number, a string or a boolean the
    assignment [config.agents = {}] is silently dropped and the next statement
    throws on reading [defaults] of [undefined]. Nothing is written. *)
Theorem primitive_config_throws (env : ProcessEnv) (config : value) :
  primitive config = true ->
  synthesize env (Some config)
  = Throw (if nonNull config
           then cannotRead "undefined" "defaults"
           else cannotRead "null" "agents").
Proof.
  intros Hprim.
  destruct config; try discriminate Hprim; reflexivity.
Qed.

Lemma primitive_config_throws_witness :
  synthesize emptyEnv (Some (VNum 7))
  = Throw (if nonNull (VNum 7)
           then cannotRead "undefined" "defaults"
           else cannotRead "null" "agents").
Proof. apply (primitive_config_throws emptyEnv (VNum 7)). reflexivity. Defined.

(** X29. A configuration file that holds a JSON array loses every setting. The
    program runs to its end, having put its settings on the array as named
    properties, and [JSON.stringify] writes the elements alone: the file
    written is the array that was read, for every environment. *)
Theorem array_config_written_back (env : ProcessEnv) (elems : list value) :
  synthesize env (Some (VArr elems [])) = Ok (VArr (List.map toJSON elems) []).
Proof.
  destruct (updateConfig_ok env (VObj []) eq_refl) as (v' & Hrun & _ & Hobj & _).
  apply objs_root in Hobj. destruct v' as [| | | | |props']; try discriminate Hobj.
  unfold synthesize, loadConfig.
  destruct (updateConfig_rootBlind elems env []) as [Harr _].
  rewrite Harr, Hrun. reflexivity.
Qed.

End RootKinds.

(** ** The reconciler: keys and URLs in terms of the bindings *)

Section ReconcilerExplicit.
Import Env EnvSpec EnvCover ReconcilerSpec.

Lemma nonEmpty_present (v : option string) : nonEmpty v = present v.
Proof. now destruct v as [[|c s]|]. Qed.

Lemma scopedKey_code (env : MoltbotEnv) : scopedKey env = present (gatewayApiKey env).
Proof.
  unfold scopedKey, gatewayApiKey, orS. rewrite !nonEmpty_present. unfold present.
  destruct (truthyS (AI_GATEWAY_API_KEY env)) eqn:Ha.
  - rewrite Ha. now destruct (AI_GATEWAY_API_KEY env).
  - reflexivity.
Qed.

Lemma googleModel_code (env : MoltbotEnv) : googleModel env = modelIsGoogle env.
Proof. reflexivity. Qed.

Lemma normalizedUrl_code (env : MoltbotEnv) :
  normalizedUrl env = present (normalizedBaseUrl env).
Proof.
  unfold normalizedUrl, gatewayUrl, normalizedBaseUrl, resolvedBaseUrl. cbv zeta.
  rewrite googleModel_code.
  destruct (AI_GATEWAY_BASE_URL env) as [[|c u]|];
    destruct (CLOUDFLARE_AI_GATEWAY_ID env) as [[|c1 gateway]|];
    destruct (CF_ACCOUNT_ID env) as [[|c2 account]|];
    cbn [nonEmpty truthyS String.eqb Ascii.eqb negb andb default from_option id
         fmap option_fmap option_map];
    first [ reflexivity | exact (nonEmpty_present (Some _)) ].
Qed.

Lemma openaiShaped_code (env : MoltbotEnv) : openaiShaped env = isOpenAIGateway env.
Proof.
  unfold openaiShaped, isOpenAIGateway. rewrite normalizedUrl_code. unfold present.
  destruct (normalizedBaseUrl env) as [[|c u]|]; reflexivity.
Qed.

(** C5. For every environment, the two API-key variables of the result are
    decided as follows. When a gateway-scoped key is present (the first of
    [AI_GATEWAY_API_KEY] and [CLOUDFLARE_AI_GATEWAY_API_KEY] that is set and
    not empty), it goes to [OPENAI_API_KEY] when the normalized base URL ends
    with [/openai], else to [ANTHROPIC_API_KEY], whatever direct key is bound
    for that variable. A variable that received no gateway-scoped key holds
    the direct provider key of its own name when that one is set and not
    empty, and is left out otherwise; so the fallback never replaces a routed
    key. *)
Theorem api_key_resolution (env : MoltbotEnv) :
  buildEnvVars env !! "OPENAI_API_KEY"
  = match scopedKey env with
    | Some key => if openaiShaped env then Some key else nonEmpty (OPENAI_API_KEY env)
    | None => nonEmpty (OPENAI_API_KEY env)
    end
  /\ buildEnvVars env !! "ANTHROPIC_API_KEY"
     = match scopedKey env with
       | Some key => if openaiShaped env then nonEmpty (ANTHROPIC_API_KEY env) else Some key
       | None => nonEmpty (ANTHROPIC_API_KEY env)
       end.
Proof.
  destruct (key_lookups env) as [Ho Ha]. rewrite Ho, Ha.
  rewrite scopedKey_code, openaiShaped_code, !nonEmpty_present. unfold present.
  destruct (truthyS (gatewayApiKey env)) eqn:Hk.
  - destruct (gatewayApiKey env) as [key|]; [|discriminate].
    now destruct (isOpenAIGateway env).
  - now split.
Qed.

(** X7. The gateway URL is handed on under its generic name and under the
    name of exactly one provider. The URL is [AI_GATEWAY_BASE_URL], or the
    one built from the gateway and account identifiers, without its trailing
    slashes; when something is left of it, it is set as [AI_GATEWAY_BASE_URL]
    and as [OPENAI_BASE_URL] if it ends with [/openai], else as
    [ANTHROPIC_BASE_URL]. Only when nothing is left of it is a bound
    [ANTHROPIC_BASE_URL] handed on, as it is; in no case are the two provider
    variables both set. *)
Theorem base_url_routing (env : MoltbotEnv) :
  buildEnvVars env !! "AI_GATEWAY_BASE_URL" = normalizedUrl env
  /\ buildEnvVars env !! "OPENAI_BASE_URL"
     = match normalizedUrl env with
       | Some url => if Str.endsWith url "/openai" then Some url else None
       | None => None
       end
  /\ buildEnvVars env !! "ANTHROPIC_BASE_URL"
     = match normalizedUrl env with
       | Some url => if Str.endsWith url "/openai" then None else Some url
       | None => nonEmpty (ANTHROPIC_BASE_URL env)
       end
  /\ (buildEnvVars env !! "OPENAI_BASE_URL" = None
      \/ buildEnvVars env !! "ANTHROPIC_BASE_URL" = None).
Proof.
  destruct (base_urls env) as (Hg & Ho & Ha).
  rewrite Hg, Ho, Ha, normalizedUrl_code, nonEmpty_present.
  unfold isOpenAIGateway, present.
  destruct (normalizedBaseUrl env) as [[|c u]|]; cbn [truthyS String.eqb negb];
    [auto | | auto].
  destruct (Str.endsWith (String c u) "/openai"); auto.
Qed.

End ReconcilerExplicit.

(** ** The node program: the provider blocks and the clean-up *)

Section ProviderBlocks.
Import Node Synth SynthSpec ReconcilerSpec Expected.

Lemma url_code (env : ProcessEnv) : url env = baseUrl env.
Proof.
  unfold url, baseUrl, orS.
  destruct (AI_GATEWAY_BASE_URL env) as [[|c u]|]; cbn [nonEmpty truthyS String.eqb negb];
    try reflexivity;
    now destruct (ANTHROPIC_BASE_URL env).
Qed.

Lemma startsWith_empty (p : string) : p <> EmptyString -> Str.startsWith EmptyString p = false.
Proof. destruct p; [congruence | reflexivity]. Qed.

Lemma modelStartsWith_code (env : ProcessEnv) (p : string) :
  p <> EmptyString -> modelStartsWith env p = Str.startsWith (model env) p.
Proof.
  intros Hp. unfold modelStartsWith, model.
  destruct (CF_AI_GATEWAY_MODEL env) as [[|c m]|]; cbn [truthyS String.eqb negb andb];
    rewrite ?startsWith_empty by exact Hp; reflexivity.
Qed.

Lemma googleHint_code (env : ProcessEnv) : googleHint env = isGoogle env.
Proof.
  unfold googleHint, isGoogle. now rewrite url_code, modelStartsWith_code by discriminate.
Qed.

Lemma openaiHint_code (env : ProcessEnv) : openaiHint env = isOpenAI env.
Proof.
  unfold openaiHint, isOpenAI. now rewrite url_code, modelStartsWith_code by discriminate.
Qed.

Lemma target_code (env : ProcessEnv) : target env = selected env.
Proof.
  unfold target, selected. now rewrite googleHint_code, openaiHint_code, url_code.
Qed.

Lemma orDefault_code (u fallback : string) : orDefault u fallback = urlOr u fallback.
Proof. now destruct u. Qed.

Lemma freshBlock_code (env : ProcessEnv) : freshBlock env = newBlock env.
Proof.
  unfold freshBlock, newBlock, anthropicBlock, keyField.
  rewrite target_code. unfold selected.
  rewrite googleHint_code, !orDefault_code, url_code.
  destruct (isGoogle env).
  - destruct (Str.endsWith (baseUrl env) "/openai"); [reflexivity|].
    now destruct (OPENAI_API_KEY env) as [[|c k]|].
  - destruct (isOpenAI env); [reflexivity|].
    now destruct (ANTHROPIC_API_KEY env) as [[|c k]|].
Qed.

Lemma someMissingName_exists (entries : list value) :
  forallb nonNull entries = true ->
  someMissingName entries = Ok (existsb lacksName entries).
Proof.
  induction entries as [|m rest IH]; [reflexivity|].
  intros H. cbn [forallb] in H. apply andb_true_iff in H. destruct H as [Hm Hrest].
  cbn [someMissingName existsb]. unfold lacksName at 1.
  destruct m; try discriminate Hm;
    (destruct (truthy (getOwn _ "name")); cbn [negb orb]; [now apply IH | reflexivity]).
Qed.

Lemma purged_code (config : value) :
  scannable config = true -> brokenAnthropic config = purged config.
Proof.
  unfold scannable, brokenAnthropic, purged.
  destruct (nav config ["models"; "providers"; "anthropic"; "models"]) as [ms|];
    [|reflexivity].
  destruct (truthy (Some ms)) eqn:Ht; cbn [negb orb andb].
  - destruct ms as [| | | | entries props |]; try discriminate.
    unfold hasInvalidModels. destruct (lookupKey "some" props); [discriminate|].
    intros H. now rewrite (someMissingName_exists entries H).
  - intros _. destruct ms as [| | | | entries props |]; try reflexivity. discriminate Ht.
Qed.

(** C1 does not hold for every starting configuration. With the OpenAI
    gateway URL and the model [google/gemini-3-flash], a configuration whose
    [models.providers] is an array gets the block as a named property of the
    array, which is not written: the document has no [openai] block. With no
    base URL and no model, a configuration whose [agents.defaults.model] is a
    string keeps that string, the assignment of [primary] to it is dropped,
    and the document has no primary model. *)
Lemma shape_is_needed :
  (Str.endsWith (url (gatewayEnv (Some "google/gemini-3-flash"))) "/openai" = true
   /\ exists out,
        synthesize (gatewayEnv (Some "google/gemini-3-flash")) (Some arrayProviders) = Ok out
        /\ nav out ["models"; "providers"] = Some (VArr [] [])
        /\ block out openai = None)
  /\ (exists out, synthesize emptyEnv (Some stringModel) = Ok out
        /\ nav out ["agents"; "defaults"; "model"] = Some (VStr "anthropic/claude-opus-4-5")
        /\ primary out = None).
Proof.
  split.
  - split; [reflexivity|]. eexists. split; [vm_compute; reflexivity|].
    split; reflexivity.
  - eexists. split; [vm_compute; reflexivity|]. split; reflexivity.
Qed.

(** C1, amended. On every configuration of the expected shape the program
    writes a document such that: (1) when the normalized base URL ends with
    [/openai] and the configured model is [google/gemini-3-flash], the
    [openai] block has that URL, the API [openai-responses] and the three
    entries of the Google catalog, and for every Google model both aliases,
    [google/<id>] and [openai/google/<id>], are in the allowlist with the
    display name of the model; (2) when the URL ends with [/openai] and
    nothing points to Google (the URL does not contain [gemini], the model
    does not start with [google/]), the [openai] block has that URL, the API
    [openai-responses] and the three entries of the OpenAI catalog; (3) with
    no base URL and no model, the [anthropic] block has the URL
    [https://api.anthropic.com], the API [anthropic-messages], the four
    entries of the Anthropic catalog and the API key when one is set, and the
    primary model is [anthropic/claude-sonnet-4-5-20250929]. *)
Theorem provider_classification (env : ProcessEnv) (config : value) :
  wellShaped config = true ->
  exists out, synthesize env (Some config) = Ok out
    /\ (Str.endsWith (url env) "/openai" = true ->
        CF_AI_GATEWAY_MODEL env = Some "google/gemini-3-flash" ->
        block out openai
        = Some (VObj [("baseUrl", VStr (url env)); ("api", VStr "openai-responses");
                      ("models", googleCatalog)])
        /\ forall id name, In (id, name) googleNames ->
             allowed out ("google/" +:+ id) = Some (VObj [("alias", VStr name)])
             /\ allowed out ("openai/google/" +:+ id) = Some (VObj [("alias", VStr name)]))
    /\ (Str.endsWith (url env) "/openai" = true ->
        Str.includes (url env) "gemini" = false ->
        Str.startsWith (model env) "google/" = false ->
        block out openai
        = Some (VObj [("baseUrl", VStr (url env)); ("api", VStr "openai-responses");
                      ("models", openaiCatalog)]))
    /\ (AI_GATEWAY_BASE_URL env = None -> ANTHROPIC_BASE_URL env = None ->
        CF_AI_GATEWAY_MODEL env = None ->
        block out anthropic
        = Some (VObj ([("baseUrl", VStr "https://api.anthropic.com");
                       ("api", VStr "anthropic-messages"); ("models", anthropicCatalog)]
                      ++ keyField (ANTHROPIC_API_KEY env)))
        /\ populated out anthropic = true
        /\ primary out = Some (VStr "anthropic/claude-sonnet-4-5-20250929")).
Proof.
  intros Hwf.
  destruct (synthesize_ok env config Hwf) as (out & Hrun & _ & Hb & _ & Hp & Ha).
  exists out. split; [exact Hrun|].
  rewrite <- freshBlock_code, <- target_code in Hb.
  split; [|split].
  - intros Hurl Hmodel.
    assert (Hg : googleHint env = true).
    { unfold googleHint, model. rewrite Hmodel. apply orb_true_r. }
    unfold freshBlock, target in Hb. rewrite Hg, Hurl in Hb.
    split; [exact Hb|].
    unfold aliases in Ha. rewrite <- googleHint_code, <- url_code, Hg, Hurl in Ha.
    rewrite Forall_forall in Ha.
    intros id name Hin. cbn [In googleNames] in Hin.
    destruct Hin as [E|[E|[E|[]]]]; injection E as <- <-;
      (split;
       [ refine (Ha (_, {| Synth.id := _; Synth.name := _; contextWindow := _ |}) _)
       | refine (Ha (_, {| Synth.id := _; Synth.name := _; contextWindow := _ |}) _) ];
       apply list_elem_of_In; cbn; auto 10).
  - intros Hurl Hgem Hmodel.
    assert (Hg : googleHint env = false).
    { unfold googleHint.
      now rewrite (endsWith_openai_not_google _ Hurl), Hgem, Hmodel. }
    assert (Ho : openaiHint env = true) by (unfold openaiHint; now rewrite Hurl).
    unfold freshBlock, target in Hb. rewrite Hg, Ho in Hb. exact Hb.
  - intros H1 H2 H3.
    assert (Hu : url env = EmptyString) by (unfold url; now rewrite H1, H2).
    assert (Hg : googleHint env = false) by (unfold googleHint, model; now rewrite Hu, H3).
    assert (Ho : openaiHint env = false) by (unfold openaiHint, model; now rewrite Hu, H3).
    unfold freshBlock, target in Hb. rewrite Hg, Ho, Hu in Hb. cbn [orDefault] in Hb.
    split; [exact Hb|]. split.
    + unfold populated. now rewrite Hb.
    + rewrite Hp. unfold primaryModel, defaultPrimary.
      rewrite <- googleHint_code, <- openaiHint_code, Hg, Ho, H3. reflexivity.
Qed.

Lemma provider_classification_witness :
  exists out, synthesize (gatewayEnv (Some "google/gemini-3-flash")) (Some skeleton) = Ok out
    /\ block out openai
       = Some (VObj [("baseUrl", VStr "https://gateway.ai.cloudflare.com/v1/acc/gw/openai");
                     ("api", VStr "openai-responses"); ("models", googleCatalog)])
    /\ (forall id name, In (id, name) googleNames ->
          allowed out ("google/" +:+ id) = Some (VObj [("alias", VStr name)])
          /\ allowed out ("openai/google/" +:+ id) = Some (VObj [("alias", VStr name)])).
Proof.
  destruct (provider_classification (gatewayEnv (Some "google/gemini-3-flash")) skeleton
              eq_refl) as (out & Hrun & H1 & _).
  exists out. split; [exact Hrun|]. exact (H1 eq_refl eq_refl).
Defined.

(** C6, amended. After synthesis on a configuration of the expected shape,
    the block of the selected provider is the freshly built one: the URL, the
    API and the catalog of the branch taken, and the API key where the branch
    stores one. Each of the two other blocks is populated exactly when the
    starting configuration had it populated and the clean-up did not delete
    it, which it does only to an anthropic block with a model entry without
    name; so exactly one block is populated whenever no other block was kept
    populated. *)
Theorem selected_block_populated (env : ProcessEnv) (config : value) :
  wellShaped config = true ->
  exists out, synthesize env (Some config) = Ok out
    /\ block out (target env) = Some (freshBlock env)
    /\ populated out (target env) = true
    /\ (forall K, K <> target env ->
          populated out K = populated config K && negb (cleaned config K))
    /\ ((forall K, K <> target env ->
           populated config K && negb (cleaned config K) = false) ->
        populatedCount out = 1).
Proof.
  intros Hwf.
  destruct (synthesize_ok env config Hwf) as (out & Hrun & _ & Hb & Ho & _).
  exists out. split; [exact Hrun|].
  assert (Hscan : scannable config = true).
  { unfold wellShaped in Hwf. apply andb_true_iff in Hwf. tauto. }
  rewrite target_code, freshBlock_code.
  assert (Hsel : populated out (selected env) = true).
  { unfold populated. rewrite Hb. apply newBlock_isObj. }
  assert (Hoth : forall K, K <> selected env ->
                   populated out K = populated config K && negb (cleaned config K)).
  { intros K HK. unfold populated at 1. rewrite (Ho K HK).
    unfold kept, cleaned, populated. rewrite <- (purged_code config Hscan).
    destruct K;
      try (destruct (block config _) as [x|]; cbn [option_map negb andb];
           [now rewrite toJSON_isObj, andb_true_r | reflexivity]).
    destruct (brokenAnthropic config); cbn [negb];
      [now rewrite andb_false_r|].
    destruct (block config anthropic) as [x|]; cbn [option_map andb];
      [now rewrite toJSON_isObj, andb_true_r | reflexivity]. }
  split; [exact Hb|]. split; [exact Hsel|]. split; [exact Hoth|].
  intros Hnone. apply (count_one out (selected env) Hsel).
  intros K HK. rewrite (Hoth K HK). now apply Hnone.
Qed.

Lemma selected_block_populated_witness :
  exists out, synthesize (gatewayEnv None) (Some restoredConfig) = Ok out
    /\ block out (target (gatewayEnv None)) = Some (freshBlock (gatewayEnv None))
    /\ populated out (target (gatewayEnv None)) = true
    /\ (forall K, K <> target (gatewayEnv None) ->
          populated out K = populated restoredConfig K && negb (cleaned restoredConfig K))
    /\ ((forall K, K <> target (gatewayEnv None) ->
           populated restoredConfig K && negb (cleaned restoredConfig K) = false) ->
        populatedCount out = 1).
Proof. apply (selected_block_populated (gatewayEnv None) restoredConfig). reflexivity. Defined.

End ProviderBlocks.

Section CleanUp.
Import Node Synth SynthSpec ReconcilerSpec Expected.

Lemma someMissingName_find (entries : list value) :
  someMissingName entries
  = match List.find lacksName entries with
    | None => Ok false
    | Some VNull => Throw (TypeError "Cannot read properties of null (reading 'name')")
    | Some _ => Ok true
    end.
Proof.
  induction entries as [|m rest IH]; [reflexivity|].
  cbn [someMissingName List.find]. unfold lacksName at 1.
  destruct m; try reflexivity;
    (destruct (truthy (getOwn _ "name")); cbn [negb]; [exact IH | reflexivity]).
Qed.

(** The test of the program comes to what the scan of the specification
    says. *)
Lemma cleanUpTest_scan (config : value) :
  cleanUpTest config
  = match scan config with
    | Clean => Ok false
    | Broken => Ok true
    | Crash e => Throw e
    end.
Proof.
  unfold cleanUpTest, scan.
  destruct (nav config ["models"; "providers"; "anthropic"; "models"]) as [ms|];
    [|reflexivity].
  destruct (truthy (Some ms)); [|reflexivity].
  destruct ms as [| | | | entries props |]; try reflexivity.
  unfold hasInvalidModels. destruct (lookupKey "some" props); [reflexivity|].
  rewrite someMissingName_find.
  destruct (List.find lacksName entries) as [[]|]; reflexivity.
Qed.

Lemma purge_reads (v : value) :
  objs v [] = true ->
  purgeBrokenAnthropic v
  = match nav v ["models"; "providers"; "anthropic"; "models"] with
    | Some ms =>
        if truthy (Some ms) then
          match hasInvalidModels ms with
          | Ok true => del ["models"; "providers"; "anthropic"] v
          | Ok false => Ok (tt, v)
          | Throw e => Throw e
          end
        else Ok (tt, v)
    | None => Ok (tt, v)
    end.
Proof.
  intros Hroot. unfold purgeBrokenAnthropic, rd, lift.
  rewrite (bind_run _ _ v v (nav v ["models"]));
    [|now rewrite (read_nav v ["models"]) by (now destruct v)].
  rewrite readOpt_sub.
  destruct (nav v ["models"; "providers"; "anthropic"; "models"]) as [ms|]; [|reflexivity].
  destruct (truthy (Some ms)); [|reflexivity].
  unfold Node.bind. destruct (hasInvalidModels ms) as [[|]|e]; reflexivity.
Qed.

(** The clean-up when its test returns. *)
Lemma purge_any (v : value) (b : bool) :
  objs v [] = true ->
  slot_ok v ["models"] = true ->
  slot_ok v ["models"; "providers"] = true ->
  shaped v = true ->
  cleanUpTest v = Ok b ->
  exists v', purgeBrokenAnthropic v = Ok (tt, v')
    /\ framed ["models"; "providers"; "anthropic"] v v'
    /\ nav v' ["models"; "providers"; "anthropic"]
       = (if b then None else nav v ["models"; "providers"; "anthropic"])
    /\ slot_ok v' ["models"] = true
    /\ slot_ok v' ["models"; "providers"] = true
    /\ shaped v' = true.
Proof.
  intros Hroot S1 S2 Hall Htest.
  rewrite (purge_reads v Hroot). unfold cleanUpTest in Htest.
  pose proof (framed_refl ["models"; "providers"; "anthropic"] v) as Hsame.
  destruct (nav v ["models"; "providers"; "anthropic"; "models"]) as [ms|] eqn:Hms.
  - destruct (truthy (Some ms)) eqn:Ht.
    + rewrite Htest. destruct b.
      * assert (O1 : objs v ["models"] = true).
        { apply (slot_descend v [] "models" "providers" ["anthropic"; "models"] ms);
            assumption. }
        assert (O2 : objs v ["models"; "providers"] = true).
        { apply (slot_descend v ["models"] "providers" "anthropic" ["models"] ms);
            assumption. }
        destruct (del_framed ["models"; "providers"; "anthropic"] v ltac:(parent_objs))
          as (v' & Hrun & Hgone & Hfr).
        exists v'. split; [exact Hrun|]. split; [exact Hfr|]. split; [exact Hgone|].
        split; [apply objs_slot_ok; now apply (proj2 Hfr)|].
        split; [apply objs_slot_ok; now apply (proj2 Hfr)|].
        apply (framed_shaped ["models"; "providers"; "anthropic"] v v');
          [parent_objs | exact Hfr | reflexivity | exact Hall].
      * exists v. repeat split; auto; apply Hsame.
    + injection Htest as <-. exists v. repeat split; auto; apply Hsame.
  - injection Htest as <-. exists v. repeat split; auto; apply Hsame.
Qed.

(** The clean-up when its test throws. *)
Lemma purge_crash (v : value) (e : exn) :
  objs v [] = true -> cleanUpTest v = Throw e -> purgeBrokenAnthropic v = Throw e.
Proof.
  intros Hroot Htest. rewrite (purge_reads v Hroot). unfold cleanUpTest in Htest.
  destruct (nav v ["models"; "providers"; "anthropic"; "models"]) as [ms|];
    [|discriminate].
  destruct (truthy (Some ms)); [|discriminate]. now rewrite Htest.
Qed.

(** The facts about the starting configuration that the statements of
    "ensure nested objects exist" carry to the clean-up. *)
Ltac prelude_facts config Hroot Hall :=
  let Hslots := fresh "Hslots" in
  pose proof Hall as Hslots; unfold shaped, slots in Hslots; cbn [forallb] in Hslots;
  conjuncts;
  rewrite <- objs_nil in Hroot;
  let oo := fresh "oo" in let og := fresh "og" in
  let oa := fresh "oa" in let om := fresh "om" in
  let Eo := fresh "Eo" in let Eg := fresh "Eg" in
  let Ea := fresh "Ea" in let Em := fresh "Em" in
  remember (nav config ["models"; "providers"; "openai"]) as oo eqn:Eo;
  remember (nav config ["models"; "providers"; "google"]) as og eqn:Eg;
  remember (nav config ["models"; "providers"; "anthropic"]) as oa eqn:Ea;
  remember (nav config ["models"; "providers"; "anthropic"; "models"]) as om eqn:Em;
  pose proof (eq_sym Eo); pose proof (eq_sym Eg);
  pose proof (eq_sym Ea); pose proof (eq_sym Em).

Lemma cleanUpTest_same (v w : value) :
  nav w ["models"; "providers"; "anthropic"; "models"]
  = nav v ["models"; "providers"; "anthropic"; "models"] ->
  cleanUpTest w = cleanUpTest v.
Proof. intros H. unfold cleanUpTest. now rewrite H. Qed.

(** On a configuration whose containers have the expected shape,
    "ensure nested objects exist" and the clean-up run to their end when the
    test of the clean-up returns. *)
Lemma prelude_any (config : value) (b : bool) :
  isObj config = true -> shaped config = true -> cleanUpTest config = Ok b ->
  exists mid, Node.bind ensureNested (fun _ => purgeBrokenAnthropic) config = Ok (tt, mid)
    /\ ready mid = true
    /\ shaped mid = true
    /\ block mid anthropic = (if b then None else block config anthropic)
    /\ block mid openai = block config openai
    /\ block mid google = block config google.
Proof.
  intros Hroot Hall Htest.
  assert (Hsame : forall w, nav w ["models"; "providers"; "anthropic"; "models"]
                            = nav config ["models"; "providers"; "anthropic"; "models"] ->
                            cleanUpTest w = Ok b).
  { intros w Hw. now rewrite (cleanUpTest_same config w Hw). }
  unfold block. cbn [providerKey].
  prelude_facts config Hroot Hall.
  unfold ensureNested.
  step. step. step. step. step.
  match goal with
  | |- exists _, purgeBrokenAnthropic ?v = _ /\ _ =>
      destruct (purge_any v b ltac:(assumption) ltac:(assumption) ltac:(assumption)
                  ltac:(assumption) ltac:(apply Hsame; assumption))
        as (w & Hrun & Hfr & Hanth & S1 & S2 & Hall');
      exists w; split; [exact Hrun|]; clear Hrun;
      match goal with Hn : nav v ["models"; "providers"; "anthropic"] = _ |- _ =>
        rewrite Hn in Hanth
      end;
      carry_framed v w Hfr; clear Hfr
  end.
  split; [|repeat split; assumption].
  unfold ready. cbn [forallb].
  repeat (apply andb_true_iff; split); try reflexivity; assumption.
Qed.

(** And they end with the exception of the test when it throws. *)
Lemma prelude_crash (config : value) (e : exn) :
  isObj config = true -> shaped config = true -> cleanUpTest config = Throw e ->
  Node.bind ensureNested (fun _ => purgeBrokenAnthropic) config = Throw e.
Proof.
  intros Hroot Hall Htest.
  assert (Hsame : forall w, nav w ["models"; "providers"; "anthropic"; "models"]
                            = nav config ["models"; "providers"; "anthropic"; "models"] ->
                            cleanUpTest w = Throw e).
  { intros w Hw. now rewrite (cleanUpTest_same config w Hw). }
  prelude_facts config Hroot Hall.
  unfold ensureNested.
  step. step. step. step. step.
  apply purge_crash; [assumption | apply Hsame; assumption].
Qed.

Lemma updateConfig_crash (env : ProcessEnv) (config : value) (e : exn) :
  Node.bind ensureNested (fun _ => purgeBrokenAnthropic) config = Throw e ->
  updateConfig env config = Throw e.
Proof.
  intros H. unfold updateConfig.
  transitivity (Node.bind (Node.bind ensureNested (fun _ => purgeBrokenAnthropic))
                  (fun _ => afterCleanUp env) config).
  - now rewrite bind_assoc.
  - unfold Node.bind at 1. now rewrite H.
Qed.

(** The document of a run whose clean-up test returned. *)
Lemma cleanUp_then_write (env : ProcessEnv) (config : value) (b : bool) :
  isObj config = true -> shaped config = true -> cleanUpTest config = Ok b ->
  exists mid out,
    Node.bind ensureNested (fun _ => purgeBrokenAnthropic) config = Ok (tt, mid)
    /\ updateConfig env config = afterCleanUp env mid
    /\ block mid anthropic = (if b then None else block config anthropic)
    /\ block mid openai = block config openai
    /\ block mid google = block config google
    /\ synthesize env (Some config) = Ok out
    /\ block out (target env) = Some (freshBlock env)
    /\ (forall K, K <> target env ->
          block out K
          = match K with
            | anthropic =>
                if b then None else option_map toJSON (block config anthropic)
            | _ => option_map toJSON (block config K)
            end).
Proof.
  intros Hroot Hall Htest.
  destruct (prelude_any config b Hroot Hall Htest)
    as (mid & Hpre & Hready & Hshaped & Ka & Ko & Kg).
  destruct (afterCleanUp_ok env mid Hready Hshaped)
    as (v' & Hrun & P0 & P1 & P2 & P3 & P4 & P5 & P6 & P7).
  exists mid, (toJSON v').
  pose proof (updateConfig_split env config mid Hpre) as Hsplit.
  assert (Hblock : forall K, block (toJSON v') K = option_map toJSON (block v' K)).
  { intros K. unfold block. apply toJSON_nav. apply objsTo_parent; [discriminate|].
    exact P1. }
  repeat match goal with |- _ /\ _ => split end; try assumption.
  - unfold synthesize, loadConfig. now rewrite Hsplit, Hrun.
  - rewrite target_code, freshBlock_code, Hblock, P4. cbn [option_map].
    now rewrite toJSON_newBlock.
  - intros K HK. rewrite target_code in HK. rewrite Hblock, (P5 K HK).
    destruct K; [rewrite Ka; now destruct b | now rewrite Ko | now rewrite Kg].
Qed.

(** C8, amended. On a configuration whose root is an object and whose
    containers have the expected shape, the clean-up looks at the model
    entries of the persisted [anthropic] block only, in order, right after
    "ensure nested objects exist" and before the gateway, the channel and the
    provider sections. When the first entry without a truthy [name] is not
    [null], the [anthropic] block is deleted; when every entry has one, or
    there is nothing to scan, it is kept. The [openai] and [google] blocks are
    as persisted, whatever their model entries. The rest of the program then
    starts from that state: the block of the selected provider is the freshly
    built one, and every other block is written as the clean-up left it.
    When the [models] of the [anthropic] block is truthy and no array, or the
    first entry without a truthy name is [null], the program ends with the
    TypeError of the scan and writes nothing. *)
Theorem purge_is_anthropic_only (env : ProcessEnv) (config : value) :
  isObj config = true ->
  shaped config = true ->
  match scan config with
  | Crash e => synthesize env (Some config) = Throw e
  | outcome =>
      exists mid out,
        Node.bind ensureNested (fun _ => purgeBrokenAnthropic) config = Ok (tt, mid)
        /\ updateConfig env config = afterCleanUp env mid
        /\ block mid anthropic
           = match outcome with
             | Broken => None
             | _ => block config anthropic
             end
        /\ block mid openai = block config openai
        /\ block mid google = block config google
        /\ synthesize env (Some config) = Ok out
        /\ block out (target env) = Some (freshBlock env)
        /\ (forall K, K <> target env ->
              block out K
              = match K, outcome with
                | anthropic, Broken => None
                | _, _ => option_map toJSON (block config K)
                end)
  end.
Proof.
  intros Hroot Hall. pose proof (cleanUpTest_scan config) as Htest.
  destruct (scan config) as [| |e].
  - destruct (cleanUp_then_write env config false Hroot Hall Htest)
      as (mid & out & H1 & H2 & H3 & H4 & H5 & H6 & H7 & H8).
    exists mid, out. repeat match goal with |- _ /\ _ => split end; try assumption.
    intros K HK. rewrite (H8 K HK). now destruct K.
  - destruct (cleanUp_then_write env config true Hroot Hall Htest)
      as (mid & out & H1 & H2 & H3 & H4 & H5 & H6 & H7 & H8).
    exists mid, out. repeat match goal with |- _ /\ _ => split end; assumption.
  - unfold synthesize, loadConfig.
    now rewrite (updateConfig_crash env config e (prelude_crash config e Hroot Hall Htest)).
Qed.

Lemma purge_is_anthropic_only_witness :
  exists mid out,
    Node.bind ensureNested (fun _ => purgeBrokenAnthropic) brokenConfig = Ok (tt, mid)
    /\ updateConfig (gatewayEnv None) brokenConfig = afterCleanUp (gatewayEnv None) mid
    /\ block mid anthropic = None
    /\ block mid openai = block brokenConfig openai
    /\ block mid google = block brokenConfig google
    /\ synthesize (gatewayEnv None) (Some brokenConfig) = Ok out
    /\ block out (target (gatewayEnv None)) = Some (freshBlock (gatewayEnv None))
    /\ (forall K, K <> target (gatewayEnv None) ->
          block out K
          = match K, Broken with
            | anthropic, Broken => None
            | _, _ => option_map toJSON (block brokenConfig K)
            end).
Proof.
  exact (purge_is_anthropic_only (gatewayEnv None) brokenConfig eq_refl eq_refl).
Defined.

(** The clean-up on the samples: the scan of the broken configuration finds
    an entry without name; a [null] entry ends the program. *)
Example scan_samples :
  scan brokenConfig = Broken
  /\ scan skeleton = Clean
  /\ synthesize emptyEnv (Some nullEntry)
     = Throw (TypeError "Cannot read properties of null (reading 'name')").
Proof. repeat split. Qed.

End CleanUp.

(** ** The access middleware: the credentials *)

Section AccessCredentials.
Import Env Access AccessSpec AccessCover CookieCover.

(** The token check of the middleware, in terms of the request. *)
Lemma tokenMatches_iff (c : Context) :
  tokenMatches c = true
  <-> exists gatewayToken,
        MOLTBOT_GATEWAY_TOKEN (env c) = Some gatewayToken
        /\ gatewayToken <> EmptyString
        /\ (queryToken (req c) = Some gatewayToken \/ cookieToken c = Some gatewayToken).
Proof.
  unfold tokenMatches. destruct (MOLTBOT_GATEWAY_TOKEN (env c)) as [t|].
  - rewrite andb_true_iff, orb_true_iff. cbn [truthyS]. rewrite negb_true_iff, String.eqb_neq.
    unfold strictEq. split.
    + intros [Hne H]. exists t. split; [reflexivity|]. split; [exact Hne|].
      destruct H as [H|H]; [left|right];
        [destruct (queryToken (req c)) as [q|] | destruct (cookieToken c) as [q|]];
        try discriminate; apply String.eqb_eq in H; now subst.
    + intros (t' & [= <-] & Hne & H). split; [exact Hne|].
      destruct H as [-> | ->]; rewrite String.eqb_refl; auto.
  - split; [discriminate|]. intros (t & H & _). discriminate.
Qed.

(** The token cookie of a header made of well-formed cookies. *)
Lemma cookieToken_read (c : Context) (cookies : list (string * string)) :
  wellFormed cookies = true ->
  cookieHeader (req c) = Some (cookieLine cookies) ->
  cookieToken c = cookieNamed "moltbot-token" cookies.
Proof.
  intros Hwf Hheader. unfold cookieToken. rewrite Hheader.
  destruct cookies as [|cookie rest]; [reflexivity|].
  pose proof (segments_of_cookieLine (cookie :: rest) Hwf ltac:(discriminate)) as Hseg.
  exact (proj2 (find_cookie "moltbot-token" _ _ eq_refl Hseg Hwf)).
Qed.

(** X11. The downstream handler is reached exactly by the requests with an
    accepted credential: [next] is called if and only if the dev-mode shortcut
    is open, or a non-empty gateway token is configured and it equals the
    [token] query parameter or the value the middleware reads for the
    [moltbot-token] cookie, or Cloudflare Access is configured and
    [verifyAccessJWT] accepts the JWT of the request. A request for which
    [next] is not called is answered by a response of the middleware
    itself. *)
Theorem access_granted_iff (options : AccessMiddlewareOptions) (c : Context) :
  (granted (snd (Prog.run (createAccessMiddleware options c)))
   <-> (shortcut c = true
        \/ (exists gatewayToken,
              MOLTBOT_GATEWAY_TOKEN (env c) = Some gatewayToken
              /\ gatewayToken <> EmptyString
              /\ (queryToken (req c) = Some gatewayToken
                  \/ cookieToken c = Some gatewayToken))
        \/ (accessConfigured c = true /\ exists user, jwtAccepted c = Some user)))
  /\ (~ granted (snd (Prog.run (createAccessMiddleware options c))) ->
      exists response,
        fst (Prog.run (createAccessMiddleware options c)) = Ok (Some response)).
Proof.
  rewrite <- tokenMatches_iff.
  rewrite middleware_run. unfold decision, granted, jwtAccepted, verdict.
  destruct (comparison_quiet c) as (_ & _ & Hcmp & _).
  destruct (shortcut c); [cbn; tauto|].
  destruct (tokenMatches c); [cbn [snd]; rewrite in_app_iff; cbn; tauto|].
  destruct (accessConfigured c); cbn [negb].
  - destruct (presentedJWT c) as [jwt|].
    + destruct (verifyAccessJWT c jwt _ _) as [user|err].
      * destruct (next c) as [[]|err]; cbn [fst snd]; rewrite in_app_iff; cbn;
          (split; [split; [intros _; right; right; eauto | intros _; tauto]
                  | intros Hno; exfalso; apply Hno; tauto]).
      * cbn [fst snd]. rewrite in_app_iff. cbn. split; [|eauto].
        split; [intuition discriminate|].
        intros [?|[?|[_ [user ?]]]]; discriminate.
    + cbn [fst snd]. split; [|eauto]. split; [tauto|].
      intros [?|[?|[_ [user ?]]]]; discriminate.
  - cbn [fst snd]. split; [|eauto]. split; [tauto|].
    intros [?|[?|[? _]]]; discriminate.
Qed.

(** X12. Outside the dev-mode shortcut, a request that carries the
    configured gateway token is let through as the token administrator,
    whether Cloudflare Access is configured or not and whatever JWT comes with
    it. The token is carried as the [token] query parameter, or as the value
    of the first [moltbot-token] cookie of a [Cookie] header made of cookies
    whose names and values hold no [;], no [=] and no white space. The token
    is compared, no JWT is verified, and the answer is the one of [next]. *)
Theorem token_grants_access (options : AccessMiddlewareOptions) (c : Context)
    (gatewayToken : string) :
  shortcut c = false ->
  MOLTBOT_GATEWAY_TOKEN (env c) = Some gatewayToken ->
  gatewayToken <> EmptyString ->
  queryToken (req c) = Some gatewayToken
  \/ (exists cookies,
        wellFormed cookies = true
        /\ cookieHeader (req c) = Some (cookieLine cookies)
        /\ cookieNamed "moltbot-token" cookies = Some gatewayToken) ->
  Prog.run (createAccessMiddleware options c)
  = (match next c with Ok _ => Ok None | Throw e => Throw e end,
     [EvCompareToken gatewayToken; EvSetAccessUser tokenAdmin; EvNext]).
Proof.
  intros Hoff Htoken Hne Hcarried.
  assert (Ht : truthyS (Some gatewayToken) = true).
  { cbn. now apply negb_true_iff, String.eqb_neq. }
  assert (Hm : tokenMatches c = true).
  { apply tokenMatches_iff. exists gatewayToken. split; [exact Htoken|].
    split; [exact Hne|].
    destruct Hcarried as [Hq | (cookies & Hwf & Hheader & Hnamed)]; [now left|].
    right. now rewrite (cookieToken_read c cookies Hwf Hheader). }
  rewrite middleware_run. unfold decision, comparison, downstream.
  now rewrite Hoff, Hm, Htoken, Ht.
Qed.

Lemma token_grants_access_witness :
  Prog.run (createAccessMiddleware jsonOptions
              (request None (Some "theme=dark; moltbot-token=secret") (Some "stale.jwt")
                 (fun _ _ _ => Throw (Error "expired")) (Ok tt)))
  = (Ok None, [EvCompareToken "secret"; EvSetAccessUser tokenAdmin; EvNext]).
Proof.
  apply (token_grants_access jsonOptions
           (request None (Some "theme=dark; moltbot-token=secret") (Some "stale.jwt")
              (fun _ _ _ => Throw (Error "expired")) (Ok tt)) "secret").
  - reflexivity.
  - reflexivity.
  - discriminate.
  - right. exists [("theme", "dark"); ("moltbot-token", "secret")].
    split; [reflexivity|]. split; reflexivity.
Defined.

(** X14. A rejection of [next] with a value that is not an [Error] (an
    [Error] thrown by a handler is handed to the error handler of the
    application, and [next] returns) fares differently with the credential:
    under the dev-mode shortcut and for the gateway token the middleware
    rejects with that value; after a verified JWT the value is caught together
    with the verification failures, logged as one, and answered with the 401 of
    an invalid session. *)
Theorem downstream_failure (options : AccessMiddlewareOptions) (c : Context)
    (value : string) :
  next c = Throw (Thrown value) ->
  granted (snd (Prog.run (createAccessMiddleware options c))) ->
  fst (Prog.run (createAccessMiddleware options c))
  = (if shortcut c || tokenMatches c then Throw (Thrown value)
     else Ok (Some (invalidJWT options (teamDomainOf c) (Thrown value))))
  /\ (shortcut c || tokenMatches c = false ->
      List.last (snd (Prog.run (createAccessMiddleware options c))) EvNext
      = EvLogError "Access JWT verification failed:"
      /\ statusOf (invalidJWT options (teamDomainOf c) (Thrown value)) = 401%Z).
Proof.
  intros Hnext. rewrite middleware_run. unfold decision, downstream, granted.
  destruct (comparison_quiet c) as (_ & _ & Hcmp & _).
  rewrite Hnext.
  destruct (shortcut c); [cbn; intuition discriminate|].
  destruct (tokenMatches c); [cbn; intuition discriminate|].
  cbn [orb].
  destruct (accessConfigured c); cbn [negb]; [|cbn [snd]; tauto].
  destruct (presentedJWT c) as [jwt|]; [|cbn [snd]; tauto].
  destruct (verifyAccessJWT c jwt _ _) as [user|err'].
  - cbn [fst snd]. intros _. split; [reflexivity|]. intros _. split.
    + match goal with
      | |- List.last (_ ++ [?a; ?b; ?d; ?e]) _ = _ =>
          change [a; b; d; e] with ([a; b; d] ++ [e])
      end.
      rewrite app_assoc. apply List.last_last.
    + unfold invalidJWT. now destruct (type options).
  - cbn [snd]. rewrite in_app_iff. cbn. intuition discriminate.
Qed.

Lemma downstream_failure_witness :
  fst (Prog.run (createAccessMiddleware jsonOptions
                   (request None None (Some "good.jwt") (fun _ _ _ => Ok alice)
                      (Throw (Thrown "stop")))))
  = Ok (Some (invalidJWT jsonOptions "team.example" (Thrown "stop")))
  /\ (false = false ->
      List.last (snd (Prog.run (createAccessMiddleware jsonOptions
                                  (request None None (Some "good.jwt")
                                     (fun _ _ _ => Ok alice)
                                     (Throw (Thrown "stop")))))) EvNext
      = EvLogError "Access JWT verification failed:"
      /\ statusOf (invalidJWT jsonOptions "team.example" (Thrown "stop")) = 401%Z).
Proof.
  apply (downstream_failure jsonOptions
           (request None None (Some "good.jwt") (fun _ _ _ => Ok alice)
              (Throw (Thrown "stop")))
           "stop").
  - reflexivity.
  - vm_compute. tauto.
Defined.

End AccessCredentials.

(** ** The node program: the channel settings *)

Section ChannelSettings.
Import Node Synth SynthSpec SynthCover ChannelSpec.






End ChannelSettings.
